(** * A shallow embedding of virtualenv_tools.py (move-virtualenv)

    Python [str] values read from the command line or from a file decoded
    as Latin-1 are modelled as [string]s: a character stands for a code
    point below U+0100.  Text decoded as UTF-8 (activation scripts) is a
    list of code points ([list N], module [Text]).  File contents are
    [string]s whose characters are bytes.  Files opened in text mode
    without an explicit encoding use the locale's preferred encoding,
    taken to be UTF-8.

    The file system has two models.  [FS] sees the environment root as a
    tree of entries in which a symbolic link carries a snapshot of what it
    reaches; [Posix] is a tree of directories, files and links in which
    every path is resolved through the links at the time of each
    operation. *)

From Stdlib Require Import Ascii String ZArith NArith Lia.
From stdpp Require Import base gmap strings list.

(** stdpp makes [String.append] opaque to [simpl]; the proofs below
    compute with it. *)
#[local] Arguments String.append : simpl nomatch.

(* ------------------------------------------------------------------ *)
(** ** Characters and Python string methods *)

Module Py.

Definition NL : ascii := "010"%char.
Definition CR : ascii := "013"%char.
Definition DQ : ascii := "034"%char.

(** [str.isspace] (hence [\s], [str.split()] and [str.strip()]) on the
    code points U+0000 .. U+00FF. *)
Definition is_space (c : ascii) : bool :=
  let n := nat_of_ascii c in
  (Nat.leb 9 n && Nat.leb n 13) || (Nat.leb 28 n && Nat.leb n 32)
  || Nat.eqb n 133 || Nat.eqb n 160.

(** [s.startswith(p)] *)
Definition startswith (p s : string) : bool := String.prefix p s.

(** [s.endswith(p)] *)
Definition endswith (p s : string) : bool :=
  let n := String.length s in
  let m := String.length p in
  Nat.leb m n && String.eqb (String.substring (n - m) m s) p.

(** [sub in s] *)
Definition contains (sub s : string) : bool :=
  match String.index 0 sub s with Some _ => true | None => false end.

(** [s.lstrip()], [s.rstrip()], [s.strip()] *)
Fixpoint lstrip (s : string) : string :=
  match s with
  | EmptyString => EmptyString
  | String c s' => if is_space c then lstrip s' else s
  end.

Fixpoint rstrip (s : string) : string :=
  match s with
  | EmptyString => EmptyString
  | String c s' =>
      let r := rstrip s' in
      if String.eqb r EmptyString && is_space c then EmptyString else String c r
  end.

Definition strip (s : string) : string := rstrip (lstrip s).

(** [s.split()]: [split_go s] is the token that starts at the first
    character of [s] (possibly empty) and the tokens after it. *)
Fixpoint split_go (s : string) : string * list string :=
  match s with
  | EmptyString => (EmptyString, [])
  | String c s' =>
      let '(tok, rest) := split_go s' in
      if is_space c
      then (EmptyString, if String.eqb tok EmptyString then rest else tok :: rest)
      else (String c tok, rest)
  end.

Definition split (s : string) : list string :=
  let '(tok, rest) := split_go s in
  if String.eqb tok EmptyString then rest else tok :: rest.

(** [sep.join(l)] *)
Fixpoint join (sep : string) (l : list string) : string :=
  match l with
  | [] => EmptyString
  | [x] => x
  | x :: l' => x +:+ sep +:+ join sep l'
  end.

(** Slice bounds: a negative index counts from the end, then the index
    is clamped to [0, len]. *)
Definition slice_index (len : nat) (k : Z) : nat :=
  if Z.ltb k 0 then Z.to_nat (Z.max 0 (Z.of_nat len + k))
  else Nat.min len (Z.to_nat k).

(** [s[:k]] and [s[k:]] *)
Definition slice_to (s : string) (k : Z) : string :=
  String.substring 0 (slice_index (String.length s) k) s.

Definition slice_from (s : string) (k : Z) : string :=
  let i := slice_index (String.length s) k in
  String.substring i (String.length s - i) s.

(** [posixpath.join(a, *p)] and [posixpath.isabs] *)
Definition join2 (a b : string) : string :=
  if startswith "/" b then b
  else if String.eqb a EmptyString || endswith "/" a then a +:+ b
  else a +:+ "/" +:+ b.

Definition path_join (a : string) (p : list string) : string :=
  fold_left join2 p a.

Definition isabs (s : string) : bool := startswith "/" s.

(** Text-mode reading with universal newlines: [\r\n] and [\r] are read
    as [\n]; [list(f)] then splits after every [\n]. *)
Fixpoint universal_newlines (s : string) : string :=
  match s with
  | EmptyString => EmptyString
  | String c s' =>
      if Ascii.eqb c CR then
        match s' with
        | String d s'' =>
            if Ascii.eqb d NL then String NL (universal_newlines s'')
            else String NL (universal_newlines s')
        | EmptyString => String NL EmptyString
        end
      else String c (universal_newlines s')
  end.

Fixpoint split_lines (s : string) : list string :=
  match s with
  | EmptyString => []
  | String c s' =>
      if Ascii.eqb c NL then String NL EmptyString :: split_lines s'
      else match split_lines s' with
           | [] => [String c EmptyString]
           | l :: ls => String c l :: ls
           end
  end.

(** [f.writelines(lines)] *)
Fixpoint concat_lines (ls : list string) : string :=
  match ls with
  | [] => EmptyString
  | l :: ls' => l +:+ concat_lines ls'
  end.

(** Matching a literal prefix, and [$] (end of the string, or before a
    final newline), for the patterns on names. *)
Fixpoint strip_prefix (p s : string) : option string :=
  match p, s with
  | EmptyString, _ => Some s
  | String a p', String b s' => if Ascii.eqb a b then strip_prefix p' s' else None
  | _, _ => None
  end.

Definition dollar (s : string) : bool :=
  match s with
  | EmptyString => true
  | String c EmptyString => Ascii.eqb c NL
  | _ => false
  end.

(** Encodings: Latin-1 maps each byte to the code point of the same
    number; UTF-8 writes code points from U+0080 (here below U+0100) as
    two bytes. *)
Definition latin1_decode (b : string) : string := b.

Definition utf8_encode_char (c : ascii) : string :=
  let n := nat_of_ascii c in
  if Nat.ltb n 128 then String c EmptyString
  else String (ascii_of_nat (192 + n / 64))
         (String (ascii_of_nat (128 + n mod 64)) EmptyString).

Fixpoint utf8_encode (s : string) : string :=
  match s with
  | EmptyString => EmptyString
  | String c s' => utf8_encode_char c +:+ utf8_encode s'
  end.

(** Predicates used in the statements below. *)
Fixpoint all_space (s : string) : bool :=
  match s with
  | EmptyString => true
  | String c s' => is_space c && all_space s'
  end.

Fixpoint has_char (c : ascii) (s : string) : bool :=
  match s with
  | EmptyString => false
  | String d s' => Ascii.eqb c d || has_char c s'
  end.

Fixpoint no_space (s : string) : bool :=
  match s with
  | EmptyString => true
  | String c s' => negb (is_space c) && no_space s'
  end.

Fixpoint is_ascii (s : string) : bool :=
  match s with
  | EmptyString => true
  | String c s' => Nat.ltb (nat_of_ascii c) 128 && is_ascii s'
  end.

End Py.

(* ------------------------------------------------------------------ *)
(** ** Text decoded as UTF-8: code points *)

Module Text.

Open Scope N_scope.

(** Code points of a decoded text. *)
Definition NL : N := 10.
Definition CR : N := 13.
Definition DQ : N := 34.

Definition cp (c : ascii) : N := N_of_ascii c.

(** A [string] (of bytes, or of code points below U+0100) as numbers. *)
Definition of_string (s : string) : list N := map cp (list_ascii_of_string s).

Definition bytes_to_string (b : list N) : string := string_of_list_ascii (map ascii_of_N b).

(** [str.isspace] (hence [\s] in a [str] pattern). *)
Definition is_space (c : N) : bool :=
  ((9 <=? c) && (c <=? 13)) || ((28 <=? c) && (c <=? 32)) || (c =? 133) || (c =? 160)
  || (c =? 5760) || ((8192 <=? c) && (c <=? 8202)) || (c =? 8232) || (c =? 8233)
  || (c =? 8239) || (c =? 8287) || (c =? 12288).

(** The strict UTF-8 decoder ([bytes.decode('utf-8')]): [None] is a
    [UnicodeDecodeError].  Overlong forms, surrogates, code points above
    U+10FFFF and truncated sequences are rejected. *)
Definition cont (b : N) : bool := (128 <=? b) && (b <=? 191).

Fixpoint decode (b : list N) : option (list N) :=
  match b with
  | [] => Some []
  | b0 :: r =>
      if b0 <? 128 then option_map (cons b0) (decode r)
      else if (194 <=? b0) && (b0 <=? 223) then
        match r with
        | b1 :: r' =>
            if cont b1 then option_map (cons ((b0 - 192) * 64 + (b1 - 128))) (decode r')
            else None
        | [] => None
        end
      else if (224 <=? b0) && (b0 <=? 239) then
        match r with
        | b1 :: b2 :: r' =>
            if ((if b0 =? 224 then 160 else 128) <=? b1) && (b1 <=? (if b0 =? 237 then 159 else 191))
               && cont b2
            then option_map (cons ((b0 - 224) * 4096 + (b1 - 128) * 64 + (b2 - 128))) (decode r')
            else None
        | _ => None
        end
      else if (240 <=? b0) && (b0 <=? 244) then
        match r with
        | b1 :: b2 :: b3 :: r' =>
            if ((if b0 =? 240 then 144 else 128) <=? b1) && (b1 <=? (if b0 =? 244 then 143 else 191))
               && cont b2 && cont b3
            then option_map (cons ((b0 - 240) * 262144 + (b1 - 128) * 4096 + (b2 - 128) * 64 + (b3 - 128)))
                   (decode r')
            else None
        | _ => None
        end
      else None
  end.

Definition utf8_decode (data : string) : option (list N) := decode (of_string data).

(** The strict UTF-8 encoder ([str.encode('utf-8')]): [None] is a
    [UnicodeEncodeError] (a surrogate). *)
Definition encode_char (c : N) : option (list N) :=
  if c <? 128 then Some [c]
  else if c <? 2048 then Some [192 + c / 64; 128 + c mod 64]
  else if c <? 65536 then
    if (55296 <=? c) && (c <=? 57343) then None
    else Some [224 + c / 4096; 128 + (c / 64) mod 64; 128 + c mod 64]
  else if c <? 1114112 then
    Some [240 + c / 262144; 128 + (c / 4096) mod 64; 128 + (c / 64) mod 64; 128 + c mod 64]
  else None.

Fixpoint encode (t : list N) : option (list N) :=
  match t with
  | [] => Some []
  | c :: t' =>
      match encode_char c, encode t' with
      | Some b, Some b' => Some (b ++ b')
      | _, _ => None
      end
  end.

Definition utf8_encode (t : list N) : option string := option_map bytes_to_string (encode t).

(** A Unicode scalar value: a code point that is not a surrogate. *)
Definition scalar (c : N) : Prop := c < 1114112 /\ ~ (55296 <= c <= 57343).

(** Text-mode reading with universal newlines, the lines [list(f)]
    yields, and [f.writelines(lines)], on code points. *)
Fixpoint universal_newlines (s : list N) : list N :=
  match s with
  | [] => []
  | c :: s' =>
      if c =? CR then
        match s' with
        | d :: s'' => if d =? NL then NL :: universal_newlines s'' else NL :: universal_newlines s'
        | [] => [NL]
        end
      else c :: universal_newlines s'
  end.

Fixpoint split_lines (s : list N) : list (list N) :=
  match s with
  | [] => []
  | c :: s' =>
      if c =? NL then [NL] :: split_lines s'
      else match split_lines s' with
           | [] => [[c]]
           | l :: ls => (c :: l) :: ls
           end
  end.

Definition concat_lines (ls : list (list N)) : list N := List.concat ls.

(** [s[:k]] and [s[k:]] *)
Definition slice_to (s : list N) (k : Z) : list N := take (Py.slice_index (length s) k) s.

Definition slice_from (s : list N) (k : Z) : list N := drop (Py.slice_index (length s) k) s.

(** Predicates used in the statements below. *)
Definition all_space (s : list N) : bool := forallb is_space s.

Definition has_char (c : N) (s : list N) : bool := existsb (N.eqb c) s.

(** The lines [list(f)] yields: each but the last ends in its only
    newline; the last one is not empty and may lack it. *)
Inductive lines_shape : list (list N) -> Prop :=
  | ls_nil : lines_shape []
  | ls_last (u : list N) : has_char NL u = false -> u <> [] -> lines_shape [u]
  | ls_cons (u : list N) (ls : list (list N)) :
      has_char NL u = false -> lines_shape ls -> lines_shape ((u ++ [NL]) :: ls).

End Text.

(* ------------------------------------------------------------------ *)
(** ** [_activation_path_re] and [update_activation_script] *)

Module Activation.
Import Text.
Open Scope N_scope.

Fixpoint strip_prefix (p s : list N) : option (list N) :=
  match p, s with
  | [], _ => Some s
  | a :: p', b :: s' => if a =? b then strip_prefix p' s' else None
  | _, _ => None
  end.

(** [$]: end of the string, or before a final newline. *)
Definition dollar (s : list N) : bool :=
  match s with
  | [] => true
  | [c] => c =? NL
  | _ => false
  end.

(** [\s*$], greedy with backtracking: the length taken by [\s*]. *)
Fixpoint ws_dollar (s : list N) : option nat :=
  match s with
  | [] => Some 0%nat
  | c :: s' =>
      match (if is_space c then ws_dollar s' else None) with
      | Some n => Some (S n)
      | None => if dollar s then Some 0%nat else None
      end
  end.

(** [(.*?)<dq>\s*$], lazy: the length of the group, and the length of the
    rest of the match after the group. [.] does not match [\n]. *)
Fixpoint lazy_group (s : list N) : option (nat * nat) :=
  match s with
  | [] => None
  | c :: s' =>
      match (if c =? DQ then ws_dollar s' else None) with
      | Some w => Some (0%nat, S w)
      | None =>
          if c =? NL then None
          else match lazy_group s' with
               | Some (g, t) => Some (S g, t)
               | None => None
               end
      end
  end.

(** [VIRTUAL_ENV[ =]<dq>(.*?)<dq>\s*$]: (group start, group end, match end),
    relative to [s]. *)
Definition match_tail (s : list N) : option (nat * nat * nat) :=
  match strip_prefix (of_string "VIRTUAL_ENV") s with
  | Some (sep :: q :: r) =>
      if ((sep =? 32) || (sep =? 61)) && (q =? DQ) then
        match lazy_group r with
        | Some (g, t) => Some (13%nat, (13 + g)%nat, (13 + g + t)%nat)
        | None => None
        end
      else None
  | _ => None
  end.

(** [(?:set -gx |setenv |)], alternatives tried in order. *)
Definition dialects : list (list N) := map of_string ["set -gx "; "setenv "; ""]%string.

Fixpoint try_dialects (alts : list (list N)) (line : list N) : option (nat * nat * nat) :=
  match alts with
  | [] => None
  | a :: alts' =>
      let k := length a in
      match strip_prefix a line with
      | Some r =>
          match match_tail r with
          | Some (gs, ge, e) => Some ((k + gs)%nat, (k + ge)%nat, (k + e)%nat)
          | None => try_dialects alts' line
          end
      | None => try_dialects alts' line
      end
  end.

(** [_activation_path_re.match(line)]: the pattern starts with [^]
    (no MULTILINE), so a search only succeeds at position 0.  Result:
    [match.span(1)] and [match.end()]; [match.start()] is 0. *)
Definition activation_path_re (line : list N) : option (nat * nat * nat) :=
  try_dialects dialects line.

(** [_handle_sub] *)
Definition handle_sub (new_path text : list N) (start end_ g_start g_end : nat) : list N :=
  slice_to text (Z.of_nat g_start - Z.of_nat start)
  ++ new_path
  ++ slice_from text (Z.of_nat g_end - Z.of_nat end_).

(** [_activation_path_re.sub(_handle_sub, line)] *)
Definition activation_sub (new_path line : list N) : list N :=
  match activation_path_re line with
  | Some (gs, ge, e) => handle_sub new_path (take e line) 0 e gs ge ++ drop e line
  | None => line
  end.

(** The loop over [enumerate(lines)]: the new lines and [changed]. *)
Fixpoint sub_lines (new_path : list N) (lines : list (list N)) : list (list N) * bool :=
  match lines with
  | [] => ([], false)
  | line :: ls =>
      let new_line := activation_sub new_path line in
      let '(ls', changed) := sub_lines new_path ls in
      (new_line :: ls', negb (bool_decide (line = new_line)) || changed)
  end.

(** [update_activation_script] on the decoded text: [Some] the text
    written back when a line changed, [None] when the file is left
    alone. *)
Definition update_activation_text (new_path text : list N) : option (list N) :=
  let '(lines, changed) := sub_lines new_path (split_lines (universal_newlines text)) in
  if changed then Some (concat_lines lines) else None.

(** A line [D VIRTUAL_ENV S <dq>X<dq> W] of a shell dialect [D]. *)
Definition assignment (D : list N) (sep : N) (X W : list N) : list N :=
  D ++ of_string "VIRTUAL_ENV" ++ sep :: DQ :: X ++ DQ :: W.

End Activation.

(* ------------------------------------------------------------------ *)
(** ** [update_script] *)

Module Script.
Import Py.

(** [update_script] on the file's bytes: [Some] the bytes written back,
    [None] when the function returns without writing.  The file is read
    as Latin-1 and written in the locale encoding (UTF-8). *)
Definition update_script (new_path data : string) : option string :=
  match split_lines (universal_newlines (latin1_decode data)) with
  | [] => None
  | l0 :: rest =>
      if negb (startswith "#!" l0) then None else
      match split (strip (slice_from l0 2)) with
      | [] => None
      | a0 :: more =>
          if negb (endswith "/bin/python" a0) || contains "/usr/bin/env python" a0
          then None else
          let new_bin := path_join new_path ["bin"; "python"] in
          if String.eqb new_bin a0 then None else
          Some (utf8_encode
                  (concat_lines (("#!" +:+ join " " (new_bin :: more) +:+ String NL EmptyString)
                                 :: rest)))
      end
  end.

End Script.

(* ------------------------------------------------------------------ *)
(** ** The file system seen from the environment root *)

Module FS.
Import Py.

(** A directory entry.  [Link target stat]: a symbolic link with its
    [os.readlink] string; [stat] is what following it reaches (never a
    link itself), [None] when it dangles.  A directory lists its entries
    in [os.listdir] order, with distinct names. *)
#[warnings="-register-all"]
Inductive node : Type :=
  | File (data : string)
  | Dir (entries : list (string * node))
  | Link (target : string) (stat : option node).

Fixpoint lookup (name : string) (es : list (string * node)) : option node :=
  match es with
  | [] => None
  | (n, d) :: es' => if String.eqb n name then Some d else lookup name es'
  end.

Fixpoint set_entry (name : string) (d : node) (es : list (string * node))
  : list (string * node) :=
  match es with
  | [] => []
  | (n, d') :: es' =>
      if String.eqb n name then (n, d) :: es' else (n, d') :: set_entry name d es'
  end.

Definition names (es : list (string * node)) : list string := map fst es.

(** [os.stat] follows a symbolic link. *)
Definition follow (d : node) : option node :=
  match d with
  | Link _ s => s
  | _ => Some d
  end.

Definition follow_opt (d : option node) : option node :=
  match d with Some x => follow x | None => None end.

Definition isdir (d : option node) : bool :=
  match follow_opt d with Some (Dir _) => true | _ => false end.

Definition isfile (d : option node) : bool :=
  match follow_opt d with Some (File _) => true | _ => false end.

Definition islink (d : option node) : bool :=
  match d with Some (Link _ _) => true | _ => false end.

(** The listing of a directory (through a link); empty otherwise. *)
Definition listdir (d : option node) : list (string * node) :=
  match follow_opt d with Some (Dir es) => es | _ => [] end.

(** A directory (or a link to one) with its listing replaced. *)
Definition with_entries (d : node) (es : list (string * node)) : node :=
  match d with
  | Dir _ => Dir es
  | Link t (Some (Dir _)) => Link t (Some (Dir es))
  | _ => d
  end.

Inductive exn : Type :=
  | IsADirectoryError
  | FileNotFoundError
  | NotADirectoryError
  | UnicodeDecodeError
  | UnicodeEncodeError
  | FileExistsError
  | OSError.

Inductive outcome (A : Type) : Type :=
  | Ok (a : A)
  | Raise (e : exn).
Arguments Ok {A} a.
Arguments Raise {A} e.

(** What the program does to the outside world, in order. *)
Inductive effect : Type :=
  | Print (line : string)
  | WriteFile (path : string)
  | RemoveFile (path : string)
  | MakeSymlink (target path : string)
  | Spawn (args : list string) (env : gmap string string).

(** The process: the entries of the directory the tool runs on, and
    [os.environ]. *)
Record proc : Type := mkProc {
  root : list (string * node);
  environ : gmap string string
}.

(** [open(path)] followed by [read()]: the bytes of a file. *)
Definition read_file (d : node) : outcome string :=
  match follow d with
  | Some (File data) => Ok data
  | Some (Dir _) => Raise IsADirectoryError
  | _ => Raise FileNotFoundError
  end.

(** [open(path, 'w')] followed by a write, on the entry at [path]: a
    link keeps its target string and its snapshot becomes the new file.
    Only this entry changes: other entries that reach the same file (a
    link elsewhere, or the file itself) keep their snapshots.  The
    [Posix] model below resolves paths instead. *)
Definition write_file (d : node) (data : string) : node :=
  match d with
  | Link t (Some (File _)) => Link t (Some (File data))
  | _ => File data
  end.

(** Induction on entries that reaches the entries of a directory. *)
Section NodeInd.
Variable P : node -> Prop.
Hypothesis HFile : forall data, P (File data).
Hypothesis HDir : forall es, Forall (fun ne => P (snd ne)) es -> P (Dir es).
Hypothesis HLink : forall t s, P (Link t s).

Fixpoint node_ind_deep (d : node) : P d :=
  match d with
  | File data => HFile data
  | Dir es =>
      HDir es ((fix go (es : list (string * node)) : Forall (fun ne => P (snd ne)) es :=
                  match es with
                  | [] => List.Forall_nil _
                  | (nm, e) :: es' => @List.Forall_cons _ (fun ne => P (snd ne)) (nm, e) es' (node_ind_deep e) (go es')
                  end) es)
  | Link t s => HLink t s
  end.
End NodeInd.

End FS.

(* ------------------------------------------------------------------ *)
(** ** The stages and the two flows *)

Module Tools.
Import Py FS.

Definition ACTIVATION_SCRIPTS : list string :=
  ["activate"; "activate.csh"; "activate.fish"].

Definition is_activation_script (fn : string) : bool :=
  existsb (String.eqb fn) ACTIVATION_SCRIPTS.

Definition is_digit (c : ascii) : bool :=
  let n := nat_of_ascii c in Nat.leb 48 n && Nat.leb n 57.

Fixpoint skip_digits (s : string) : string :=
  match s with
  | EmptyString => EmptyString
  | String c s' => if is_digit c then skip_digits s' else s
  end.

(** [\d+], greedy: the rest after at least one digit.  A shorter match
    leaves a digit next, which neither [\.] nor [$] accepts, so no
    backtracking is needed. *)
Definition digits1 (s : string) : option string :=
  match s with
  | String c s' => if is_digit c then Some (skip_digits s') else None
  | EmptyString => None
  end.

(** [_pybin_match.match(name)] for [^python\d+\.\d+$] *)
Definition pybin_match (name : string) : bool :=
  match Py.strip_prefix "python" name with
  | Some r =>
      match digits1 r with
      | Some (String c r') =>
          Ascii.eqb c "." &&
          match digits1 r' with Some r'' => Py.dollar r'' | None => false end
      | _ => false
      end
  | None => false
  end.

(** The first name of a listing that matches [_pybin_match]. *)
Fixpoint first_match (l : list string) : option string :=
  match l with
  | [] => None
  | x :: l' => if pybin_match x then Some x else first_match l'
  end.

(** [f.writelines(lines)] on a file opened with [open(path, 'w')]
    (text mode, UTF-8): each line is encoded when it is written; the
    first line that does not encode raises [UnicodeEncodeError], and the
    file, closed on the way out of [with], holds the lines before it.
    The bytes written and how the call ends. *)
Fixpoint write_lines (ls : list (list N)) : list N * outcome unit :=
  match ls with
  | [] => ([], Ok tt)
  | l :: ls' =>
      match Text.encode l with
      | Some b => let '(b', r) := write_lines ls' in (b ++ b', r)
      | None => ([], Raise UnicodeEncodeError)
      end
  end.

(** The body of [update_scripts] for the name [fn] once the file's bytes
    [data] are read: [Ok None] when the file is left alone; [Ok (Some
    (tag, b, r))] when the notice [tag path] is printed and the file,
    opened for writing (which truncates it), ends with the bytes [b],
    after which [r] says whether the write raised. *)
Definition update_data (new_path fn data : string)
  : outcome (option (string * string * outcome unit)) :=
  if is_activation_script fn then
    match Text.utf8_decode data with
    | None => Raise UnicodeDecodeError
    | Some text =>
        let '(lines, changed) :=
          Activation.sub_lines (Text.of_string new_path)
                               (Text.split_lines (Text.universal_newlines text)) in
        if changed then
          let '(b, r) := write_lines lines in Ok (Some ("A ", Text.bytes_to_string b, r))
        else Ok None
    end
  else Ok (option_map (fun b => ("S ", b, Ok tt)) (Script.update_script new_path data)).

(** One iteration of [update_scripts] on the entry [d] of [fn]. *)
Definition update_entry (new_path fn : string) (d : node)
  : outcome (option (string * string * outcome unit)) :=
  match read_file d with
  | Raise e => Raise e
  | Ok data => update_data new_path fn data
  end.

(** [update_scripts(bin_dir, new_path)]: the loop over [os.listdir]. *)
Fixpoint update_scripts (bin_dir new_path : string) (es : list (string * node))
  : outcome unit * list (string * node) * list effect :=
  match es with
  | [] => (Ok tt, [], [])
  | (fn, d) :: es' =>
      let path := path_join bin_dir [fn] in
      match update_entry new_path fn d with
      | Raise e => (Raise e, (fn, d) :: es', [])
      | Ok None =>
          let '(r, es'', l) := update_scripts bin_dir new_path es' in
          (r, (fn, d) :: es'', l)
      | Ok (Some (tag, data, Raise e)) =>
          (Raise e, (fn, write_file d data) :: es', [Print (tag +:+ path); WriteFile path])
      | Ok (Some (tag, data, Ok _)) =>
          let '(r, es'', l) := update_scripts bin_dir new_path es' in
          (r, (fn, write_file d data) :: es'', Print (tag +:+ path) :: WriteFile path :: l)
      end
  end.

Definition is_pyc (filename : string) : bool :=
  endswith ".pyc" filename || endswith ".pyo" filename.

(** [remove_pyc(filename)] *)
Definition remove_pyc (filename : string) : list effect :=
  [Print ("D " +:+ filename); RemoveFile filename].

(** [os.walk] top-down from a directory: the files of the directory
    (entries that [is_dir()] rejects) come in [filenames] and are handled
    first; then the walk goes into each entry of [dirnames] that is not a
    symbolic link.  The result is the directory after the removals, the
    effects on its files, and the effects below. *)
Definition is_dir_entry (d : node) : bool :=
  match follow d with Some (Dir _) => true | _ => false end.

(** The entries of one directory of the walk; [walk] goes into a
    subdirectory. *)
Definition walk_entries (walk : string -> node -> node * list effect) (dirpath : string)
  : list (string * node) -> list (string * node) * list effect * list effect :=
  fix go (es : list (string * node)) :=
    match es with
    | [] => ([], [], [])
    | (nm, e) :: es' =>
        let '(rest, lf, ld) := go es' in
        let path := path_join dirpath [nm] in
        if is_dir_entry e then
          match e with
          | Dir _ => let '(e', l) := walk path e in ((nm, e') :: rest, lf, l ++ ld)
          | _ => ((nm, e) :: rest, lf, ld)
          end
        else if is_pyc nm then (rest, remove_pyc path ++ lf, ld)
        else ((nm, e) :: rest, lf, ld)
    end.

Fixpoint walk_remove (dirpath : string) (d : node) {struct d} : node * list effect :=
  match d with
  | Dir es => let '(es', lf, ld) := walk_entries walk_remove dirpath es in (Dir es', lf ++ ld)
  | _ => (d, [])
  end.

(** [remove_pycs(lib_dir, ...)]: [os.walk] follows a link given as its
    top; a top that is not a directory yields nothing. *)
Definition remove_pycs (lib_dir : string) (d : node) : node * list effect :=
  match d with
  | Dir _ => walk_remove lib_dir d
  | Link t (Some (Dir es)) =>
      let '(d', l) := walk_remove lib_dir (Dir es) in (Link t (Some d'), l)
  | _ => (d, [])
  end.

(** One iteration of [update_local] over the entries of [local/]. *)
Definition update_local_entry (base : string) (rt : list (string * node))
    (es : list (string * node)) (folder : string) : list (string * node) * list effect :=
  let filename := path_join (path_join base ["local"]) [folder] in
  let target := "../" +:+ folder in
  match lookup folder es with
  | Some (Link t _) =>
      if negb (String.eqb t target) then
        (set_entry folder (Link ("../" +:+ folder) (follow_opt (lookup folder rt))) es,
         [RemoveFile filename; MakeSymlink ("../" +:+ folder) filename; Print ("L " +:+ filename)])
      else (es, [])
  | _ => (es, [])
  end.

Definition LOCAL_FOLDERS : list string := ["bin"; "lib"; "include"].

(** [update_local(base, new_path)] on the entries of [base]. *)
Definition update_local (base : string) (rt : list (string * node))
  : list (string * node) * list effect :=
  match lookup "local" rt with
  | Some loc =>
      if isdir (Some loc) then
        let '(es, l) :=
          fold_left (fun '(es, l) folder =>
                       let '(es', l') := update_local_entry base rt es folder in (es', l ++ l'))
                    LOCAL_FOLDERS (listdir (Some loc), []) in
        (set_entry "local" (with_entries loc es) rt, l)
      else (rt, [])
  | None => (rt, [])
  end.

(** [update_paths(base, new_path)], run on [st] whose [root] lists
    [base]. *)
Definition update_paths (base new_path : string) (st : proc) : outcome bool * proc * list effect :=
  if negb (isabs new_path) then
    (Ok false, st, [Print ("error: " +:+ new_path +:+ " is not an absolute path")])
  else
    let rt := root st in
    let bin_dir := path_join base ["bin"] in
    let base_lib_dir := path_join base ["lib"] in
    let lib_name := if isdir (lookup "lib" rt)
                    then first_match (names (listdir (lookup "lib" rt))) else None in
    let fail := (Ok false, st,
                 [Print ("error: " +:+ base +:+ " does not refer to a python installation")]) in
    match lib_name, lookup "lib" rt, lookup "bin" rt with
    | Some name, Some lib, Some bin =>
        if isdir (Some bin) && isfile (lookup "python" (listdir (Some bin))) then
          let lib_dir := path_join base_lib_dir [name] in
          let '(r, bes, l1) := update_scripts bin_dir new_path (listdir (Some bin)) in
          let rt1 := set_entry "bin" (with_entries bin bes) rt in
          match r with
          | Raise e => (Raise e, {| root := rt1; environ := environ st |}, l1)
          | Ok _ =>
              let pyd := match lookup name (listdir (Some lib)) with
                         | Some p => p | None => File EmptyString end in
              let '(pyd', l2) := remove_pycs lib_dir pyd in
              let rt2 := set_entry "lib" (with_entries lib (set_entry name pyd' (listdir (Some lib)))) rt1 in
              let '(rt3, l3) := update_local base rt2 in
              (Ok true, {| root := rt3; environ := environ st |}, l1 ++ l2 ++ l3)
          end
        else fail
    | _, _, _ => fail
    end.

End Tools.

(* ------------------------------------------------------------------ *)
(** ** [reinitialize_virtualenv] *)

Module Reinit.
Import Py FS Tools.

(** The loop that builds [new_env] from [os.environ.items()]. *)
Definition filter_environ (environ : gmap string string) : gmap string string :=
  map_fold (fun key value (new_env : gmap string string) =>
              if startswith "VIRTUALENV_" key then new_env else <[key := value]> new_env)
           ∅ environ.

(** The loop over [os.listdir(lib_dir)] that adds [--distribute]. *)
Fixpoint distribute_flags (args : list string) (filenames : list string) : list string :=
  match filenames with
  | [] => args
  | filename :: fs =>
      distribute_flags
        (if startswith "distribute-" filename && endswith ".egg" filename
         then args ++ ["--distribute"] else args) fs
  end.

(** [reinitialize_virtualenv(path, substitute_python)], run on [st]
    whose [root] lists [path].  [Ok (Some false)] is [return False],
    [Ok None] the implicit [return None]. *)
Definition reinitialize_virtualenv (path substitute_python : string) (st : proc)
  : outcome (option bool) * proc * list effect :=
  let rt := root st in
  if negb (isdir (lookup "lib" rt)) then
    (Ok (Some false), st, [Print ("error: " +:+ path +:+ " is not a virtualenv bin folder")])
  else
    match first_match (names (listdir (lookup "lib" rt))) with
    | None =>
        (Ok (Some false), st,
         [Print ("error: could not detect python version of virtualenv " +:+ path)])
    | Some py_ver =>
        let lib_dir := lookup py_ver (listdir (lookup "lib" rt)) in
        let args := ["virtualenv"; "-p"; substitute_python] in
        let args := if negb (isfile (lookup "no-global-site-packages.txt" (listdir lib_dir)))
                    then args ++ ["--system-site-packages"] else args in
        if negb (isdir lib_dir) then
          (Raise (match follow_opt lib_dir with
                  | Some _ => NotADirectoryError | None => FileNotFoundError end), st, [])
        else
        let args := distribute_flags args (names (listdir lib_dir)) in
        let new_env := filter_environ (environ st) in
        let args := args ++ [path] in
        (Ok None, st, [Spawn args new_env])
    end.

End Reinit.

(* ------------------------------------------------------------------ *)
(** ** [main] *)

Module Main.
Import Py FS Tools Reinit.

(** [if args.x:] on an option [argparse] returns: absent or empty is
    false. *)
Definition truthy (o : option string) : bool :=
  match o with Some (String _ _) => true | _ => false end.

(** The process after the effects of a run: each [Spawn] is
    [subprocess.Popen(args, env=...).wait()], and [run] is what the
    spawned program does to the process. *)
Definition spawned (run : list string -> gmap string string -> proc -> proc)
    (st : proc) (l : list effect) : proc :=
  fold_left (fun st e => match e with Spawn args env => run args env st | _ => st end) l st.

(** [main()] after [parser.parse_args()]: [Ok n] is [sys.exit(n)],
    [Raise] an exception that escapes it. *)
Definition main (run : list string -> gmap string string -> proc -> proc)
    (substitute_python update_path : option string) (st : proc)
  : outcome nat * proc * list effect :=
  let '(r0, st0, l0) :=
    match substitute_python with
    | Some sp =>
        if truthy substitute_python then
          let '(r, st', l) := reinitialize_virtualenv "." sp st in
          (match r with Ok _ => Ok tt | Raise e => Raise e end, spawned run st' l, l)
        else (Ok tt, st, [])
    | None => (Ok tt, st, [])
    end in
  match r0 with
  | Raise e => (Raise e, st0, l0)
  | Ok _ =>
      match update_path with
      | Some up =>
          if truthy update_path then
            let '(r, st1, l1) := update_paths "." up st0 in
            let l := l0 ++ Print ("Update path: " +:+ up) :: l1 in
            match r with
            | Ok b => (Ok (if b then 0 else 1), st1, l)
            | Raise e => (Raise e, st1, l)
            end
          else (Ok 0, st0, l0)
      | None => (Ok 0, st0, l0)
      end
  end.

End Main.

(* ------------------------------------------------------------------ *)
(** ** Views of the state used in the statements *)

Module Views.
Import Py FS Tools.

(** The files [os.walk] reports below a directory, top-down: a
    directory's [filenames] (its entries that are not directories, nor
    links to directories) first, then the files below each of its
    subdirectories; links to directories are not followed.  Each file as
    (name, path, entry). *)
Definition file_entries (dirpath : string) (es : list (string * node))
  : list (string * string * node) :=
  map (fun ne => (fst ne, path_join dirpath [fst ne], snd ne))
      (List.filter (fun ne => negb (is_dir_entry (snd ne))) es).

Definition subdir_files (walk : string -> node -> list (string * string * node)) (dirpath : string)
  : list (string * node) -> list (string * string * node) :=
  fix go (es : list (string * node)) :=
    match es with
    | [] => []
    | (nm, e) :: es' =>
        match e with Dir _ => walk (path_join dirpath [nm]) e | _ => [] end ++ go es'
    end.

Fixpoint walk_files (dirpath : string) (d : node) {struct d} : list (string * string * node) :=
  match d with
  | Dir es => file_entries dirpath es ++ subdir_files walk_files dirpath es
  | _ => []
  end.

(** The lines [list(f)] yields: each but the last ends in its only
    newline; the last one is not empty and may lack it. *)
Inductive lines_shape : list string -> Prop :=
  | ls_nil : lines_shape []
  | ls_last (u : string) : has_char NL u = false -> u <> EmptyString -> lines_shape [u]
  | ls_cons (u : string) (ls : list string) :
      has_char NL u = false -> lines_shape ls -> lines_shape ((u +:+ String NL EmptyString) :: ls).

Definition file_name (f : string * string * node) : string := fst (fst f).
Definition file_path (f : string * string * node) : string := snd (fst f).

(** [\d*] taking the whole string. *)
Fixpoint all_digits (s : string) : bool :=
  match s with
  | EmptyString => true
  | String c s' => is_digit c && all_digits s'
  end.

End Views.

(* ------------------------------------------------------------------ *)
(** ** [update_paths] on a file system with path resolution *)

Module Posix.
Import Py FS Tools.

(** The file system as the kernel keeps it: a directory lists its
    entries, in [os.listdir] order, under distinct names; a symbolic link
    is only its target string. *)
#[warnings="-register-all"]
Inductive node : Type :=
  | File (data : string)
  | Dir (entries : list (string * node))
  | Link (target : string).

Fixpoint lookup (name : string) (es : list (string * node)) : option node :=
  match es with
  | [] => None
  | (n, d) :: es' => if String.eqb n name then Some d else lookup name es'
  end.

(** The entry at a physical path (a list of names from the root, no
    link in it), without resolving anything. *)
Fixpoint get (t : node) (p : list string) : option node :=
  match p with
  | [] => Some t
  | a :: p' =>
      match t with
      | Dir es => match lookup a es with Some c => get c p' | None => None end
      | _ => None
      end
  end.

(** The entry [a] of a listing changed by [f], which gets what is there
    and gives what is left there; a new entry comes last. *)
Fixpoint alter_entry (a : string) (f : option node -> option node) (es : list (string * node))
  : list (string * node) :=
  match es with
  | [] => match f None with Some x => [(a, x)] | None => [] end
  | (n, d) :: es' =>
      if String.eqb n a then
        match f (Some d) with Some x => (n, x) :: es' | None => es' end
      else (n, d) :: alter_entry a f es'
  end.

(** The tree with the entry at the physical path [p] changed by [f];
    nothing changes when the directory that would hold it is missing. *)
Fixpoint alter (t : node) (p : list string) (f : option node -> option node) : node :=
  match p, t with
  | a :: p', Dir es =>
      Dir (alter_entry a (fun o => match p' with
                                   | [] => f o
                                   | _ => option_map (fun c => alter c p' f) o
                                   end) es)
  | _, _ => t
  end.

(** What the kernel keeps true of every directory: its entries have
    distinct names. *)
Fixpoint wf (t : node) : Prop :=
  match t with
  | Dir es =>
      NoDup (map fst es) /\
      (fix go (es : list (string * node)) : Prop :=
         match es with
         | [] => True
         | (_, c) :: es' => wf c /\ go es'
         end) es
  | _ => True
  end.

(** A name a directory can hold: not empty, not [.] or [..], no [/]. *)
Definition valid_name (n : string) : bool :=
  negb (String.eqb n "" || String.eqb n "." || String.eqb n "..") && negb (has_char "/" n).

(** An entry of [bin/] that is a regular file (not a link) under a
    valid name that does not end in [.pyc] or [.pyo]. *)
Definition plain_script (ne : string * node) : bool :=
  valid_name (fst ne) && negb (is_pyc (fst ne)) &&
  match snd ne with File _ => true | _ => false end.

(** The components of a path string, split at every [/]: [a//b] gives
    [a], [], [b] and [/a] gives [], [a]. *)
Fixpoint split_slash (s : string) : list string :=
  match s with
  | EmptyString => [EmptyString]
  | String c s' =>
      let r := split_slash s' in
      if Ascii.eqb c "/" then EmptyString :: r
      else match r with
           | x :: r' => String c x :: r'
           | [] => [String c EmptyString]
           end
  end.

(** Where resolution starts: the root for an absolute path, the
    directory [cur] otherwise. *)
Definition start (cur : list string) (path : string) : list string :=
  if startswith "/" path then [] else cur.

(** One pass of path resolution ([path_resolution(7)]) over the
    components [comps], from the directory at the physical path [cur].
    Empty components and [.] stay; [..] goes to the parent (the root is
    its own parent).  A link met before the last component, or as the
    last one when [follow] is set, hands its target's components and the
    remaining ones to [jump], from the root for an absolute target and
    from the link's directory otherwise.  The result is the physical path
    of the entry named, which may be missing. *)
Fixpoint resolve_go (jump : list string -> list string -> outcome (list string))
    (t : node) (follow : bool) (cur : list string) (comps : list string)
    : outcome (list string) :=
  match comps with
  | [] => Ok cur
  | c :: rest =>
      if String.eqb c "" || String.eqb c "." then resolve_go jump t follow cur rest
      else if String.eqb c ".." then resolve_go jump t follow (removelast cur) rest
      else
        match get t (cur ++ [c]), rest with
        | Some (Link tg), [] =>
            if follow then jump (start cur tg) (split_slash tg) else Ok (cur ++ [c])
        | Some (Link tg), _ => jump (start cur tg) (split_slash tg ++ rest)
        | Some (Dir _), _ => resolve_go jump t follow (cur ++ [c]) rest
        | Some (File _), [] => Ok (cur ++ [c])
        | Some (File _), _ => Raise NotADirectoryError
        | None, [] => Ok (cur ++ [c])
        | None, _ => Raise FileNotFoundError
        end
  end.

(** Resolution following at most [links] links; one more raises
    [ELOOP] ([OSError]). *)
Fixpoint resolve (links : nat) (t : node) (follow : bool) (cur : list string)
    (comps : list string) : outcome (list string) :=
  resolve_go (fun cur' comps' =>
                match links with
                | O => Raise OSError
                | S l => resolve l t follow cur' comps'
                end) t follow cur comps.

(** [MAXSYMLINKS] of Linux. *)
Definition MAXSYMLINKS : nat := 40.

(** The process: the tree from the root and the physical path of the
    working directory. *)
Record state : Type := mkState {
  fs : node;
  cwd : list string
}.

(** The physical path a path string names in [s], through its last
    component when [follow] is set ([stat]) and not otherwise
    ([lstat]). *)
Definition locate (follow : bool) (s : state) (path : string) : outcome (list string) :=
  resolve MAXSYMLINKS (fs s) follow (start (cwd s) path) (split_slash path).

(** The program's computations: on a state, how they end, the state
    after them, and the lines printed. *)
Definition M (A : Type) : Type := state -> outcome A * state * list string.

Global Instance M_ret : MRet M := fun A x s => (Ok x, s, []).
Global Instance M_bind : MBind M := fun A B k m s =>
  match m s with
  | (Ok x, s1, o1) => let '(r, s2, o2) := k x s1 in (r, s2, o1 ++ o2)
  | (Raise e, s1, o1) => (Raise e, s1, o1)
  end.

(** [pass] *)
Definition skip : M unit := fun s => (Ok tt, s, []).

Definition raise {A : Type} (e : exn) : M A := fun s => (Raise e, s, []).

Definition lift (r : outcome unit) : M unit := fun s => (r, s, []).

Definition print (line : string) : M unit := fun s => (Ok tt, s, [line]).

Definition query {A : Type} (f : state -> A) : M A := fun s => (Ok (f s), s, []).

(** [for x in l: body(x)] *)
Fixpoint for_each {A : Type} (l : list A) (body : A -> M unit) : M unit :=
  match l with
  | [] => skip
  | x :: l' => body x ;; for_each l' body
  end.

(** [os.stat] and [os.lstat] reduced to what the program asks of them:
    the entry reached, [None] when the call raises. *)
Definition stat_at (follow : bool) (s : state) (path : string) : option node :=
  match locate follow s path with
  | Ok p => get (fs s) p
  | Raise _ => None
  end.

(** [os.path.isdir], [os.path.isfile], [os.path.islink] *)
Definition isdir (path : string) : M bool :=
  query (fun s => match stat_at true s path with Some (Dir _) => true | _ => false end).

Definition isfile (path : string) : M bool :=
  query (fun s => match stat_at true s path with Some (File _) => true | _ => false end).

Definition islink (path : string) : M bool :=
  query (fun s => match stat_at false s path with Some (Link _) => true | _ => false end).

(** [os.readlink] *)
Definition readlink (path : string) : M string := fun s =>
  match locate false s path with
  | Ok p =>
      match get (fs s) p with
      | Some (Link tg) => (Ok tg, s, [])
      | Some _ => (Raise OSError, s, [])
      | None => (Raise FileNotFoundError, s, [])
      end
  | Raise e => (Raise e, s, [])
  end.

(** [os.listdir] *)
Definition listdir (path : string) : M (list string) := fun s =>
  match locate true s path with
  | Ok p =>
      match get (fs s) p with
      | Some (Dir es) => (Ok (map fst es), s, [])
      | Some (File _) => (Raise NotADirectoryError, s, [])
      | Some (Link _) => (Raise OSError, s, [])
      | None => (Raise FileNotFoundError, s, [])
      end
  | Raise e => (Raise e, s, [])
  end.

(** [open(path)] and reading it whole: its bytes. *)
Definition read_file (path : string) : M string := fun s =>
  match locate true s path with
  | Ok p =>
      match get (fs s) p with
      | Some (File data) => (Ok data, s, [])
      | Some (Dir _) => (Raise IsADirectoryError, s, [])
      | Some (Link _) => (Raise OSError, s, [])
      | None => (Raise FileNotFoundError, s, [])
      end
  | Raise e => (Raise e, s, [])
  end.

(** [open(path, 'w')], writing, and closing: the file reached (created
    when missing) holds [data]. *)
Definition write_file (path data : string) : M unit := fun s =>
  match locate true s path with
  | Ok p =>
      match get (fs s) p with
      | Some (Dir _) => (Raise IsADirectoryError, s, [])
      | Some (Link _) => (Raise OSError, s, [])
      | _ => (Ok tt, {| fs := alter (fs s) p (fun _ => Some (File data)); cwd := cwd s |}, [])
      end
  | Raise e => (Raise e, s, [])
  end.

(** [os.remove]: unlinks the entry itself, a link rather than what it
    reaches. *)
Definition remove (path : string) : M unit := fun s =>
  match locate false s path with
  | Ok p =>
      match get (fs s) p with
      | Some (Dir _) => (Raise IsADirectoryError, s, [])
      | Some _ => (Ok tt, {| fs := alter (fs s) p (fun _ => None); cwd := cwd s |}, [])
      | None => (Raise FileNotFoundError, s, [])
      end
  | Raise e => (Raise e, s, [])
  end.

(** [os.symlink(target, path)] *)
Definition symlink (target path : string) : M unit := fun s =>
  match locate false s path with
  | Ok p =>
      match get (fs s) p with
      | Some _ => (Raise FileExistsError, s, [])
      | None => (Ok tt, {| fs := alter (fs s) p (fun _ => Some (Link target)); cwd := cwd s |}, [])
      end
  | Raise e => (Raise e, s, [])
  end.

(** [update_scripts(bin_dir, new_path)] *)
Definition update_file (new_path path fn : string) : M unit :=
  read_file path ≫= fun data : string =>
  match update_data new_path fn data with
  | Raise e => raise e
  | Ok None => skip
  | Ok (Some (tag, b, r)) => print (tag +:+ path) ;; write_file path b ;; lift r
  end.

Definition update_scripts (bin_dir new_path : string) : M unit :=
  listdir bin_dir ≫= fun fns : list string =>
  for_each fns (fun fn => update_file new_path (path_join bin_dir [fn]) fn).

(** [os.walk(top)] (topdown, no [onerror], links to directories not
    followed) with the body of [remove_pycs] run at each directory it
    yields.  [os.scandir(top)] lists the entries; [DirEntry.is_dir()]
    sorts them at that time, through a link with [os.stat].  A [top]
    that cannot be listed yields nothing.  After the body ran, each
    entry of [dirnames] that [os.path.islink] rejects is walked. *)
Definition scan (top : string) : M (option (list string * list string)) :=
  query (fun s =>
    match stat_at true s top with
    | Some (Dir es) =>
        let is_dir '(n, d) :=
          match d with
          | Dir _ => true
          | File _ => false
          | Link _ => match stat_at true s (path_join top [n]) with
                      | Some (Dir _) => true | _ => false end
          end in
        Some (map fst (List.filter is_dir es),
              map fst (List.filter (fun e => negb (is_dir e)) es))
    | _ => None
    end).

(** [remove_pyc(filename)] *)
Definition remove_pyc (filename : string) : M unit :=
  print ("D " +:+ filename) ;; remove filename.

Fixpoint walk_remove (fuel : nat) (top : string) : M unit :=
  match fuel with
  | O => skip
  | S fuel' =>
      scan top ≫= fun sc : option (list string * list string) =>
      match sc with
      | None => skip
      | Some (dirnames, filenames) =>
          for_each filenames (fun filename =>
            if is_pyc filename then remove_pyc (path_join top [filename]) else skip) ;;
          for_each dirnames (fun d =>
            let new_path := path_join top [d] in
            islink new_path ≫= fun l : bool =>
            if l then skip else walk_remove fuel' new_path)
      end
  end.

(** The height of the tree: the walk goes one level down at each step
    and never through a link, so [height + 1] steps reach every
    directory. *)
Fixpoint height (t : node) : nat :=
  match t with
  | Dir es =>
      S ((fix go (es : list (string * node)) : nat :=
            match es with
            | [] => 0
            | (_, c) :: es' => Nat.max (height c) (go es')
            end) es)
  | _ => 0
  end.

(** [remove_pycs(lib_dir, new_path, lib_name)] *)
Definition remove_pycs (lib_dir : string) : M unit := fun s =>
  walk_remove (S (height (fs s))) lib_dir s.

(** [update_local(base, new_path)] *)
Definition update_local (base : string) : M unit :=
  let local_dir := path_join base ["local"] in
  isdir local_dir ≫= fun d : bool =>
  if negb d then skip else
  for_each LOCAL_FOLDERS (fun folder =>
    let filename := path_join local_dir [folder] in
    let target := "../" +:+ folder in
    islink filename ≫= fun l : bool =>
    if l then
      readlink filename ≫= fun t : string =>
      if negb (String.eqb t target) then
        remove filename ;;
        symlink ("../" +:+ folder) filename ;;
        print ("L " +:+ filename)
      else skip
    else skip).

(** [update_paths(base, new_path)] *)
Definition update_paths (base new_path : string) : M bool :=
  if negb (isabs new_path) then
    print ("error: " +:+ new_path +:+ " is not an absolute path") ;; mret false
  else
    let bin_dir := path_join base ["bin"] in
    let base_lib_dir := path_join base ["lib"] in
    let fail := print ("error: " +:+ base +:+ " does not refer to a python installation") ;;
                mret false in
    isdir base_lib_dir ≫= fun dl : bool =>
    (if dl then listdir base_lib_dir ≫= fun fs : list string => mret (first_match fs) else mret None)
    ≫= fun lib_name : option string =>
    match lib_name with
    | None => fail
    | Some name =>
        isdir bin_dir ≫= fun db : bool =>
        if negb db then fail else
        isfile (path_join bin_dir ["python"]) ≫= fun fp : bool =>
        if negb fp then fail else
        update_scripts bin_dir new_path ;;
        remove_pycs (path_join base_lib_dir [name]) ;;
        update_local base ;;
        mret true
    end.

End Posix.

(* ================================================================== *)
(** * Properties *)

Module PyFacts.
Import Py.

Lemma append_assoc_s (a b c : string) : (a +:+ b) +:+ c = a +:+ (b +:+ c).
Proof. induction a as [|x a IH]; simpl; [reflexivity | now rewrite IH]. Qed.

Lemma append_empty_r (a : string) : a +:+ EmptyString = a.
Proof. induction a as [|x a IH]; simpl; [reflexivity | now rewrite IH]. Qed.

Lemma length_app (a b : string) :
  String.length (a +:+ b) = String.length a + String.length b.
Proof. induction a as [|x a IH]; simpl; [reflexivity | now rewrite IH]. Qed.

Lemma substring_prefix (a b : string) : String.substring 0 (String.length a) (a +:+ b) = a.
Proof. induction a as [|x a IH]; simpl; [now destruct b | now rewrite IH]. Qed.

Lemma substring_skip (a b : string) (n m : nat) :
  String.substring (String.length a + n) m (a +:+ b) = String.substring n m b.
Proof. induction a as [|x a IH]; simpl; [reflexivity | exact IH]. Qed.

Lemma substring_all (s : string) : String.substring 0 (String.length s) s = s.
Proof. induction s as [|x s IH]; simpl; [reflexivity | now rewrite IH]. Qed.

Lemma substring_zero (n : nat) (s : string) : String.substring n 0 s = EmptyString.
Proof.
  revert s; induction n as [|n IH]; intros [|x s]; simpl; auto.
Qed.

Lemma append_cancel_r (a b c : string) : a +:+ c = b +:+ c -> a = b.
Proof.
  revert b; induction a as [|x a IH]; intros [|y b] H; simpl in *.
  - reflexivity.
  - exfalso. assert (Hl := f_equal String.length H). simpl in Hl.
    rewrite length_app in Hl. lia.
  - exfalso. assert (Hl := f_equal String.length H). simpl in Hl.
    rewrite length_app in Hl. lia.
  - injection H as -> H. now rewrite (IH b H).
Qed.

Lemma concat_lines_app (l1 l2 : list string) :
  concat_lines (l1 ++ l2) = concat_lines l1 +:+ concat_lines l2.
Proof.
  induction l1 as [|x l1 IH]; simpl; [reflexivity|].
  now rewrite IH, append_assoc_s.
Qed.

Lemma rstrip_app_nonspace (a b : string) (c : ascii) :
  is_space c = false -> rstrip (a +:+ String c b) = a +:+ String c (rstrip b).
Proof.
  intros Hc. induction a as [|x a IH].
  - cbn [String.append rstrip]. now rewrite Hc, andb_false_r.
  - cbn [String.append rstrip]. rewrite IH.
    assert (Hne : String.eqb (a +:+ String c (rstrip b)) EmptyString = false)
      by (destruct a; reflexivity).
    now rewrite Hne.
Qed.

Lemma split_go_token (w r : string) (c : ascii) :
  no_space w = true -> is_space c = true -> fst (split_go (w +:+ String c r)) = w.
Proof.
  intros Hw Hc. induction w as [|x w IH].
  - cbn [String.append split_go]. destruct (split_go r). now rewrite Hc.
  - cbn [no_space] in Hw. apply andb_prop in Hw as [Hx Hw].
    apply negb_true_iff in Hx.
    cbn [String.append split_go]. specialize (IH Hw).
    destruct (split_go (w +:+ String c r)) as [tok rest]. cbn in IH |- *.
    rewrite Hx. cbn. now rewrite IH.
Qed.

Lemma split_first_token (w r : string) (c : ascii) :
  w <> EmptyString -> no_space w = true -> is_space c = true ->
  exists more, split (w +:+ String c r) = w :: more.
Proof.
  intros Hne Hw Hc. assert (Ht := split_go_token w r c Hw Hc).
  unfold split. destruct (split_go (w +:+ String c r)) as [tok rest].
  cbn in Ht. subst tok. destruct (String.eqb w EmptyString) eqn:E.
  - apply String.eqb_eq in E. contradiction.
  - now exists rest.
Qed.

Lemma slice_from_2 (a b : string) :
  String.length a = 2 -> slice_from (a +:+ b) 2 = b.
Proof.
  intros Ha. destruct a as [|x [|y [|z a]]]; try discriminate.
  unfold slice_from, slice_index. cbn [String.append String.length Z.ltb Z.compare].
  replace (Nat.min (S (S (String.length b))) (Z.to_nat 2)) with 2 by lia.
  replace (S (S (String.length b)) - 2) with (String.length b) by lia.
  apply substring_all.
Qed.

End PyFacts.

(* ------------------------------------------------------------------ *)
(** ** Text: encodings, newlines, lines and tokens *)

Module TextFacts.
Import Py Views PyFacts.

Lemma has_char_app (c : ascii) (a b : string) :
  has_char c (a +:+ b) = has_char c a || has_char c b.
Proof. induction a as [|x a IH]; cbn [String.append has_char]; [reflexivity|]. now rewrite IH, orb_assoc. Qed.

Lemma is_ascii_app (a b : string) : is_ascii (a +:+ b) = is_ascii a && is_ascii b.
Proof. induction a as [|x a IH]; cbn [String.append is_ascii]; [reflexivity|]. now rewrite IH, andb_assoc. Qed.

Lemma no_space_app (a b : string) : no_space (a +:+ b) = no_space a && no_space b.
Proof. induction a as [|x a IH]; cbn [String.append no_space]; [reflexivity|]. now rewrite IH, andb_assoc. Qed.

Lemma utf8_encode_app (a b : string) : utf8_encode (a +:+ b) = utf8_encode a +:+ utf8_encode b.
Proof. induction a as [|x a IH]; cbn [String.append utf8_encode]; [reflexivity|]. now rewrite IH, append_assoc_s. Qed.

Lemma utf8_encode_ascii (s : string) : is_ascii s = true -> utf8_encode s = s.
Proof.
  induction s as [|c s IH]; intros H; [reflexivity|].
  cbn [is_ascii] in H. apply andb_prop in H as [Hc Hs].
  cbn [utf8_encode]. unfold utf8_encode_char. rewrite Hc. cbn [String.append]. now rewrite IH.
Qed.

Lemma universal_newlines_no_CR (s : string) :
  has_char CR s = false -> universal_newlines s = s.
Proof.
  induction s as [|c s IH]; intros H; [reflexivity|].
  cbn [has_char] in H. apply orb_false_elim in H as [Hc Hs].
  cbn [universal_newlines]. rewrite Ascii.eqb_sym, Hc. now rewrite IH.
Qed.

Lemma universal_newlines_app (a b : string) :
  has_char CR a = false -> universal_newlines (a +:+ b) = a +:+ universal_newlines b.
Proof.
  induction a as [|c a IH]; intros H; [reflexivity|].
  cbn [has_char] in H. apply orb_false_elim in H as [Hc Hs].
  cbn [String.append universal_newlines]. rewrite Ascii.eqb_sym, Hc. now rewrite IH.
Qed.

Lemma universal_newlines_CR_free (s : string) : has_char CR (universal_newlines s) = false.
Proof.
  revert s. fix IH 1. intros [|c s]; [reflexivity|].
  assert (Hs := IH s).
  cbn [universal_newlines]. destruct (Ascii.eqb c CR) eqn:Ec.
  - destruct s as [|d s]; [reflexivity|].
    destruct (Ascii.eqb d NL); cbn [has_char].
    + rewrite (IH s). reflexivity.
    + rewrite Hs. reflexivity.
  - cbn [has_char]. rewrite Hs, orb_false_r, Ascii.eqb_sym. exact Ec.
Qed.

Lemma is_ascii_universal_newlines (s : string) :
  is_ascii s = true -> is_ascii (universal_newlines s) = true.
Proof.
  revert s. fix IH 1. intros [|c s] H; [reflexivity|].
  cbn [is_ascii] in H. apply andb_prop in H as [Hc Hs].
  assert (Hu := IH s Hs).
  cbn [universal_newlines]. destruct (Ascii.eqb c CR).
  - destruct s as [|d s]; [reflexivity|].
    cbn [is_ascii] in Hs. apply andb_prop in Hs as [Hd Hs'].
    destruct (Ascii.eqb d NL); cbn [is_ascii].
    + now rewrite (IH s Hs').
    + now rewrite Hu.
  - cbn [is_ascii]. now rewrite Hc, Hu.
Qed.

Lemma concat_split_lines (s : string) : concat_lines (split_lines s) = s.
Proof.
  induction s as [|c s IH]; [reflexivity|].
  cbn [split_lines]. destruct (Ascii.eqb c NL) eqn:E.
  - apply Ascii.eqb_eq in E as ->. cbn [concat_lines String.append]. now rewrite IH.
  - destruct (split_lines s) as [|l ls] eqn:Hs; cbn [concat_lines String.append] in *.
    + now rewrite <- IH.
    + now rewrite IH.
Qed.

Lemma split_lines_line (u r : string) :
  has_char NL u = false ->
  split_lines (u +:+ String NL r) = (u +:+ String NL EmptyString) :: split_lines r.
Proof.
  induction u as [|c u IH]; intros H; [reflexivity|].
  cbn [has_char] in H. apply orb_false_elim in H as [Hc Hu].
  cbn [String.append split_lines]. rewrite Ascii.eqb_sym, Hc, (IH Hu). reflexivity.
Qed.

Lemma split_lines_last (u : string) :
  has_char NL u = false -> u <> EmptyString -> split_lines u = [u].
Proof.
  induction u as [|c u IH]; intros H Hne; [congruence|].
  cbn [has_char] in H. apply orb_false_elim in H as [Hc Hu].
  cbn [split_lines]. rewrite Ascii.eqb_sym, Hc.
  destruct u as [|d u]; [reflexivity|]. rewrite (IH Hu ltac:(discriminate)). reflexivity.
Qed.

Lemma split_lines_prefix (a s h : string) (t : list string) :
  has_char NL a = false -> split_lines s = h :: t -> split_lines (a +:+ s) = (a +:+ h) :: t.
Proof.
  induction a as [|c a IH]; intros Ha Hs; [exact Hs|].
  cbn [has_char] in Ha. apply orb_false_elim in Ha as [Hc Ha].
  cbn [String.append split_lines]. rewrite Ascii.eqb_sym, Hc, (IH Ha Hs). reflexivity.
Qed.

Lemma lines_shape_split_lines (s : string) : lines_shape (split_lines s).
Proof.
  induction s as [|c s IH]; [constructor|].
  cbn [split_lines]. destruct (Ascii.eqb c NL) eqn:E.
  - apply (ls_cons EmptyString); [reflexivity | exact IH].
  - inversion IH as [Hn|u Hu Hne Hn|u ls Hu Hls Hn].
    + apply ls_last; [cbn [has_char]; now rewrite Ascii.eqb_sym, E | discriminate].
    + apply ls_last; [cbn [has_char]; now rewrite Ascii.eqb_sym, E, Hu | discriminate].
    + apply (ls_cons (String c u)); [cbn [has_char]; now rewrite Ascii.eqb_sym, E, Hu | exact Hls].
Qed.

Lemma split_lines_concat (ls : list string) : lines_shape ls -> split_lines (concat_lines ls) = ls.
Proof.
  induction 1 as [|u Hu Hne|u ls Hu Hls IH].
  - reflexivity.
  - cbn [concat_lines]. rewrite append_empty_r. now apply split_lines_last.
  - cbn [concat_lines]. rewrite append_assoc_s. cbn [String.append].
    rewrite split_lines_line by exact Hu. now rewrite IH.
Qed.

Lemma has_char_concat_lines (c : ascii) (ls : list string) :
  has_char c (concat_lines ls) = existsb (has_char c) ls.
Proof.
  induction ls as [|l ls IH]; [reflexivity|].
  cbn [concat_lines existsb]. now rewrite has_char_app, IH.
Qed.

Lemma is_ascii_concat_lines (ls : list string) :
  is_ascii (concat_lines ls) = forallb is_ascii ls.
Proof.
  induction ls as [|l ls IH]; [reflexivity|].
  cbn [concat_lines forallb]. now rewrite is_ascii_app, IH.
Qed.

(** Tokens of [split()]. *)
Lemma split_go_no_space (w : string) : no_space w = true -> split_go w = (w, []).
Proof.
  induction w as [|c w IH]; intros H; [reflexivity|].
  cbn [no_space] in H. apply andb_prop in H as [Hc Hw]. apply negb_true_iff in Hc.
  cbn [split_go]. rewrite (IH Hw), Hc. reflexivity.
Qed.

Lemma split_head (w t : string) :
  w <> EmptyString -> no_space w = true ->
  (t = EmptyString \/ exists c r, t = String c r /\ is_space c = true) ->
  exists more, split (w +:+ t) = w :: more.
Proof.
  intros Hne Hw [->|(c & r & -> & Hc)].
  - exists []. rewrite append_empty_r. unfold split. rewrite (split_go_no_space w Hw).
    destruct (String.eqb w EmptyString) eqn:E; [apply String.eqb_eq in E; contradiction | reflexivity].
  - now apply split_first_token.
Qed.

Lemma is_ascii_lstrip (s : string) : is_ascii s = true -> is_ascii (lstrip s) = true.
Proof.
  induction s as [|c s IH]; intros H; [reflexivity|].
  cbn [lstrip]. destruct (is_space c); [|exact H].
  apply IH. cbn [is_ascii] in H. now apply andb_prop in H as [_ H].
Qed.

Lemma is_ascii_rstrip (s : string) : is_ascii s = true -> is_ascii (rstrip s) = true.
Proof.
  induction s as [|c s IH]; intros H; [reflexivity|].
  cbn [is_ascii] in H. apply andb_prop in H as [Hc Hs].
  cbn [rstrip]. destruct (String.eqb (rstrip s) EmptyString && is_space c); [reflexivity|].
  cbn [is_ascii]. now rewrite Hc, (IH Hs).
Qed.

Lemma is_ascii_substring (n m : nat) (s : string) :
  is_ascii s = true -> is_ascii (String.substring n m s) = true.
Proof.
  revert n m; induction s as [|c s IH]; intros n m H; [destruct n, m; reflexivity|].
  cbn [is_ascii] in H. apply andb_prop in H as [Hc Hs].
  destruct n as [|n]; cbn [String.substring].
  - destruct m as [|m]; [reflexivity|]. cbn [is_ascii]. now rewrite Hc, IH.
  - now apply IH.
Qed.

Lemma is_ascii_split_go (s : string) :
  is_ascii s = true -> is_ascii (fst (split_go s)) = true /\ forallb is_ascii (snd (split_go s)) = true.
Proof.
  induction s as [|c s IH]; intros H; [split; reflexivity|].
  cbn [is_ascii] in H. apply andb_prop in H as [Hc Hs].
  destruct (IH Hs) as [H1 H2]. cbn [split_go].
  destruct (split_go s) as [tok rest]. cbn [fst snd] in *.
  destruct (is_space c).
  - split; [reflexivity|]. destruct (String.eqb tok EmptyString); [exact H2|].
    cbn [snd forallb]. now rewrite H1, H2.
  - cbn [fst snd is_ascii]. now rewrite Hc, H1, H2.
Qed.

Lemma is_ascii_split (s : string) : is_ascii s = true -> forallb is_ascii (split s) = true.
Proof.
  intros H. destruct (is_ascii_split_go s H) as [H1 H2]. unfold split.
  destruct (split_go s) as [tok rest]. cbn [fst snd] in *.
  destruct (String.eqb tok EmptyString); [exact H2|]. cbn [forallb]. now rewrite H1, H2.
Qed.

Lemma is_ascii_join (sep : string) (ts : list string) :
  is_ascii sep = true -> forallb is_ascii ts = true -> is_ascii (join sep ts) = true.
Proof.
  intros Hs. induction ts as [|t ts IH]; intros H; [reflexivity|].
  cbn [forallb] in H. apply andb_prop in H as [Ht Hts].
  destruct ts as [|t' ts]; [exact Ht|].
  change (join sep (t :: t' :: ts)) with (t +:+ sep +:+ join sep (t' :: ts)).
  rewrite !is_ascii_app, Ht, Hs, (IH Hts). reflexivity.
Qed.

Lemma startswith_app (p s : string) : startswith p (p +:+ s) = true.
Proof.
  unfold startswith. induction p as [|c p IH]; [now destruct s|].
  cbn [String.append String.prefix]. destruct (ascii_dec c c); [exact IH | contradiction].
Qed.

Lemma is_ascii_join2 (a b : string) :
  is_ascii a = true -> is_ascii b = true -> is_ascii (join2 a b) = true.
Proof.
  intros Ha Hb. unfold join2. destruct (startswith "/" b); [exact Hb|].
  destruct (_ || _); rewrite !is_ascii_app, Ha, Hb; reflexivity.
Qed.

Lemma is_ascii_path_join (a : string) (p : list string) :
  is_ascii a = true -> forallb is_ascii p = true -> is_ascii (path_join a p) = true.
Proof.
  unfold path_join. revert a; induction p as [|b p IH]; intros a Ha Hp; [exact Ha|].
  cbn [forallb] in Hp. apply andb_prop in Hp as [Hb Hp]. cbn [fold_left].
  apply IH; [now apply is_ascii_join2 | exact Hp].
Qed.

(** [path_join P ['bin', 'python']] for a non-empty [P]. *)
Lemma path_join_bin_python (P : string) :
  P <> EmptyString ->
  exists suf, path_join P ["bin"; "python"] = P +:+ suf +:+ "n" /\
              no_space (suf +:+ "n") = true /\ is_ascii (suf +:+ "n") = true.
Proof.
  intros Hne. unfold path_join. cbn [fold_left]. unfold join2 at 2.
  assert (Hs1 : startswith "/" "bin" = false) by reflexivity. rewrite Hs1.
  assert (HP : String.eqb P EmptyString = false)
    by (destruct (String.eqb P EmptyString) eqn:E; [apply String.eqb_eq in E; contradiction | reflexivity]).
  rewrite HP. cbn [orb].
  assert (Hs2 : startswith "/" "python" = false) by reflexivity.
  destruct (endswith "/" P); unfold join2; rewrite Hs2.
  - assert (H2 : String.eqb (P +:+ "bin") EmptyString = false) by (destruct P; [congruence | reflexivity]).
    rewrite H2. cbn [orb].
    destruct (endswith "/" (P +:+ "bin")).
    + exists "binpytho". rewrite !append_assoc_s. split; [reflexivity | split; reflexivity].
    + exists "bin/pytho". rewrite !append_assoc_s. split; [reflexivity | split; reflexivity].
  - assert (H2 : String.eqb (P +:+ "/" +:+ "bin") EmptyString = false) by (destruct P; [congruence | reflexivity]).
    rewrite H2. cbn [orb].
    destruct (endswith "/" (P +:+ "/" +:+ "bin")).
    + exists "/binpytho". rewrite !append_assoc_s. split; [reflexivity | split; reflexivity].
    + exists "/bin/pytho". rewrite !append_assoc_s. split; [reflexivity | split; reflexivity].
Qed.

End TextFacts.


Module CodecFacts.
Import Text.
Open Scope N_scope.

Ltac tt := first [ rewrite (proj2 (N.ltb_lt _ _)) by lia | rewrite (proj2 (N.ltb_ge _ _)) by lia
                 | rewrite (proj2 (N.leb_le _ _)) by lia | rewrite (proj2 (N.leb_gt _ _)) by lia
                 | rewrite (proj2 (N.eqb_eq _ _)) by lia | rewrite (proj2 (N.eqb_neq _ _)) by lia ].

Ltac bool_facts :=
  repeat match goal with
  | E : (_ && _) = true |- _ => apply andb_prop in E as [? ?]
  | E : (_ <? _) = true |- _ => apply N.ltb_lt in E
  | E : (_ <? _) = false |- _ => apply N.ltb_ge in E
  | E : (_ <=? _) = true |- _ => apply N.leb_le in E
  | E : (_ <=? _) = false |- _ => apply N.leb_gt in E
  | E : (_ =? _) = true |- _ => apply N.eqb_eq in E
  | E : (_ =? _) = false |- _ => apply N.eqb_neq in E
  end.

Lemma decode_1 (b0 : N) (r : list N) :
  b0 < 128 -> decode (b0 :: r) = option_map (cons b0) (decode r).
Proof. intros. cbn [decode]. tt. reflexivity. Qed.

Lemma decode_2 (b0 b1 : N) (r : list N) :
  194 <= b0 <= 223 -> 128 <= b1 <= 191 ->
  decode (b0 :: b1 :: r) = option_map (cons ((b0 - 192) * 64 + (b1 - 128))) (decode r).
Proof. intros. cbn [decode]. tt. do 2 tt. cbn [andb]. unfold cont. do 2 tt. reflexivity. Qed.

Lemma decode_3 (b0 b1 b2 : N) (r : list N) :
  224 <= b0 <= 239 -> (if b0 =? 224 then 160 else 128) <= b1 <= (if b0 =? 237 then 159 else 191) ->
  128 <= b2 <= 191 ->
  decode (b0 :: b1 :: b2 :: r)
  = option_map (cons ((b0 - 224) * 4096 + (b1 - 128) * 64 + (b2 - 128))) (decode r).
Proof.
  intros. cbn [decode]. tt. do 2 tt. cbn [andb]. do 2 tt. cbn [andb]. unfold cont.
  destruct (b0 =? 224), (b0 =? 237); repeat tt; reflexivity.
Qed.

Lemma decode_4 (b0 b1 b2 b3 : N) (r : list N) :
  240 <= b0 <= 244 -> (if b0 =? 240 then 144 else 128) <= b1 <= (if b0 =? 244 then 143 else 191) ->
  128 <= b2 <= 191 -> 128 <= b3 <= 191 ->
  decode (b0 :: b1 :: b2 :: b3 :: r) =
  option_map (cons ((b0 - 240) * 262144 + (b1 - 128) * 4096 + (b2 - 128) * 64 + (b3 - 128))) (decode r).
Proof.
  intros. cbn [decode]. tt. do 2 tt. cbn [andb]. do 2 tt. cbn [andb]. do 2 tt. cbn [andb]. unfold cont.
  destruct (b0 =? 240), (b0 =? 244); repeat tt; reflexivity.
Qed.

(** Encoding a code point gives bytes that decode back to it. *)
Lemma decode_encode_char (c : N) (r : list N) :
  scalar c ->
  exists b, encode_char c = Some b /\ Forall (fun x => x < 256) b /\
            decode (b ++ r) = option_map (cons c) (decode r).
Proof.
  intros [H1 H2]. unfold encode_char.
  pose proof (N.div_mod c 64 ltac:(lia)) as E0. pose proof (N.mod_lt c 64 ltac:(lia)) as L0.
  pose proof (N.div_mod (c / 64) 64 ltac:(lia)) as E1. pose proof (N.mod_lt (c / 64) 64 ltac:(lia)) as L1.
  pose proof (N.div_mod (c / 64 / 64) 64 ltac:(lia)) as E2. pose proof (N.mod_lt (c / 64 / 64) 64 ltac:(lia)) as L2.
  replace (c / 4096) with (c / 64 / 64) by (rewrite N.Div0.div_div; reflexivity).
  replace (c / 262144) with (c / 64 / 64 / 64) by (rewrite !N.Div0.div_div; reflexivity).
  set (q1 := c / 64) in *. set (q2 := q1 / 64) in *. set (q3 := q2 / 64) in *.
  set (r0 := c mod 64) in *. set (r1 := q1 mod 64) in *. set (r2 := q2 mod 64) in *.
  clearbody q1 q2 q3 r0 r1 r2.
  destruct (N.ltb_spec c 128).
  { eexists. split; [reflexivity|]. split; [repeat constructor; lia|]. cbn [app]. apply decode_1. lia. }
  destruct (N.ltb_spec c 2048).
  { eexists. split; [reflexivity|]. split; [repeat constructor; lia|].
    cbn [app]. rewrite decode_2 by lia. do 2 f_equal. lia. }
  destruct (N.ltb_spec c 65536).
  { assert (Hs : ((55296 <=? c) && (c <=? 57343)) = false).
    { destruct (N.leb_spec 55296 c), (N.leb_spec c 57343); reflexivity || lia. }
    rewrite Hs. eexists. split; [reflexivity|]. split; [repeat constructor; lia|].
    cbn [app]. rewrite decode_3. do 2 f_equal. lia.
    - lia.
    - destruct (N.eqb_spec (224 + q2) 224), (N.eqb_spec (224 + q2) 237); lia.
    - lia. }
  tt. eexists. split; [reflexivity|]. split; [repeat constructor; lia|].
  cbn [app]. rewrite decode_4. do 2 f_equal. lia.
  - lia.
  - destruct (N.eqb_spec (240 + q3) 240), (N.eqb_spec (240 + q3) 244); lia.
  - lia.
  - lia.
Qed.

(** What the strict decoder yields are Unicode scalar values. *)
Lemma decode_scalar (b t : list N) : decode b = Some t -> Forall scalar t.
Proof.
  remember (length b) as n eqn:Hn. assert (Hle : (length b <= n)%nat) by lia. clear Hn.
  revert b t Hle. induction n as [|n IH]; intros b t Hle H.
  { destruct b; [injection H as <-; constructor | simpl in Hle; lia]. }
  destruct b as [|b0 r]; [injection H as <-; constructor|].
  cbn [decode] in H. unfold cont in H. simpl in Hle.
  repeat match type of H with
  | context [if ?x then _ else _] => let E := fresh "E" in destruct x eqn:E
  | context [match ?r with [] => _ | _ => _ end] => destruct r
  end; try discriminate; bool_facts;
  match type of H with
  | option_map _ (decode ?r') = Some _ =>
      destruct (decode r') as [t'|] eqn:D; [|discriminate];
      injection H as <-; constructor; [split; lia|];
      apply (IH r'); [simpl in Hle; lia | exact D]
  end.
Qed.

Lemma encode_decode (t : list N) :
  Forall scalar t -> exists b, encode t = Some b /\ Forall (fun x => x < 256) b /\ decode b = Some t.
Proof.
  induction 1 as [|c t Hc Ht IH]; [exists []; split; [reflexivity | split; [constructor | reflexivity]]|].
  destruct IH as (b & Hb & Hbb & Hd).
  destruct (decode_encode_char c b Hc) as (bc & Hbc & Hcb & Hdc).
  exists (bc ++ b). simpl. rewrite Hbc, Hb. split; [reflexivity|].
  split; [apply Forall_app; split; assumption|].
  rewrite Hdc, Hd. reflexivity.
Qed.

Lemma of_string_bytes (s : string) : Forall (fun x => x < 256) (of_string s).
Proof.
  unfold of_string. apply List.Forall_forall. intros x Hx. apply in_map_iff in Hx as (a & <- & _).
  apply N_ascii_bounded.
Qed.

Lemma bytes_roundtrip (l : list N) :
  Forall (fun x => x < 256) l -> of_string (bytes_to_string l) = l.
Proof.
  unfold of_string, bytes_to_string. rewrite list_ascii_of_string_of_list_ascii, map_map.
  induction 1 as [|x l Hx Hl IH]; [reflexivity|]. cbn [map]. unfold cp.
  rewrite N_ascii_embedding by exact Hx. f_equal. exact IH.
Qed.

(** Text of Unicode scalar values survives [encode('utf-8')] followed by
    [decode('utf-8')]. *)
Lemma utf8_roundtrip (t : list N) :
  Forall scalar t -> exists b, utf8_encode t = Some b /\ utf8_decode b = Some t.
Proof.
  intros H. destruct (encode_decode t H) as (b & Hb & Hbb & Hd).
  exists (bytes_to_string b). unfold utf8_encode, utf8_decode. rewrite Hb.
  split; [reflexivity|]. rewrite bytes_roundtrip by exact Hbb. exact Hd.
Qed.

Lemma of_string_scalar (s : string) : Forall scalar (of_string s).
Proof.
  eapply Forall_impl; [apply of_string_bytes|]. intros x Hx. cbv beta in Hx. unfold scalar. lia.
Qed.

(** Newlines, lines and characters of code-point text. *)
Lemma has_char_app_N (c : N) (a b : list N) :
  has_char c (a ++ b) = has_char c a || has_char c b.
Proof. unfold has_char. apply existsb_app. Qed.

Lemma universal_newlines_no_CR_N (s : list N) :
  has_char CR s = false -> universal_newlines s = s.
Proof.
  induction s as [|c s IH]; intros H; [reflexivity|].
  cbn [has_char existsb] in H. apply orb_false_elim in H as [Hc Hs].
  cbn [universal_newlines]. rewrite N.eqb_sym, Hc. f_equal. now apply IH.
Qed.

Lemma universal_newlines_CR_free_N (s : list N) : has_char CR (universal_newlines s) = false.
Proof.
  unfold has_char. revert s. fix IH 1. intros [|c s]; [reflexivity|].
  assert (Hs := IH s).
  cbn [universal_newlines]. destruct (c =? CR) eqn:Ec.
  - destruct s as [|d s]; [reflexivity|].
    destruct (d =? NL); cbn [existsb].
    + rewrite (IH s). reflexivity.
    + rewrite Hs. reflexivity.
  - cbn [existsb]. rewrite Hs, orb_false_r, N.eqb_sym. exact Ec.
Qed.

Lemma in_universal_newlines (s : list N) (x : N) :
  In x (universal_newlines s) -> x = NL \/ In x s.
Proof.
  remember (length s) as n eqn:Hn. assert (Hle : (length s <= n)%nat) by lia. clear Hn.
  revert s Hle. induction n as [|n IH]; intros [|c s] Hle Hx; try destruct Hx; [simpl in Hle; lia|].
  cbn [length] in Hle.
  cbn [universal_newlines] in Hx. destruct (c =? CR).
  - destruct s as [|d s]; [destruct Hx as [<-|[]]; now left|].
    cbn [length] in Hle.
    destruct (d =? NL); destruct Hx as [<-|Hx]; try now left.
    + destruct (IH s ltac:(lia) Hx) as [?|?]; [now left | right; right; right; assumption].
    + destruct (IH (d :: s) ltac:(simpl; lia) Hx) as [?|?]; [now left | right; right; assumption].
  - destruct Hx as [<-|Hx]; [right; now left|].
    destruct (IH s ltac:(lia) Hx) as [?|?]; [now left | right; right; assumption].
Qed.

Lemma universal_newlines_Forall (Q : N -> Prop) (s : list N) :
  Q NL -> Forall Q s -> Forall Q (universal_newlines s).
Proof.
  intros HQ H. rewrite List.Forall_forall in H |- *. intros x Hx.
  destruct (in_universal_newlines s x Hx) as [->|Hx']; [exact HQ | exact (H x Hx')].
Qed.

Lemma concat_split_lines_N (s : list N) : concat_lines (split_lines s) = s.
Proof.
  unfold concat_lines. induction s as [|c s IH]; [reflexivity|].
  cbn [split_lines]. destruct (c =? NL) eqn:E.
  - apply N.eqb_eq in E as ->. cbn [List.concat app]. now rewrite IH.
  - destruct (split_lines s) as [|l ls] eqn:Hs; cbn [List.concat app] in *.
    + now rewrite <- IH.
    + now rewrite IH.
Qed.

Lemma split_lines_line_N (u r : list N) :
  has_char NL u = false -> split_lines (u ++ NL :: r) = (u ++ [NL]) :: split_lines r.
Proof.
  induction u as [|c u IH]; intros H; [reflexivity|].
  cbn [has_char existsb] in H. apply orb_false_elim in H as [Hc Hu].
  cbn [app split_lines]. rewrite N.eqb_sym, Hc, (IH Hu). reflexivity.
Qed.

Lemma split_lines_last_N (u : list N) :
  has_char NL u = false -> u <> [] -> split_lines u = [u].
Proof.
  induction u as [|c u IH]; intros H Hne; [congruence|].
  cbn [has_char existsb] in H. apply orb_false_elim in H as [Hc Hu].
  cbn [split_lines]. rewrite N.eqb_sym, Hc.
  destruct u as [|d u]; [reflexivity|]. rewrite (IH Hu ltac:(discriminate)). reflexivity.
Qed.

Lemma lines_shape_split_lines_N (s : list N) : lines_shape (split_lines s).
Proof.
  induction s as [|c s IH]; [constructor|].
  cbn [split_lines]. destruct (c =? NL) eqn:E.
  - apply (ls_cons []); [reflexivity | exact IH].
  - inversion IH as [Hn|u Hu Hne Hn|u ls Hu Hls Hn].
    + apply ls_last; [unfold has_char; cbn [existsb]; now rewrite N.eqb_sym, E | discriminate].
    + apply ls_last; [unfold has_char in *; cbn [existsb]; now rewrite N.eqb_sym, E, Hu | discriminate].
    + apply (ls_cons (c :: u)); [unfold has_char in *; cbn [existsb]; now rewrite N.eqb_sym, E, Hu | exact Hls].
Qed.

Lemma split_lines_concat_N (ls : list (list N)) :
  lines_shape ls -> split_lines (concat_lines ls) = ls.
Proof.
  unfold concat_lines. induction 1 as [|u Hu Hne|u ls Hu Hls IH].
  - reflexivity.
  - cbn [List.concat]. rewrite app_nil_r. now apply split_lines_last_N.
  - cbn [List.concat]. rewrite <- app_assoc. cbn [app].
    rewrite split_lines_line_N by exact Hu. now rewrite IH.
Qed.

Lemma has_char_concat_lines_N (c : N) (ls : list (list N)) :
  has_char c (concat_lines ls) = existsb (has_char c) ls.
Proof.
  unfold concat_lines. induction ls as [|l ls IH]; [reflexivity|].
  cbn [List.concat existsb]. now rewrite has_char_app_N, IH.
Qed.

Lemma Forall_concat_lines (Q : N -> Prop) (ls : list (list N)) :
  Forall (Forall Q) ls -> Forall Q (concat_lines ls).
Proof.
  unfold concat_lines. induction 1 as [|l ls Hl Hls IH]; [constructor|].
  cbn [List.concat]. apply Forall_app. now split.
Qed.

Lemma Forall_split_lines (Q : N -> Prop) (s : list N) :
  Forall Q s -> Forall (Forall Q) (split_lines s).
Proof.
  intros H. apply List.Forall_forall. intros l Hl. apply List.Forall_forall. intros x Hx.
  rewrite List.Forall_forall in H. apply H. rewrite <- (concat_split_lines_N s).
  unfold concat_lines. apply in_concat. eauto.
Qed.

End CodecFacts.

(* ------------------------------------------------------------------ *)

Module ActivationFacts.
Import Text Activation CodecFacts.
Open Scope N_scope.

Lemma dollar_all_space (s : list N) : dollar s = true -> all_space s = true.
Proof.
  destruct s as [|c [|d s]]; simpl; try easy.
  intros H. apply N.eqb_eq in H. subst c. reflexivity.
Qed.

Lemma ws_dollar_all_space (s : list N) (n : nat) : ws_dollar s = Some n -> all_space s = true.
Proof.
  revert n; induction s as [|c s IH]; intros n H; [reflexivity|].
  cbn [ws_dollar] in H.
  destruct (is_space c) eqn:Hc.
  - destruct (ws_dollar s) as [m|] eqn:Hs.
    + unfold all_space. cbn [forallb]. rewrite Hc. exact (IH m eq_refl).
    + destruct (dollar (c :: s)) eqn:Hd; [|discriminate].
      now apply dollar_all_space.
  - destruct (dollar (c :: s)) eqn:Hd; [|discriminate].
    now apply dollar_all_space.
Qed.

Lemma all_space_ws_dollar (s : list N) :
  all_space s = true -> ws_dollar s = Some (length s).
Proof.
  unfold all_space. induction s as [|c s IH]; intros H; [reflexivity|].
  cbn [forallb] in H. apply andb_prop in H as [Hc Hs].
  cbn [ws_dollar]. rewrite Hc, (IH Hs). reflexivity.
Qed.

Lemma all_space_DQ (s t : list N) : all_space (s ++ DQ :: t) = false.
Proof. unfold all_space. rewrite forallb_app. cbn [forallb]. now rewrite andb_false_r. Qed.

Lemma lazy_group_assignment (X W : list N) :
  has_char NL X = false -> all_space W = true ->
  lazy_group (X ++ DQ :: W) = Some (length X, S (length W)).
Proof.
  intros HX HW; induction X as [|c X IH].
  - cbn [app lazy_group]. rewrite N.eqb_refl, (all_space_ws_dollar W HW). reflexivity.
  - cbn [has_char existsb] in HX. apply orb_false_elim in HX as [Hc HX].
    cbn [app lazy_group].
    assert (Hq : (if c =? DQ then ws_dollar (X ++ DQ :: W) else None) = None).
    { destruct (c =? DQ); [|reflexivity].
      destruct (ws_dollar (X ++ DQ :: W)) as [n|] eqn:E; [|reflexivity].
      apply ws_dollar_all_space in E. now rewrite all_space_DQ in E. }
    rewrite Hq, N.eqb_sym, Hc, (IH HX). reflexivity.
Qed.

Lemma lazy_group_inv (s : list N) (g t : nat) :
  lazy_group s = Some (g, t) ->
  exists X W, s = X ++ DQ :: W /\ length X = g /\
              has_char NL X = false /\ all_space W = true /\ t = S (length W).
Proof.
  revert g t; induction s as [|c s IH]; intros g t H; [discriminate|].
  cbn [lazy_group] in H.
  destruct (c =? DQ) eqn:Hq.
  - destruct (ws_dollar s) as [w|] eqn:Hw.
    + injection H as <- <-. apply N.eqb_eq in Hq. subst c.
      exists [], s. apply ws_dollar_all_space in Hw as Hs.
      rewrite (all_space_ws_dollar s Hs) in Hw. injection Hw as <-.
      repeat split; auto.
    + destruct (c =? NL) eqn:Hn; [discriminate|].
      destruct (lazy_group s) as [[g' t']|] eqn:Hl; [|discriminate].
      injection H as <- <-.
      destruct (IH g' t' eq_refl) as (X & W & -> & <- & HX & HW & ->).
      exists (c :: X), W. unfold has_char in *. cbn [app existsb length].
      rewrite N.eqb_sym, Hn. repeat split; auto.
  - destruct (c =? NL) eqn:Hn; [discriminate|].
    destruct (lazy_group s) as [[g' t']|] eqn:Hl; [|discriminate].
    injection H as <- <-.
    destruct (IH g' t' eq_refl) as (X & W & -> & <- & HX & HW & ->).
    exists (c :: X), W. unfold has_char in *. cbn [app existsb length].
    rewrite N.eqb_sym, Hn. repeat split; auto.
Qed.

Lemma strip_prefix_inv (p s r : list N) : strip_prefix p s = Some r -> s = p ++ r.
Proof.
  revert s; induction p as [|a p IH]; intros s H.
  - cbn in H. now injection H as ->.
  - destruct s as [|b s]; cbn in H; [discriminate|].
    destruct (a =? b) eqn:E; [|discriminate].
    apply N.eqb_eq in E as ->. cbn [app]. now rewrite (IH s H).
Qed.

Lemma strip_prefix_app_N (p s : list N) : strip_prefix p (p ++ s) = Some s.
Proof. induction p as [|a p IH]; cbn; [reflexivity|]. rewrite N.eqb_refl. exact IH. Qed.

Lemma match_tail_inv (r : list N) (gs ge e : nat) :
  match_tail r = Some (gs, ge, e) ->
  exists sep X W, (sep = 32 \/ sep = 61) /\ has_char NL X = false /\
                all_space W = true /\ gs = 13%nat /\ ge = (13 + length X)%nat /\
                r = of_string "VIRTUAL_ENV" ++ sep :: DQ :: X ++ DQ :: W.
Proof.
  unfold match_tail. intros H.
  destruct (strip_prefix (of_string "VIRTUAL_ENV") r) as [[|sep [|q r']]|] eqn:Hp; try discriminate.
  destruct ((sep =? 32) || (sep =? 61)) eqn:Hs; [|discriminate].
  destruct (q =? DQ) eqn:Hq; [|discriminate].
  destruct (lazy_group r') as [[g t]|] eqn:Hl; [|discriminate].
  injection H as <- <- <-.
  destruct (lazy_group_inv r' g t Hl) as (X & W & -> & <- & HX & HW & _).
  apply N.eqb_eq in Hq as ->.
  exists sep, X, W. repeat split; auto.
  - apply orb_prop in Hs as [Hs|Hs]; apply N.eqb_eq in Hs; auto.
  - now apply strip_prefix_inv.
Qed.

Lemma try_dialects_inv (alts : list (list N)) (line : list N) (gs ge e : nat) :
  try_dialects alts line = Some (gs, ge, e) ->
  exists D r gs' ge' e', In D alts /\ strip_prefix D line = Some r /\
     match_tail r = Some (gs', ge', e') /\ gs = (length D + gs')%nat /\ ge = (length D + ge')%nat.
Proof.
  induction alts as [|a alts IH]; intros H; [discriminate|].
  cbn [try_dialects] in H.
  destruct (strip_prefix a line) as [r|] eqn:Hp.
  - destruct (match_tail r) as [[[gs' ge'] e']|] eqn:Hm.
    + injection H as <- <- <-. exists a, r, gs', ge', e'. repeat split; auto. now left.
    + destruct (IH H) as (D & r' & g1 & g2 & g3 & HD & ?). exists D, r', g1, g2, g3.
      split; [now right | assumption].
  - destruct (IH H) as (D & r' & g1 & g2 & g3 & HD & ?). exists D, r', g1, g2, g3.
    split; [now right | assumption].
Qed.

(** Every match of the pattern is a line of the assignment shape. *)
Lemma activation_path_re_inv (line : list N) (gs ge e : nat) :
  activation_path_re line = Some (gs, ge, e) ->
  exists D sep X W, In D dialects /\ (sep = 32 \/ sep = 61) /\
     has_char NL X = false /\ all_space W = true /\ line = assignment D sep X W.
Proof.
  intros H. destruct (try_dialects_inv _ _ _ _ _ H) as (D & r & g1 & g2 & g3 & HD & Hp & Hm & _).
  destruct (match_tail_inv r g1 g2 g3 Hm) as (sep & X & W & HS & HX & HW & _ & _ & ->).
  exists D, sep, X, W. repeat split; auto.
  unfold assignment. now apply strip_prefix_inv.
Qed.

Lemma assignment_split (D : list N) (sep : N) (X W : list N) :
  assignment D sep X W = (D ++ of_string "VIRTUAL_ENV" ++ [sep; DQ]) ++ (X ++ DQ :: W).
Proof. unfold assignment. rewrite <- !app_assoc. reflexivity. Qed.

Lemma length_assignment_head (D : list N) (sep : N) :
  length (D ++ of_string "VIRTUAL_ENV" ++ [sep; DQ]) = (length D + 13)%nat.
Proof. rewrite length_app. reflexivity. Qed.

Lemma match_tail_assignment (sep : N) (X W : list N) :
  (sep = 32 \/ sep = 61) -> has_char NL X = false -> all_space W = true ->
  match_tail (of_string "VIRTUAL_ENV" ++ sep :: DQ :: X ++ DQ :: W) =
    Some (13%nat, (13 + length X)%nat, (13 + length X + S (length W))%nat).
Proof.
  intros HS HX HW.
  unfold match_tail. rewrite strip_prefix_app_N, N.eqb_refl.
  rewrite (lazy_group_assignment X W HX HW).
  destruct HS as [-> | ->]; reflexivity.
Qed.

Lemma try_dialects_hit (a : list N) (alts : list (list N)) (line r : list N) (gs ge e : nat) :
  strip_prefix a line = Some r -> match_tail r = Some (gs, ge, e) ->
  try_dialects (a :: alts) line = Some ((length a + gs)%nat, (length a + ge)%nat, (length a + e)%nat).
Proof. intros Hp Hm. cbn [try_dialects]. now rewrite Hp, Hm. Qed.

Lemma try_dialects_miss (a : list N) (alts : list (list N)) (line : list N) :
  strip_prefix a line = None -> try_dialects (a :: alts) line = try_dialects alts line.
Proof. intros Hp. cbn [try_dialects]. now rewrite Hp. Qed.

Lemma activation_path_re_assignment (D : list N) (sep : N) (X W : list N) :
  In D dialects -> (sep = 32 \/ sep = 61) ->
  has_char NL X = false -> all_space W = true ->
  activation_path_re (assignment D sep X W) =
    Some ((length D + 13)%nat, (length D + 13 + length X)%nat, length (assignment D sep X W)).
Proof.
  intros HD HS HX HW.
  assert (Hm := match_tail_assignment sep X W HS HX HW).
  assert (Hl : length (assignment D sep X W) = (length D + (13 + length X + S (length W)))%nat).
  { unfold assignment. rewrite !length_app. cbn [length]. rewrite length_app. cbn [length].
    change (length (of_string "VIRTUAL_ENV")) with 11%nat. lia. }
  rewrite Hl. unfold activation_path_re, assignment, dialects. cbn [map].
  destruct HD as [<-|[<-|[<-|[]]]].
  - erewrite try_dialects_hit; [| apply strip_prefix_app_N | exact Hm]. f_equal; f_equal; lia.
  - rewrite try_dialects_miss by reflexivity.
    erewrite try_dialects_hit; [| apply strip_prefix_app_N | exact Hm]. f_equal; f_equal; lia.
  - rewrite !try_dialects_miss by reflexivity.
    erewrite try_dialects_hit; [| apply strip_prefix_app_N | exact Hm]. f_equal; f_equal; lia.
Qed.

Lemma activation_sub_assignment (P D : list N) (sep : N) (X W : list N) :
  In D dialects -> (sep = 32 \/ sep = 61) ->
  has_char NL X = false -> all_space W = true ->
  activation_sub P (assignment D sep X W) = assignment D sep P W.
Proof.
  intros HD HS HX HW. unfold activation_sub.
  rewrite (activation_path_re_assignment D sep X W HD HS HX HW).
  rewrite !(assignment_split D sep _ W).
  set (pre := D ++ of_string "VIRTUAL_ENV" ++ [sep; DQ]).
  assert (Hpre : length pre = (length D + 13)%nat) by apply length_assignment_head.
  set (post := DQ :: W).
  set (L := pre ++ (X ++ post)).
  assert (HL : length L = (length pre + length X + length post)%nat).
  { unfold L. rewrite !length_app. lia. }
  rewrite firstn_all, drop_all, app_nil_r.
  unfold handle_sub, slice_to, slice_from.
  assert (E1 : Py.slice_index (length L) (Z.of_nat (length D + 13) - Z.of_nat 0) = length pre).
  { unfold Py.slice_index. destruct (Z.ltb_spec (Z.of_nat (length D + 13) - Z.of_nat 0) 0); lia. }
  assert (E2 : Py.slice_index (length L) (Z.of_nat (length D + 13 + length X) - Z.of_nat (length L))
               = length (pre ++ X)).
  { rewrite length_app. unfold Py.slice_index.
    assert (length post = S (length W)) by reflexivity.
    destruct (Z.ltb_spec (Z.of_nat (length D + 13 + length X) - Z.of_nat (length L)) 0); lia. }
  rewrite E1, E2. unfold L.
  rewrite take_app_length, (app_assoc pre X post), drop_app_length. reflexivity.
Qed.

(** The loop of [update_activation_script] maps [activation_sub] over the
    lines and records whether one of them changed. *)
Lemma sub_lines_spec (P : list N) (lines : list (list N)) :
  sub_lines P lines =
  (map (activation_sub P) lines,
   existsb (fun l => negb (bool_decide (l = activation_sub P l))) lines).
Proof.
  induction lines as [|l ls IH]; [reflexivity|].
  cbn [sub_lines]. rewrite IH. reflexivity.
Qed.

Lemma assignment_inj (D : list N) (sep : N) (X Y W : list N) :
  assignment D sep X W = assignment D sep Y W -> X = Y.
Proof.
  rewrite !(assignment_split D sep _ W). intros H.
  apply app_inv_head in H. now apply app_inv_tail in H.
Qed.

Lemma existsb_false_forall {A} (f : A -> bool) (l : list A) :
  existsb f l = false -> forall x, In x l -> f x = false.
Proof.
  intros H x Hx. destruct (f x) eqn:E; [|reflexivity].
  assert (existsb f l = true) by (apply existsb_exists; eauto). congruence.
Qed.

(** The rewriter of activation scripts leaves a line alone or puts the
    new path in place of a newline-free span before a quote. *)
Lemma activation_sub_cases (P l : list N) :
  activation_sub P l = l \/
  exists pre X W, l = pre ++ (X ++ DQ :: W) /\ has_char NL X = false /\
                  activation_sub P l = pre ++ (P ++ DQ :: W).
Proof.
  destruct (activation_path_re l) as [[[gs ge] e]|] eqn:Hm.
  - right. destruct (activation_path_re_inv _ _ _ _ Hm) as (D & sep & X & W & HD & HS & HX & HW & ->).
    exists (D ++ of_string "VIRTUAL_ENV" ++ [sep; DQ]), X, W.
    rewrite (activation_sub_assignment P D sep X W HD HS HX HW).
    rewrite !(assignment_split D sep _ W). split; [reflexivity | split; [exact HX | reflexivity]].
  - left. unfold activation_sub. now rewrite Hm.
Qed.

Lemma has_char_sub (c : N) (P l : list N) :
  has_char c P = false -> has_char c l = false -> has_char c (activation_sub P l) = false.
Proof.
  intros HP Hl. destruct (activation_sub_cases P l) as [->|(pre & X & W & -> & _ & ->)]; [exact Hl|].
  rewrite !has_char_app_N in Hl |- *. apply orb_false_elim in Hl as [H1 H2].
  apply orb_false_elim in H2 as [_ H3]. now rewrite H1, HP, H3.
Qed.

Lemma Forall_sub (Q : N -> Prop) (P l : list N) :
  Forall Q P -> Forall Q l -> Forall Q (activation_sub P l).
Proof.
  intros HP Hl. destruct (activation_sub_cases P l) as [->|(pre & X & W & -> & _ & ->)]; [exact Hl|].
  apply Forall_app in Hl as [H1 H2]. apply Forall_app in H2 as [_ H3].
  apply Forall_app. split; [exact H1|]. apply Forall_app. now split.
Qed.

Lemma activation_sub_idem (P l : list N) :
  has_char NL P = false -> activation_sub P (activation_sub P l) = activation_sub P l.
Proof.
  intros HP. destruct (activation_path_re l) as [[[gs ge] e]|] eqn:Hm.
  - destruct (activation_path_re_inv _ _ _ _ Hm) as (D & sep & X & W & HD & HS & HX & HW & ->).
    rewrite (activation_sub_assignment P D sep X W HD HS HX HW).
    exact (activation_sub_assignment P D sep P W HD HS HP HW).
  - assert (E : activation_sub P l = l) by (unfold activation_sub; now rewrite Hm).
    rewrite E. exact E.
Qed.

Lemma split_last_NL (u b c : list N) :
  has_char NL u = false -> c <> [] -> u ++ [NL] = b ++ c ->
  exists c', c = c' ++ [NL] /\ b ++ c' = u.
Proof.
  intros _ Hc H. destruct (exists_last Hc) as (c' & x & ->).
  rewrite app_assoc in H. apply app_inj_tail in H as [H <-].
  exists c'. split; [reflexivity | symmetry; exact H].
Qed.

Lemma lines_shape_map_sub (P : list N) (ls : list (list N)) :
  has_char NL P = false -> lines_shape ls -> lines_shape (map (activation_sub P) ls).
Proof.
  intros HP. induction 1 as [|u Hu Hne|u ls Hu Hls IH]; cbn [map].
  - constructor.
  - destruct (activation_sub_cases P u) as [->|(pre & X & W & -> & HX & ->)]; [now apply ls_last|].
    apply ls_last.
    + rewrite !has_char_app_N in Hu |- *. apply orb_false_elim in Hu as [H1 H2].
      apply orb_false_elim in H2 as [_ H3]. now rewrite H1, HP, H3.
    + intros E. apply (f_equal (@length N)) in E. rewrite !length_app in E.
      cbn [length] in E. lia.
  - destruct (activation_sub_cases P (u ++ [NL]))
      as [->|(pre & X & W & Heq & HX & ->)]; [now apply ls_cons|].
    rewrite app_assoc in Heq.
    destruct (split_last_NL u (pre ++ X) (DQ :: W) Hu ltac:(discriminate) Heq)
      as (c' & Hc' & Hu').
    rewrite Hc', !app_assoc. apply ls_cons; [|exact IH].
    rewrite <- Hu', !has_char_app_N in Hu. rewrite !has_char_app_N.
    apply orb_false_elim in Hu as [H1 H2]. apply orb_false_elim in H1 as [H1 _].
    cbn [has_char existsb] in H2 |- *. now rewrite H1, HP, H2.
Qed.

Lemma existsb_has_char_map_sub (c : N) (P : list N) (ls : list (list N)) :
  has_char c P = false -> existsb (has_char c) ls = false ->
  existsb (has_char c) (map (activation_sub P) ls) = false.
Proof.
  intros HP. induction ls as [|l ls IH]; intros H; [reflexivity|].
  cbn [existsb map] in *. apply orb_false_elim in H as [H1 H2].
  now rewrite (has_char_sub c P l HP H1), (IH H2).
Qed.

Lemma existsb_changed_map_sub (P : list N) (ls : list (list N)) :
  has_char NL P = false ->
  existsb (fun l => negb (bool_decide (l = activation_sub P l))) (map (activation_sub P) ls) = false.
Proof.
  intros HP. induction ls as [|l ls IH]; [reflexivity|].
  cbn [existsb map]. rewrite (activation_sub_idem P l HP), bool_decide_eq_true_2 by reflexivity.
  exact IH.
Qed.

Lemma activation_text_rerun (P text t' : list N) :
  has_char NL P = false -> has_char CR P = false ->
  update_activation_text P text = Some t' -> update_activation_text P t' = None.
Proof.
  intros HN HC H. unfold update_activation_text in *.
  rewrite sub_lines_spec in H.
  remember (split_lines (universal_newlines text)) as lines eqn:Hlines.
  destruct (existsb _ lines); [|discriminate]. injection H as <-.
  assert (Hl : existsb (has_char CR) lines = false)
    by (rewrite Hlines, <- has_char_concat_lines_N, concat_split_lines_N;
        apply universal_newlines_CR_free_N).
  rewrite universal_newlines_no_CR_N
    by (rewrite has_char_concat_lines_N; exact (existsb_has_char_map_sub CR P lines HC Hl)).
  rewrite split_lines_concat_N
    by (apply lines_shape_map_sub; [exact HN | rewrite Hlines; apply lines_shape_split_lines_N]).
  rewrite sub_lines_spec, (existsb_changed_map_sub P lines HN). reflexivity.
Qed.

(** The rewritten text holds only code points of the old text, of the
    new path, and newlines. *)
Lemma activation_text_Forall (Q : N -> Prop) (P text t' : list N) :
  Q NL -> Forall Q P -> Forall Q text ->
  update_activation_text P text = Some t' -> Forall Q t'.
Proof.
  intros HQ HP Ht H. unfold update_activation_text in H. rewrite sub_lines_spec in H.
  destruct (existsb _ _); [|discriminate]. injection H as <-.
  apply Forall_concat_lines. apply Forall_map.
  eapply Forall_impl; [apply Forall_split_lines, universal_newlines_Forall; [exact HQ | exact Ht]|].
  intros l Hl. cbv beta. now apply Forall_sub.
Qed.

End ActivationFacts.

(* ------------------------------------------------------------------ *)
(** ** [reinitialize_virtualenv] *)

Module ReinitFacts.
Import Py FS Tools Reinit.

Lemma filter_environ_lookup (E : gmap string string) (k : string) :
  filter_environ E !! k = if startswith "VIRTUALENV_" k then None else E !! k.
Proof.
  revert k. unfold filter_environ.
  apply (map_fold_weak_ind
           (fun (r m : gmap string string) =>
              forall k, r !! k = if startswith "VIRTUALENV_" k then None else m !! k)).
  - intros k. rewrite !lookup_empty. now destruct (startswith _ _).
  - intros i x m r Hi IH k.
    destruct (decide (k = i)) as [->|Hne].
    + rewrite lookup_insert_eq.
      destruct (startswith "VIRTUALENV_" i) eqn:Hsw.
      * rewrite IH, Hsw. reflexivity.
      * rewrite lookup_insert_eq. reflexivity.
    + rewrite (lookup_insert_ne m i k x) by congruence.
      destruct (startswith "VIRTUALENV_" i).
      * apply IH.
      * rewrite (lookup_insert_ne r i k x) by congruence. apply IH.
Qed.

Lemma distribute_flags_spec (args fs : list string) :
  distribute_flags args fs =
  args ++ repeat "--distribute"
            (length (List.filter (fun f => startswith "distribute-" f && endswith ".egg" f) fs)).
Proof.
  revert args; induction fs as [|f fs IH]; intros args; cbn [distribute_flags List.filter].
  - now rewrite app_nil_r.
  - rewrite IH. cbv beta.
    destruct (startswith "distribute-" f && endswith ".egg" f); [|reflexivity].
    cbn [length repeat]. rewrite <- app_assoc. reflexivity.
Qed.

End ReinitFacts.

(* ------------------------------------------------------------------ *)
(** ** [remove_pycs] *)

Module WalkFacts.
Import Py FS Tools Views.

Definition keep (f : string * string * node) : bool := negb (is_pyc (file_name f)).
Definition removal (f : string * string * node) : list effect :=
  if is_pyc (file_name f) then remove_pyc (file_path f) else [].

Definition walk_ok (d : node) : Prop :=
  forall p, let '(d', l) := walk_remove p d in
    walk_files p d' = List.filter keep (walk_files p d) /\ l = flat_map removal (walk_files p d).

Lemma walk_remove_dir (p : string) (es : list (string * node)) :
  exists es', fst (walk_remove p (Dir es)) = Dir es'.
Proof.
  cbn [walk_remove]. destruct (walk_entries walk_remove p es) as [[es' lf] ld]. now exists es'.
Qed.

Lemma file_entries_cons (p nm : string) (e : node) (es : list (string * node)) :
  file_entries p ((nm, e) :: es) =
  if is_dir_entry e then file_entries p es else (nm, path_join p [nm], e) :: file_entries p es.
Proof. unfold file_entries. cbn. now destruct (is_dir_entry e). Qed.

Lemma subdir_files_cons (p nm : string) (e : node) (es : list (string * node)) :
  subdir_files walk_files p ((nm, e) :: es) =
  match e with Dir _ => walk_files (path_join p [nm]) e | _ => [] end
  ++ subdir_files walk_files p es.
Proof. reflexivity. Qed.

Lemma walk_entries_cons (p nm : string) (e : node) (es : list (string * node)) :
  walk_entries walk_remove p ((nm, e) :: es) =
  let '(rest, lf, ld) := walk_entries walk_remove p es in
  let path := path_join p [nm] in
  if is_dir_entry e then
    match e with
    | Dir _ => let '(e', l) := walk_remove path e in ((nm, e') :: rest, lf, l ++ ld)
    | _ => ((nm, e) :: rest, lf, ld)
    end
  else if is_pyc nm then (rest, remove_pyc path ++ lf, ld)
  else ((nm, e) :: rest, lf, ld).
Proof. reflexivity. Qed.

Lemma walk_entries_spec (p : string) (es : list (string * node)) :
  Forall (fun ne => walk_ok (snd ne)) es ->
  let '(es', lf, ld) := walk_entries walk_remove p es in
  file_entries p es' = List.filter keep (file_entries p es) /\
  subdir_files walk_files p es' = List.filter keep (subdir_files walk_files p es) /\
  lf = flat_map removal (file_entries p es) /\
  ld = flat_map removal (subdir_files walk_files p es).
Proof.
  induction 1 as [|[nm e] es He Hes IH]; [repeat split|].
  rewrite walk_entries_cons. cbv zeta.
  destruct (walk_entries walk_remove p es) as [[rest lf] ld].
  destruct IH as (IH1 & IH2 & IH3 & IH4). cbn [snd] in He.
  rewrite file_entries_cons, subdir_files_cons.
  destruct (is_dir_entry e) eqn:Hd.
  - destruct e as [data|es0|t st]; try discriminate.
    + assert (Hw := He (path_join p [nm])).
      destruct (walk_remove (path_join p [nm]) (Dir es0)) as [e' l] eqn:Hr.
      destruct Hw as [Hw1 Hw2].
      assert (He' : exists es1, e' = Dir es1).
      { destruct (walk_remove_dir (path_join p [nm]) es0) as [es1 H1].
        rewrite Hr in H1. now exists es1. }
      destruct He' as [es1 ->]. cbv beta iota.
      rewrite file_entries_cons, subdir_files_cons. cbn [is_dir_entry follow].
      rewrite Hw1, IH1, IH2, List.filter_app, Hw2, IH4, List.flat_map_app.
      repeat split; assumption.
    + rewrite file_entries_cons, subdir_files_cons, Hd. cbn [app].
      repeat split; assumption.
  - assert (Hnd : match e with Dir _ => walk_files (path_join p [nm]) e | _ => [] end = []).
    { destruct e; [reflexivity | discriminate | reflexivity]. }
    rewrite Hnd. cbn [app].
    destruct (is_pyc nm) eqn:Hp.
    + cbn [List.filter flat_map]. unfold keep at 1, removal at 1.
      cbn [file_name file_path fst snd]. rewrite Hp. cbn [negb].
      repeat split; try assumption. now rewrite IH3.
    + rewrite file_entries_cons, subdir_files_cons, Hd, Hnd. cbn [app List.filter flat_map].
      unfold keep at 1, removal at 1.
      cbn [file_name file_path fst snd]. rewrite Hp. cbn [negb app].
      rewrite IH1. repeat split; assumption.
Qed.

Lemma walk_remove_spec (d : node) : walk_ok d.
Proof.
  induction d as [data|es Hes|t st] using node_ind_deep; intros p.
  - cbn. split; reflexivity.
  - cbn [walk_remove walk_files].
    assert (Hs := walk_entries_spec p es Hes).
    destruct (walk_entries walk_remove p es) as [[es' lf] ld].
    destruct Hs as (H1 & H2 & H3 & H4). cbn [walk_files].
    rewrite H1, H2, List.filter_app, H3, H4, List.flat_map_app. split; reflexivity.
  - cbn. split; reflexivity.
Qed.

End WalkFacts.

(* ------------------------------------------------------------------ *)
(** ** [update_local] *)

Module LocalFacts.
Import Py FS Tools.

Lemma lookup_set_entry_eq (n : string) (x : node) (es : list (string * node)) :
  lookup n es <> None -> lookup n (set_entry n x es) = Some x.
Proof.
  induction es as [|[m d] es IH]; cbn [lookup set_entry]; [congruence|].
  destruct (String.eqb m n) eqn:E; cbn [lookup]; rewrite ?E; auto.
Qed.

Lemma lookup_set_entry_ne (n m : string) (x : node) (es : list (string * node)) :
  n <> m -> lookup m (set_entry n x es) = lookup m es.
Proof.
  intros Hne. induction es as [|[k d] es IH]; cbn [lookup set_entry]; [reflexivity|].
  destruct (String.eqb k n) eqn:E; cbn [lookup].
  - apply String.eqb_eq in E as ->.
    destruct (String.eqb n m) eqn:E2; [apply String.eqb_eq in E2; congruence | reflexivity].
  - rewrite IH. reflexivity.
Qed.

Lemma listdir_with_entries (loc : node) (es : list (string * node)) :
  isdir (Some loc) = true -> listdir (Some (with_entries loc es)) = es /\
                             isdir (Some (with_entries loc es)) = true.
Proof.
  destruct loc as [data|es0|t [[data|es0|t' s']|]]; cbn; try discriminate; auto.
Qed.

Lemma update_local_entry_other (base : string) (rt es : list (string * node)) (folder m : string) :
  folder <> m -> lookup m (fst (update_local_entry base rt es folder)) = lookup m es.
Proof.
  intros Hne. unfold update_local_entry.
  destruct (lookup folder es) as [[data|es0|t s]|]; try reflexivity.
  destruct (negb (String.eqb t ("../" +:+ folder))); [|reflexivity].
  cbn [fst]. now apply lookup_set_entry_ne.
Qed.

Lemma update_local_entry_self (base : string) (rt es : list (string * node)) (folder : string) :
  lookup folder (fst (update_local_entry base rt es folder)) =
  match lookup folder es with
  | Some (Link t s) =>
      if String.eqb t ("../" +:+ folder) then Some (Link t s)
      else Some (Link ("../" +:+ folder) (follow_opt (lookup folder rt)))
  | o => o
  end /\
  snd (update_local_entry base rt es folder) =
  match lookup folder es with
  | Some (Link t _) =>
      if String.eqb t ("../" +:+ folder) then []
      else [RemoveFile (path_join (path_join base ["local"]) [folder]);
            MakeSymlink ("../" +:+ folder) (path_join (path_join base ["local"]) [folder]);
            Print ("L " +:+ path_join (path_join base ["local"]) [folder])]
  | _ => []
  end.
Proof.
  unfold update_local_entry.
  destruct (lookup folder es) as [[data|es0|t s]|] eqn:Hl;
    try (cbn [fst snd]; rewrite Hl; split; reflexivity).
  destruct (String.eqb t ("../" +:+ folder)) eqn:E; cbn [negb fst snd].
  - split; [exact Hl | reflexivity].
  - split; [|reflexivity]. apply lookup_set_entry_eq. congruence.
Qed.

End LocalFacts.

(* ------------------------------------------------------------------ *)
(** ** Running the flow a second time *)

Module RerunFacts.
Import Py FS Tools Views PyFacts TextFacts LocalFacts.

Lemma Some_eq {A : Type} (x y : A) : Some x = Some y -> x = y.
Proof. congruence. Qed.

Lemma no_space_has_char (c : ascii) (s : string) :
  is_space c = true -> no_space s = true -> has_char c s = false.
Proof.
  intros Hc. induction s as [|d s IH]; intros H; [reflexivity|].
  cbn [no_space] in H. apply andb_prop in H as [Hd Hs]. cbn [has_char].
  rewrite (IH Hs), orb_false_r. destruct (Ascii.eqb c d) eqn:E; [|reflexivity].
  apply Ascii.eqb_eq in E as ->. rewrite Hc in Hd. discriminate Hd.
Qed.

Lemma lstrip_no_space (w t : string) :
  w <> EmptyString -> no_space w = true -> lstrip (w +:+ t) = w +:+ t.
Proof.
  destruct w as [|c w]; intros Hne H; [congruence|].
  cbn [no_space] in H. apply andb_prop in H as [Hc _]. apply negb_true_iff in Hc.
  cbn [String.append lstrip]. now rewrite Hc.
Qed.

Lemma rstrip_no_space (w t : string) :
  w <> EmptyString -> no_space w = true -> rstrip (w +:+ t) = w +:+ rstrip t.
Proof.
  induction w as [|c w IH]; intros Hne H; [congruence|].
  cbn [no_space] in H. apply andb_prop in H as [Hc Hw]. apply negb_true_iff in Hc.
  cbn [String.append rstrip]. rewrite Hc, andb_false_r.
  destruct w as [|d w]; [reflexivity|].
  rewrite IH; [reflexivity | discriminate | exact Hw].
Qed.

(** A first argument followed by whitespace is the first token. *)
Lemma split_strip_first (w : string) (c : ascii) (h : string) :
  w <> EmptyString -> no_space w = true -> is_space c = true ->
  exists more, split (strip (w +:+ String c h)) = w :: more.
Proof.
  intros Hne Hw Hc. unfold strip.
  rewrite (lstrip_no_space w _ Hne Hw), (rstrip_no_space w _ Hne Hw).
  apply split_head; [exact Hne | exact Hw |].
  cbn [rstrip]. destruct (String.eqb (rstrip h) EmptyString && is_space c).
  - now left.
  - right. exists c, (rstrip h). split; [reflexivity | exact Hc].
Qed.

Lemma path_join_bin_python_tok (P : string) :
  is_ascii P = true -> no_space P = true ->
  path_join P ["bin"; "python"] <> EmptyString /\
  no_space (path_join P ["bin"; "python"]) = true /\
  is_ascii (path_join P ["bin"; "python"]) = true.
Proof.
  intros Ha Hn. destruct (String.eqb P EmptyString) eqn:E.
  - apply String.eqb_eq in E as ->. split; [vm_compute; discriminate | split; reflexivity].
  - assert (Hne : P <> EmptyString) by (intros ->; discriminate E).
    destruct (path_join_bin_python P Hne) as (suf & -> & Hs & Has).
    split; [destruct P as [|p P']; [congruence | discriminate] |].
    rewrite no_space_app, is_ascii_app, Hn, Ha, Hs, Has. split; reflexivity.
Qed.

(** The file [update_script] writes starts with [#!], the new
    interpreter, then a space or a newline. *)
Lemma script_head (nb : string) (more rest : list string) :
  exists c R, (c = " "%char \/ c = NL) /\
    concat_lines (("#!" +:+ join " " (nb :: more) +:+ String NL EmptyString) :: rest)
    = "#!" +:+ (nb +:+ String c R).
Proof.
  cbn [concat_lines]. destruct more as [|m more].
  - exists NL, (concat_lines rest). split; [now right|]. cbn [join].
    rewrite !append_assoc_s. reflexivity.
  - exists " "%char, (join " " (m :: more) +:+ String NL EmptyString +:+ concat_lines rest).
    split; [now left|].
    change (join " " (nb :: m :: more)) with (nb +:+ " " +:+ join " " (m :: more)).
    rewrite !append_assoc_s. reflexivity.
Qed.

Lemma update_script_rerun (P data0 data1 : string) :
  is_ascii P = true -> no_space P = true ->
  Script.update_script P data0 = Some data1 -> Script.update_script P data1 = None.
Proof.
  intros Ha Hn H. unfold Script.update_script in H.
  destruct (split_lines (universal_newlines (latin1_decode data0))) as [|l0 rest]; [discriminate|].
  destruct (negb (startswith "#!" l0)); [discriminate|].
  destruct (split (strip (slice_from l0 2))) as [|a0 more]; [discriminate|].
  destruct (negb (endswith "/bin/python" a0) || contains "/usr/bin/env python" a0); [discriminate|].
  destruct (String.eqb (path_join P ["bin"; "python"]) a0); [discriminate|].
  apply Some_eq in H. subst data1.
  destruct (path_join_bin_python_tok P Ha Hn) as (Hne & Hns & Has).
  set (nb := path_join P ["bin"; "python"]) in *.
  destruct (script_head nb more rest) as (c & R & Hc & ->).
  assert (Hsp : is_space c = true) by (destruct Hc as [-> | ->]; reflexivity).
  assert (Henc : utf8_encode ("#!" +:+ (nb +:+ String c R))
                 = "#!" +:+ (nb +:+ String c (utf8_encode R))).
  { rewrite !utf8_encode_app, (utf8_encode_ascii nb Has).
    destruct Hc as [-> | ->]; reflexivity. }
  unfold Script.update_script, latin1_decode. change (path_join P ["bin"; "python"]) with nb.
  rewrite Henc. set (Y := utf8_encode R).
  rewrite <- (append_assoc_s "#!" nb).
  rewrite universal_newlines_app
    by (rewrite has_char_app, (no_space_has_char CR nb eq_refl Hns); reflexivity).
  assert (Hun : universal_newlines (String c Y) = String c (universal_newlines Y))
    by (destruct Hc as [-> | ->]; reflexivity).
  rewrite Hun.
  assert (HNL : has_char NL ("#!" +:+ nb) = false)
    by (rewrite has_char_app, (no_space_has_char NL nb eq_refl Hns); reflexivity).
  assert (Hsl : exists h t, split_lines (("#!" +:+ nb) +:+ String c (universal_newlines Y))
                            = (("#!" +:+ nb) +:+ String c h) :: t).
  { destruct Hc as [-> | ->].
    - assert (E : exists h t, split_lines (String " " (universal_newlines Y)) = String " " h :: t).
      { change (split_lines (String " " (universal_newlines Y))) with
          (match split_lines (universal_newlines Y) with
           | [] => [String " "%char EmptyString]
           | l :: ls => String " " l :: ls
           end).
        destruct (split_lines (universal_newlines Y)) as [|l ls];
          [exists EmptyString, [] | exists l, ls]; reflexivity. }
      destruct E as (h & t & E). exists h, t. now apply split_lines_prefix.
    - exists EmptyString, (split_lines (universal_newlines Y)). now apply split_lines_line. }
  destruct Hsl as (h & t & ->).
  rewrite (append_assoc_s "#!" nb), startswith_app. cbn [negb].
  rewrite slice_from_2 by reflexivity.
  destruct (split_strip_first nb c h Hne Hns Hsp) as (more' & ->).
  destruct (negb (endswith "/bin/python" nb) || contains "/usr/bin/env python" nb); [reflexivity|].
  rewrite String.eqb_refl. reflexivity.
Qed.

Lemma read_write_file (d : node) (x y : string) :
  read_file d = Ok x ->
  read_file (write_file d y) = Ok y /\ isfile (Some d) = true /\ isfile (Some (write_file d y)) = true.
Proof.
  destruct d as [a|es|t [[a|es|t' s']|]]; cbn; intros H; try discriminate H; repeat split.
Qed.

Lemma update_scripts_isfile (bin P : string) (es es1 : list (string * node))
    (r : outcome unit) (l : list effect) (n : string) :
  update_scripts bin P es = (r, es1, l) -> isfile (lookup n es1) = isfile (lookup n es).
Proof.
  revert es1 r l. induction es as [|[fn d] es IH]; intros es1 r l H.
  - cbn in H. injection H as <- <- <-. reflexivity.
  - cbn [update_scripts] in H.
    assert (Hw : forall tag data w, update_entry P fn d = Ok (Some (tag, data, w)) ->
                 isfile (Some (write_file d data)) = isfile (Some d)).
    { intros tag data w He. unfold update_entry in He.
      destruct (read_file d) as [x|] eqn:Hr; [|discriminate].
      destruct (read_write_file d x data Hr) as (_ & H1 & H2). now rewrite H1, H2. }
    destruct (update_entry P fn d) as [[[[tag data] [u|e']]|]|e] eqn:He.
    + destruct (update_scripts bin P es) as [[r' es''] l'] eqn:Hs. injection H as <- <- <-.
      cbn [lookup]. destruct (String.eqb fn n); [exact (Hw _ _ _ eq_refl) | exact (IH _ _ _ eq_refl)].
    + injection H as <- <- <-.
      cbn [lookup]. destruct (String.eqb fn n); [exact (Hw _ _ _ eq_refl) | reflexivity].
    + destruct (update_scripts bin P es) as [[r' es''] l'] eqn:Hs. injection H as <- <- <-.
      cbn [lookup]. destruct (String.eqb fn n); [reflexivity | exact (IH _ _ _ eq_refl)].
    + injection H as <- <- <-. reflexivity.
Qed.

Lemma with_entries_idem (d : node) (es es' : list (string * node)) :
  with_entries (with_entries d es) es' = with_entries d es'.
Proof. destruct d as [a|es0|t [[a|es0|t' s']|]]; reflexivity. Qed.

End RerunFacts.

(* ------------------------------------------------------------------ *)
(** ** Further properties of the stages *)

Module ExtraFacts.
Import Py FS Script Tools Reinit Main Views PyFacts TextFacts WalkFacts LocalFacts RerunFacts.

(** A walk that, run again on what it left, changes nothing. *)
Definition rerun_ok (d : node) : Prop :=
  forall p d' l, walk_remove p d = (d', l) -> walk_remove p d' = (d', []).

(** [local/<folder>], when it is a link, points at [../<folder>]. *)
Definition linked (folder : string) (es : list (string * node)) : Prop :=
  forall t s, lookup folder es = Some (Link t s) -> t = "../" +:+ folder.

Lemma py_strip_prefix_inv (p s r : string) : strip_prefix p s = Some r -> s = p +:+ r.
Proof.
  revert s; induction p as [|a p IH]; intros s H; cbn in H.
  - now injection H as ->.
  - destruct s as [|b s]; [discriminate|].
    destruct (Ascii.eqb a b) eqn:E; [|discriminate].
    apply Ascii.eqb_eq in E as ->. cbn. f_equal. now apply IH.
Qed.

Lemma strip_prefix_app (p s : string) : strip_prefix p (p +:+ s) = Some s.
Proof. induction p as [|a p IH]; cbn; [reflexivity|]. rewrite Ascii.eqb_refl. exact IH. Qed.

Lemma skip_digits_app (a r : string) : all_digits a = true -> skip_digits (a +:+ r) = skip_digits r.
Proof.
  induction a as [|c a IH]; cbn; [reflexivity|].
  intros H. apply andb_prop in H as [-> H]. auto.
Qed.

Lemma skip_digits_inv (s : string) : exists a, all_digits a = true /\ s = a +:+ skip_digits s.
Proof.
  induction s as [|c s (a & Ha & Hs)]; cbn.
  - exists "". auto.
  - destruct (is_digit c) eqn:E.
    + exists (String c a). cbn. rewrite E, Ha. split; [reflexivity|]. f_equal. exact Hs.
    + exists "". split; reflexivity.
Qed.

Lemma pybin_match_spec (name : string) :
  pybin_match name = true <->
  exists a b t, a <> "" /\ b <> "" /\ all_digits a = true /\ all_digits b = true /\
    (t = "" \/ t = String NL "") /\ name = "python" +:+ a +:+ "." +:+ b +:+ t.
Proof.
  split.
  - unfold pybin_match. intros H.
    destruct (strip_prefix "python" name) as [r|] eqn:Hp; [|discriminate].
    apply py_strip_prefix_inv in Hp.
    destruct r as [|d r0]; cbn [digits1] in H; [discriminate|].
    destruct (is_digit d) eqn:Hd; [|discriminate].
    destruct (skip_digits r0) as [|c r'] eqn:Hs; [discriminate|].
    apply andb_prop in H as [Hc H]. apply Ascii.eqb_eq in Hc. subst c.
    destruct r' as [|e r1]; cbn [digits1] in H; [discriminate|].
    destruct (is_digit e) eqn:He; [|discriminate].
    destruct (skip_digits_inv r0) as (a & Ha & Ea).
    destruct (skip_digits_inv r1) as (b & Hb & Eb).
    exists (String d a), (String e b), (skip_digits r1).
    split; [discriminate|]. split; [discriminate|].
    cbn [all_digits]. rewrite Hd, He, Ha, Hb. split; [reflexivity|]. split; [reflexivity|].
    split.
    + destruct (skip_digits r1) as [|x [|y z]]; cbn in H; [now left| |discriminate].
      apply Ascii.eqb_eq in H. subst. now right.
    + rewrite Hp. f_equal. cbn. f_equal. rewrite Ea, Hs, <- Eb. reflexivity.
  - intros (a & b & t & Ha0 & Hb0 & Ha & Hb & Ht & ->).
    unfold pybin_match. rewrite strip_prefix_app.
    destruct a as [|d a]; [congruence|]. cbn [all_digits] in Ha. apply andb_prop in Ha as [Hd Ha].
    destruct b as [|e b]; [congruence|]. cbn [all_digits] in Hb. apply andb_prop in Hb as [He Hb].
    cbn [digits1 String.append]. rewrite Hd. rewrite skip_digits_app by exact Ha.
    cbn [String.append skip_digits]. change (is_digit ".") with false. cbv iota.
    cbn [digits1]. rewrite He, skip_digits_app by exact Hb.
    destruct Ht as [-> | ->]; reflexivity.
Qed.

Lemma startswith_inv (p s : string) : startswith p s = true -> exists t, s = p +:+ t.
Proof.
  unfold startswith. revert s. induction p as [|a p IH]; intros s H.
  - now exists s.
  - destruct s as [|b s]; cbn in H; [discriminate|].
    destruct (ascii_dec a b) as [<-|]; [|discriminate].
    destruct (IH s H) as [t ->]. now exists t.
Qed.

Lemma universal_newlines_head (c : ascii) (s x : string) :
  c <> CR -> c <> NL -> universal_newlines s = String c x ->
  exists y, s = String c y /\ universal_newlines y = x.
Proof.
  intros Hc Hn H. destruct s as [|c0 s]; cbn in H; [discriminate|].
  revert H. destruct (Ascii.eqb c0 CR) eqn:E.
  - destruct s as [|c1 s]; [intros H; injection H as <- _; congruence|].
    destruct (Ascii.eqb c1 NL); intros H; injection H as <- _; congruence.
  - intros H. injection H as <- <-. eauto.
Qed.

Lemma update_script_needs_directive (P data : string) :
  startswith "#!" data = false -> update_script P data = None.
Proof.
  intros H. unfold update_script, latin1_decode.
  destruct (split_lines (universal_newlines data)) as [|l0 rest] eqn:Hs; [reflexivity|].
  destruct (startswith "#!" l0) eqn:Hl; [|reflexivity].
  exfalso. apply startswith_inv in Hl as (t & ->).
  assert (Hu : universal_newlines data = String "#" (String "!" (t +:+ concat_lines rest))).
  { rewrite <- (concat_split_lines (universal_newlines data)), Hs. cbn [concat_lines]. now rewrite PyFacts.append_assoc_s. }
  destruct (universal_newlines_head "#" data _ ltac:(discriminate) ltac:(discriminate) Hu) as (y & -> & Hy).
  destruct (universal_newlines_head "!" y _ ltac:(discriminate) ltac:(discriminate) Hy) as (z & -> & _).
  change (String "#" (String "!" z)) with ("#!" +:+ z) in H.
  now rewrite startswith_app in H.
Qed.

Lemma update_entry_tag (P fn : string) (d : node) (tag data : string) (w : outcome unit) :
  update_entry P fn d = Ok (Some (tag, data, w)) ->
  tag = if is_activation_script fn then "A " else "S ".
Proof.
  unfold update_entry, update_data. destruct (read_file d); [|discriminate].
  destruct (is_activation_script fn).
  - destruct (Text.utf8_decode a); [|discriminate].
    destruct (Activation.sub_lines _ _) as [lines []]; [|discriminate].
    destruct (write_lines lines); intros H; congruence.
  - destruct (update_script P a); cbn; intros H; [congruence | discriminate].
Qed.

Lemma update_entry_isfile (P fn : string) (d : node) (o : option (string * string * outcome unit)) :
  update_entry P fn d = Ok o -> isfile (Some d) = true.
Proof.
  unfold update_entry. destruct (read_file d) as [x|] eqn:Hr; [|discriminate].
  intros _. exact (proj1 (proj2 (read_write_file d x x Hr))).
Qed.

Lemma update_scripts_shape (bin P : string) (es es1 : list (string * node))
    (r : outcome unit) (l : list effect) :
  update_scripts bin P es = (r, es1, l) ->
  names es1 = names es /\
  forall e, In e l -> exists fn, In fn (names es) /\
    (e = Print ((if is_activation_script fn then "A " else "S ") +:+ path_join bin [fn]) \/
     e = WriteFile (path_join bin [fn])).
Proof.
  revert es1 r l. induction es as [|[fn d] es IH]; intros es1 r l H.
  - cbn in H. injection H as <- <- <-. split; [reflexivity | intros e []].
  - cbn [update_scripts] in H.
    destruct (update_entry P fn d) as [[[[tag data] [u|ew]]|]|ex] eqn:He.
    + destruct (update_scripts bin P es) as [[r' es''] l'] eqn:Hs. injection H as <- <- <-.
      destruct (IH _ _ _ eq_refl) as [Hn Hl]. split; [cbn; unfold names in Hn; now rewrite Hn|].
      rewrite (update_entry_tag P fn d tag data _ He).
      intros e [<-|[<-|Hi]].
      * exists fn. split; [now left | now left].
      * exists fn. split; [now left | now right].
      * destruct (Hl e Hi) as (fn' & Hin & Hor). exists fn'. split; [now right | exact Hor].
    + injection H as <- <- <-. split; [reflexivity|].
      rewrite (update_entry_tag P fn d tag data _ He).
      intros e [<-|[<-|[]]].
      * exists fn. split; [now left | now left].
      * exists fn. split; [now left | now right].
    + destruct (update_scripts bin P es) as [[r' es''] l'] eqn:Hs. injection H as <- <- <-.
      destruct (IH _ _ _ eq_refl) as [Hn Hl]. split; [cbn; unfold names in Hn; now rewrite Hn|].
      intros e Hi. destruct (Hl e Hi) as (fn' & Hin & Hor). exists fn'. split; [now right | exact Hor].
    + injection H as <- <- <-. split; [reflexivity | intros e []].
Qed.

Lemma update_scripts_ok_files (bin P : string) (es es1 : list (string * node)) (l : list effect) :
  update_scripts bin P es = (Ok tt, es1, l) -> Forall (fun ne => isfile (Some (snd ne)) = true) es.
Proof.
  revert es1 l. induction es as [|[fn d] es IH]; intros es1 l H; [constructor|].
  cbn [update_scripts] in H.
  destruct (update_entry P fn d) as [[[[tag data] [u|ew]]|]|ex] eqn:He.
  - destruct (update_scripts bin P es) as [[r' es''] l'] eqn:Hs. injection H as -> _ _.
    constructor; [exact (update_entry_isfile _ _ _ _ He) | exact (IH _ _ eq_refl)].
  - discriminate.
  - destruct (update_scripts bin P es) as [[r' es''] l'] eqn:Hs. injection H as -> _ _.
    constructor; [exact (update_entry_isfile _ _ _ _ He) | exact (IH _ _ eq_refl)].
  - discriminate.
Qed.

Lemma walk_entries_rerun (p : string) (es : list (string * node)) :
  Forall (fun ne => rerun_ok (snd ne)) es ->
  forall es' lf ld, walk_entries walk_remove p es = (es', lf, ld) ->
  walk_entries walk_remove p es' = (es', [], []).
Proof.
  induction 1 as [|[nm e] es He Hes IH]; intros es' lf ld H.
  - cbn in H. injection H as <- <- <-. reflexivity.
  - rewrite walk_entries_cons in H. cbv zeta in H.
    destruct (walk_entries walk_remove p es) as [[rest lf0] ld0] eqn:Hw.
    specialize (IH _ _ _ eq_refl). cbn [snd] in He.
    destruct (is_dir_entry e) eqn:Hd.
    + destruct e as [data|es0|t st]; try discriminate.
      * destruct (walk_remove_dir (path_join p [nm]) es0) as [es1 H1].
        destruct (walk_remove (path_join p [nm]) (Dir es0)) as [e' l] eqn:Hr.
        cbn [fst] in H1. subst e'. injection H as <- <- <-.
        rewrite walk_entries_cons, IH. cbv zeta. cbn [is_dir_entry follow]. cbv iota.
        rewrite (He _ _ _ Hr). reflexivity.
      * injection H as <- <- <-. rewrite walk_entries_cons, IH. cbv zeta. rewrite Hd. reflexivity.
    + destruct (is_pyc nm) eqn:Hp.
      * injection H as <- <- <-. exact IH.
      * injection H as <- <- <-. rewrite walk_entries_cons, IH. cbv zeta. rewrite Hd, Hp. reflexivity.
Qed.

Lemma walk_remove_rerun (d : node) : rerun_ok d.
Proof.
  induction d as [data|es Hes|t st] using node_ind_deep; intros p d' l H.
  - cbn in H. injection H as <- _. reflexivity.
  - cbn [walk_remove] in H. destruct (walk_entries walk_remove p es) as [[es' lf] ld] eqn:Hw.
    injection H as <- _. cbn [walk_remove]. rewrite (walk_entries_rerun p es Hes _ _ _ Hw). reflexivity.
  - cbn in H. injection H as <- _. reflexivity.
Qed.

Lemma remove_pycs_rerun (p : string) (d d' : node) (l : list effect) :
  remove_pycs p d = (d', l) -> remove_pycs p d' = (d', []).
Proof.
  destruct d as [data|es|t [[data|es|t' s']|]]; cbn [remove_pycs]; intros H;
    try (injection H as <- <-; reflexivity).
  - destruct (walk_remove_dir p es) as [es1 H1].
    destruct (walk_remove p (Dir es)) as [d0 l0] eqn:Hr. cbn [fst] in H1. subst d0.
    injection H as <- <-. cbn [remove_pycs]. exact (walk_remove_rerun _ _ _ _ Hr).
  - destruct (walk_remove_dir p es) as [es1 H1].
    destruct (walk_remove p (Dir es)) as [d0 l0] eqn:Hr. cbn [fst] in H1. subst d0.
    injection H as <- <-. cbn [remove_pycs]. rewrite (walk_remove_rerun _ _ _ _ Hr). reflexivity.
Qed.

Lemma update_local_entry_linked (base : string) (rt es : list (string * node)) (folder : string) :
  linked folder (fst (update_local_entry base rt es folder)).
Proof.
  intros t s. rewrite (proj1 (update_local_entry_self base rt es folder)).
  destruct (lookup folder es) as [[data|es0|t0 s0]|]; try discriminate.
  destruct (String.eqb t0 ("../" +:+ folder)) eqn:E; intros H; injection H as <- _;
    [now apply String.eqb_eq | reflexivity].
Qed.

Lemma update_local_entry_keeps (base : string) (rt es : list (string * node)) (folder m : string) :
  folder <> m -> linked m es -> linked m (fst (update_local_entry base rt es folder)).
Proof. intros Hne Hl t s. rewrite update_local_entry_other by exact Hne. apply Hl. Qed.

Lemma update_local_entry_noop (base : string) (rt es : list (string * node)) (folder : string) :
  linked folder es -> update_local_entry base rt es folder = (es, []).
Proof.
  intros Hl. unfold update_local_entry.
  destruct (lookup folder es) as [[data|es0|t s]|] eqn:E; try reflexivity.
  rewrite (Hl t s E), String.eqb_refl. reflexivity.
Qed.

Lemma set_entry_lookup (n : string) (x : node) (es : list (string * node)) :
  lookup n es = Some x -> set_entry n x es = es.
Proof.
  induction es as [|[m d] es IH]; cbn; [discriminate|].
  destruct (String.eqb m n) eqn:E; intros H.
  - injection H as ->. apply String.eqb_eq in E as ->. reflexivity.
  - now rewrite IH.
Qed.

Lemma update_local_rerun (base : string) (rt rt' : list (string * node)) (l : list effect) :
  update_local base rt = (rt', l) -> update_local base rt' = (rt', []).
Proof.
  intros H. unfold update_local in H.
  destruct (lookup "local" rt) as [loc|] eqn:Hloc.
  2:{ injection H as <- _. unfold update_local. rewrite Hloc. reflexivity. }
  destruct (isdir (Some loc)) eqn:Hd.
  2:{ injection H as <- _. unfold update_local. rewrite Hloc, Hd. reflexivity. }
  unfold LOCAL_FOLDERS in H. cbn [fold_left] in H.
  set (es0 := listdir (Some loc)) in H.
  destruct (update_local_entry base rt es0 "bin") as [esA lA] eqn:HA.
  destruct (update_local_entry base rt esA "lib") as [esB lB] eqn:HB.
  destruct (update_local_entry base rt esB "include") as [esC lC] eqn:HC.
  injection H as <- _.
  assert (LA := update_local_entry_linked base rt es0 "bin"). rewrite HA in LA. cbn [fst] in LA.
  assert (LB := update_local_entry_linked base rt esA "lib"). rewrite HB in LB. cbn [fst] in LB.
  assert (LC := update_local_entry_linked base rt esB "include"). rewrite HC in LC. cbn [fst] in LC.
  assert (LA' : linked "bin" esC).
  { assert (X := update_local_entry_keeps base rt esB "include" "bin" ltac:(discriminate)).
    rewrite HC in X. apply X.
    assert (Y := update_local_entry_keeps base rt esA "lib" "bin" ltac:(discriminate)).
    rewrite HB in Y. apply Y. exact LA. }
  assert (LB' : linked "lib" esC).
  { assert (X := update_local_entry_keeps base rt esB "include" "lib" ltac:(discriminate)).
    rewrite HC in X. apply X. exact LB. }
  destruct (listdir_with_entries loc esC Hd) as [Hls Hdir].
  assert (Hl : lookup "local" (set_entry "local" (with_entries loc esC) rt) = Some (with_entries loc esC))
    by (apply lookup_set_entry_eq; congruence).
  unfold update_local. rewrite Hl, Hdir, Hls. unfold LOCAL_FOLDERS. cbn [fold_left].
  rewrite (update_local_entry_noop _ _ esC "bin" LA'). cbv beta iota.
  rewrite (update_local_entry_noop _ _ esC "lib" LB'). cbv beta iota.
  rewrite (update_local_entry_noop _ _ esC "include" LC). cbv beta iota.
  rewrite with_entries_idem, (set_entry_lookup _ _ _ Hl). reflexivity.
Qed.

Lemma reinit_false_iff (path sp : string) (st : proc) :
  let '(r, st', l) := reinitialize_virtualenv path sp st in
  (r = Ok (Some false) <->
   isdir (lookup "lib" (root st)) = false \/ first_match (names (listdir (lookup "lib" (root st)))) = None) /\
  (r = Ok (Some false) -> exists msg, l = [Print msg]).
Proof.
  unfold reinitialize_virtualenv.
  destruct (isdir (lookup "lib" (root st))) eqn:Hd; cbn [negb].
  2:{ split; [tauto | eauto]. }
  destruct (first_match (names (listdir (lookup "lib" (root st))))) as [py|] eqn:Hf.
  2:{ split; [tauto | eauto]. }
  cbv zeta. destruct (isdir (lookup py (listdir (lookup "lib" (root st))))); cbn [negb].
  - split; [split; [discriminate | intros [H|H]; discriminate H] | discriminate].
  - split; [split; [discriminate | intros [H|H]; discriminate H] | discriminate].
Qed.

Lemma reinit_raise (path sp : string) (st : proc) (py_ver : string) (d : node) :
  isdir (lookup "lib" (root st)) = true ->
  first_match (names (listdir (lookup "lib" (root st)))) = Some py_ver ->
  lookup py_ver (listdir (lookup "lib" (root st))) = Some d -> isdir (Some d) = false ->
  reinitialize_virtualenv path sp st =
    (Raise (match follow d with Some _ => NotADirectoryError | None => FileNotFoundError end), st, []).
Proof.
  intros Hd Hf Hl Hn. unfold reinitialize_virtualenv. rewrite Hd, Hf. cbv zeta. cbn [negb].
  rewrite Hl, Hn. reflexivity.
Qed.

Ltac split_main H :=
  repeat (match type of H with
          | context [match ?x with _ => _ end] => destruct x eqn:?
          end; cbv beta iota in H).

Lemma main_exit_code (run : list string -> gmap string string -> proc -> proc)
    (sp up : option string) (st st' : proc) (n : nat) (l : list effect) :
  main run sp up st = (Ok n, st', l) -> (n = 0 \/ n = 1) /\ (truthy up = false -> n = 0).
Proof.
  unfold main. intros H. split_main H; try discriminate H.
  all: injection H as <- _ _; split; [lia | intros Hf; try discriminate Hf; reflexivity].
Qed.

Lemma main_relative_path (run : list string -> gmap string string -> proc -> proc)
    (sp : option string) (p : string) (st : proc) :
  truthy sp = false -> p <> "" -> isabs p = false ->
  main run sp (Some p) st =
    (Ok 1, st, [Print ("Update path: " +:+ p); Print ("error: " +:+ p +:+ " is not an absolute path")]).
Proof.
  intros Hs Hp Ha. unfold main.
  destruct sp as [s|]; [rewrite Hs|]; cbv beta iota;
    (destruct p as [|c p]; [congruence|]; cbn [truthy]; unfold update_paths; rewrite Ha; reflexivity).
Qed.

End ExtraFacts.

(* ------------------------------------------------------------------ *)
(** ** [update_paths] run twice, on the resolving file system *)

Module PosixFacts.
Import Py FS Tools Posix.

(** The state after a computation and how it ends. *)
Definition st {A : Type} (m : M A) (s : state) : state := snd (fst (m s)).
Definition res {A : Type} (m : M A) (s : state) : outcome A := fst (fst (m s)).

Lemma st_bind {A B : Type} (m : M A) (k : A -> M B) (s : state) :
  st (m ≫= k) s = match res m s with Ok x => st (k x) (st m s) | Raise _ => st m s end.
Proof.
  unfold st, res, mbind, M_bind. destruct (m s) as [[[x|e] s1] o1]; [|reflexivity].
  cbn. destruct (k x s1) as [[r s2] o2]. reflexivity.
Qed.

Lemma res_bind {A B : Type} (m : M A) (k : A -> M B) (s : state) :
  res (m ≫= k) s = match res m s with Ok x => res (k x) (st m s) | Raise e => Raise e end.
Proof.
  unfold st, res, mbind, M_bind. destruct (m s) as [[[x|e] s1] o1]; [|reflexivity].
  cbn. destruct (k x s1) as [[r s2] o2]. reflexivity.
Qed.

(** Computations that leave the state alone. *)
Definition readonly {A : Type} (m : M A) : Prop := forall s, st m s = s.

Lemma st_bind_ro {A B : Type} (m : M A) (k : A -> M B) (s : state) :
  readonly m -> st (m ≫= k) s = match res m s with Ok x => st (k x) s | Raise _ => s end.
Proof. intros H. rewrite st_bind, H. destruct (res m s); reflexivity. Qed.

Lemma readonly_bind {A B : Type} (m : M A) (k : A -> M B) :
  readonly m -> (forall x, readonly (k x)) -> readonly (m ≫= k).
Proof. intros Hm Hk s. rewrite st_bind, Hm. destruct (res m s); [apply Hk | reflexivity]. Qed.

Lemma readonly_query {A : Type} (f : state -> A) : readonly (query f).
Proof. intros s. reflexivity. Qed.

Lemma readonly_ret {A : Type} (x : A) : readonly (mret x).
Proof. intros s. reflexivity. Qed.

Lemma readonly_print (line : string) : readonly (print line).
Proof. intros s. reflexivity. Qed.

Lemma readonly_skip : readonly skip.
Proof. intros s. reflexivity. Qed.

Lemma readonly_listdir (path : string) : readonly (listdir path).
Proof.
  intros s. unfold st, listdir. destruct (locate true s path); [|reflexivity].
  destruct (get (fs s) a) as [[]|]; reflexivity.
Qed.

Lemma readonly_readlink (path : string) : readonly (readlink path).
Proof.
  intros s. unfold st, readlink. destruct (locate false s path); [|reflexivity].
  destruct (get (fs s) a) as [[]|]; reflexivity.
Qed.

(** Invariants of the state. *)
Definition keeps (Q : state -> Prop) {A : Type} (m : M A) : Prop :=
  forall s, Q s -> Q (st m s).

Lemma keeps_bind {A B : Type} (Q : state -> Prop) (m : M A) (k : A -> M B) :
  keeps Q m -> (forall x, keeps Q (k x)) -> keeps Q (m ≫= k).
Proof.
  intros Hm Hk s Hs. rewrite st_bind. destruct (res m s); [apply Hk|]; apply Hm, Hs.
Qed.

Lemma keeps_readonly {A : Type} (Q : state -> Prop) (m : M A) : readonly m -> keeps Q m.
Proof. intros H s Hs. now rewrite H. Qed.

Lemma keeps_for_each {A : Type} (Q : state -> Prop) (l : list A) (body : A -> M unit) :
  (forall x, keeps Q (body x)) -> keeps Q (for_each l body).
Proof.
  intros H. induction l as [|x l IH]; cbn [for_each].
  - apply keeps_readonly, readonly_skip.
  - apply keeps_bind; [apply H | intros _; exact IH].
Qed.

(* ------------------------------------------------------------------ *)
(** The tree *)

Lemma get_app (t : node) (p r : list string) :
  get t (p ++ r) = match get t p with Some c => get c r | None => None end.
Proof.
  revert t; induction p as [|a p IH]; intros t; [reflexivity|].
  destruct t as [d|es|tg]; cbn; try reflexivity.
  destruct (lookup a es); [apply IH | reflexivity].
Qed.

Lemma get_nondir (n : node) (r : list string) :
  r <> [] -> (forall es, n <> Dir es) -> get n r = None.
Proof.
  destruct r as [|a r]; [congruence|]. intros _ H.
  destruct n as [d|es|tg]; try reflexivity. exfalso; exact (H es eq_refl).
Qed.

Lemma alter_cons (es : list (string * node)) (a : string) (p : list string)
    (f : option node -> option node) :
  p <> [] -> alter (Dir es) (a :: p) f = Dir (alter_entry a (option_map (fun c => alter c p f)) es).
Proof. destruct p; [congruence|]. reflexivity. Qed.

Lemma lookup_In (a : string) (es : list (string * node)) (c : node) :
  lookup a es = Some c -> In (a, c) es.
Proof.
  induction es as [|[n d] es IH]; cbn; [discriminate|].
  destruct (String.eqb_spec n a) as [->|_]; [intros H; injection H as ->; now left|].
  intros H; right; exact (IH H).
Qed.

Lemma lookup_names (a : string) (es : list (string * node)) (c : node) :
  lookup a es = Some c -> In a (map fst es).
Proof. intros H. apply lookup_In in H. apply in_map_iff. now exists (a, c). Qed.

Lemma lookup_notin (a : string) (es : list (string * node)) :
  ~ In a (map fst es) -> lookup a es = None.
Proof.
  induction es as [|[n d] es IH]; cbn; [reflexivity|]. intros H.
  destruct (String.eqb_spec n a) as [->|_]; [exfalso; apply H; now left|].
  apply IH. intros H'. apply H. now right.
Qed.

Lemma lookup_mid (a : string) (done rest : list (string * node)) (x : node) :
  ~ In a (map fst done) -> lookup a (done ++ (a, x) :: rest) = Some x.
Proof.
  induction done as [|[n d] done IH]; cbn; intros H.
  - now rewrite String.eqb_refl.
  - destruct (String.eqb_spec n a) as [->|_]; [exfalso; apply H; now left|].
    apply IH. intros H'. apply H. now right.
Qed.

Lemma lookup_alter_entry_other (a b : string) (f : option node -> option node)
    (es : list (string * node)) :
  a <> b -> lookup b (alter_entry a f es) = lookup b es.
Proof.
  intros Hab. induction es as [|[n d] es IH]; cbn.
  - destruct (f None); cbn; [|reflexivity].
    destruct (String.eqb_spec a b); [congruence | reflexivity].
  - destruct (String.eqb_spec n a) as [->|Hna].
    + destruct (String.eqb_spec a b) as [|_]; [congruence|].
      destruct (f (Some d)); cbn; [|reflexivity].
      destruct (String.eqb_spec a b); [congruence | reflexivity].
    + cbn. destruct (String.eqb n b); [reflexivity | exact IH].
Qed.

Lemma lookup_alter_entry_map (a : string) (g : node -> node) (es : list (string * node)) :
  lookup a (alter_entry a (option_map g) es) = option_map g (lookup a es).
Proof.
  induction es as [|[n d] es IH]; cbn; [reflexivity|].
  destruct (String.eqb_spec n a) as [->|Hna]; cbn.
  - now rewrite String.eqb_refl.
  - destruct (String.eqb_spec n a); [congruence | exact IH].
Qed.

Lemma lookup_alter_entry_same (a : string) (f : option node -> option node)
    (es : list (string * node)) :
  NoDup (map fst es) -> lookup a (alter_entry a f es) = f (lookup a es).
Proof.
  induction es as [|[n d] es IH]; cbn; intros Hnd.
  - destruct (f None); cbn; [now rewrite String.eqb_refl | reflexivity].
  - apply NoDup_cons in Hnd as [Hn Hnd].
    destruct (String.eqb_spec n a) as [->|Hna].
    + destruct (f (Some d)); cbn; [now rewrite String.eqb_refl|].
      apply lookup_notin. intros H. apply Hn, list_elem_of_In, H.
    + cbn. destruct (String.eqb_spec n a); [congruence | exact (IH Hnd)].
Qed.

Lemma names_alter_entry (a m : string) (f : option node -> option node)
    (es : list (string * node)) :
  In m (map fst (alter_entry a f es)) -> In m (map fst es) \/ m = a.
Proof.
  induction es as [|[n d] es IH]; cbn.
  - destruct (f None); cbn; [intros [->|[]]; now right | intros []].
  - destruct (String.eqb_spec n a) as [->|_].
    + destruct (f (Some d)); cbn; [intros [->|H]; [now right | left; now right]|].
      intros H; left; now right.
    + cbn. intros [->|H]; [left; now left|]. destruct (IH H); [left; now right | now right].
Qed.

Lemma NoDup_alter_entry (a : string) (f : option node -> option node) (es : list (string * node)) :
  NoDup (map fst es) -> NoDup (map fst (alter_entry a f es)).
Proof.
  induction es as [|[n d] es IH]; cbn; intros Hnd.
  - destruct (f None); cbn; [apply NoDup_singleton | apply NoDup_nil_2].
  - apply NoDup_cons in Hnd as [Hn Hnd].
    destruct (String.eqb_spec n a) as [->|Hna].
    + destruct (f (Some d)); cbn; [now apply NoDup_cons_2 | exact Hnd].
    + cbn. apply NoDup_cons_2; [|exact (IH Hnd)].
      intros H%list_elem_of_In. destruct (names_alter_entry a n f es H) as [H'|]; [|congruence].
      apply Hn, list_elem_of_In, H'.
Qed.

Lemma Forall_alter_entry (R : node -> Prop) (a : string) (f : option node -> option node)
    (es : list (string * node)) :
  Forall (fun ne => R (snd ne)) es ->
  (forall o x, f o = Some x -> (forall d, o = Some d -> R d) -> R x) ->
  Forall (fun ne => R (snd ne)) (alter_entry a f es).
Proof.
  intros Hes Hf. induction Hes as [|[n d] es Hd Hes IH]; cbn.
  - destruct (f None) eqn:E; [|constructor].
    constructor; [|constructor]. apply (Hf None); [exact E | discriminate].
  - destruct (String.eqb n a).
    + destruct (f (Some d)) eqn:E; [|exact Hes].
      constructor; [|exact Hes]. apply (Hf (Some d)); [exact E|]. intros d' Hd'. now injection Hd' as <-.
    + constructor; [exact Hd | exact IH].
Qed.

Lemma wf_Dir (es : list (string * node)) :
  wf (Dir es) <-> NoDup (map fst es) /\ Forall (fun ne => wf (snd ne)) es.
Proof.
  cbn [wf]. apply and_iff_compat_l.
  induction es as [|[n c] es IH]; cbn.
  - split; [constructor | trivial].
  - rewrite IH. split; [intros [H1 H2]; constructor; assumption|].
    intros H; inversion H; split; assumption.
Qed.

Lemma wf_get (t : node) (p : list string) (c : node) :
  wf t -> get t p = Some c -> wf c.
Proof.
  revert t; induction p as [|a p IH]; intros t Ht H; [injection H as <-; exact Ht|].
  destruct t as [d|es|tg]; try discriminate H. cbn [get] in H.
  destruct (lookup a es) as [c0|] eqn:E; [|discriminate H].
  apply (IH c0); [|exact H].
  apply wf_Dir in Ht as [_ Ht]. apply lookup_In in E.
  exact (proj1 (List.Forall_forall _ _) Ht _ E).
Qed.

Lemma wf_alter (t : node) (q : list string) (f : option node -> option node) :
  wf t -> (forall o x, f o = Some x -> wf x) -> wf (alter t q f).
Proof.
  revert t; induction q as [|a q IH]; intros t Ht Hf; [destruct t; exact Ht|].
  destruct t as [d|es|tg]; try exact Ht.
  cbn [alter]. apply wf_Dir in Ht as [Hnd Hall]. apply wf_Dir. split.
  - now apply NoDup_alter_entry.
  - apply Forall_alter_entry; [exact Hall|]. intros o x Ho Hd.
    destruct q as [|b q].
    + exact (Hf o x Ho).
    + destruct o as [d|]; [|discriminate Ho]. injection Ho as <-.
      apply IH; [exact (Hd d eq_refl) | exact Hf].
Qed.

(** Two physical paths: one extends the other, or they part. *)
Lemma prefix_cases (x q : list string) :
  (exists r, x = q ++ r) \/ (exists r, q = x ++ r /\ r <> []) \/
  ((forall r, x <> q ++ r) /\ (forall r, q <> x ++ r)).
Proof.
  revert q; induction x as [|b x IH]; intros q.
  - destruct q as [|a q]; [left; now exists []|].
    right; left; exists (a :: q); split; [reflexivity | discriminate].
  - destruct q as [|a q]; [left; now exists (b :: x)|].
    destruct (string_dec a b) as [<-|Hab].
    + destruct (IH q) as [(r & ->)|[(r & -> & Hr)|(H1 & H2)]].
      * left; now exists r.
      * right; left; now exists r.
      * right; right; split; intros r E; injection E as E; [apply (H1 r) | apply (H2 r)]; exact E.
    + right; right; split; intros r E; injection E as E1 _; congruence.
Qed.

Lemma get_alter_disjoint (t : node) (q x : list string) (f : option node -> option node) :
  (forall r, x <> q ++ r) -> (forall r, q <> x ++ r) -> get (alter t q f) x = get t x.
Proof.
  revert t x; induction q as [|a q IH]; intros t x H1 H2.
  - exfalso; exact (H1 x eq_refl).
  - destruct x as [|b x]; [exfalso; exact (H2 (a :: q) eq_refl)|].
    destruct t as [d|es|tg]; try reflexivity.
    destruct (string_dec a b) as [<-|Hab].
    + assert (Hq : q <> []) by (intros ->; exact (H1 x eq_refl)).
      rewrite alter_cons by exact Hq. cbn [get]. rewrite lookup_alter_entry_map.
      destruct (lookup a es) as [c|]; cbn; [|reflexivity].
      apply IH; intros r E; [apply (H1 r) | apply (H2 r)]; cbn; congruence.
    + cbn [alter get]. rewrite lookup_alter_entry_other by exact Hab. reflexivity.
Qed.

Lemma get_alter_same (t : node) (q : list string) (f : option node -> option node) :
  wf t -> q <> [] -> get t q <> None -> get (alter t q f) q = f (get t q).
Proof.
  revert t; induction q as [|a q IH]; intros t Ht Hq Hg; [congruence|].
  destruct t as [d|es|tg]; try (exfalso; apply Hg; reflexivity).
  pose proof Ht as Ht'. apply wf_Dir in Ht' as [Hnd Hall].
  destruct q as [|b q].
  - change (alter (Dir es) [a] f) with (Dir (alter_entry a f es)). cbn [get].
    rewrite (lookup_alter_entry_same a f es Hnd).
    destruct (lookup a es) as [c|]; cbn; [destruct (f (Some c)) | destruct (f None)]; reflexivity.
  - rewrite alter_cons by discriminate. cbn [get]. rewrite lookup_alter_entry_map.
    cbn [get] in Hg. destruct (lookup a es) as [c|] eqn:E; [|congruence]. cbn.
    apply IH; [|discriminate|exact Hg].
    apply (wf_get (Dir es) [a] c Ht). cbn. rewrite E. reflexivity.
Qed.

Lemma get_alter_ancestor (t : node) (x r : list string) (f : option node -> option node)
    (es : list (string * node)) :
  get t x = Some (Dir es) -> r <> [] -> exists es', get (alter t (x ++ r) f) x = Some (Dir es').
Proof.
  revert t; induction x as [|b x IH]; intros t Hx Hr.
  - injection Hx as ->. destruct r as [|a r]; [congruence|]. cbn [app alter get]. eexists; reflexivity.
  - destruct t as [d|es0|tg]; try discriminate Hx. cbn [get] in Hx.
    destruct (lookup b es0) as [c|] eqn:E; [|discriminate Hx].
    cbn [app]. rewrite alter_cons by (destruct x; cbn; [exact Hr | discriminate]).
    cbn [get]. rewrite lookup_alter_entry_map, E. cbn. exact (IH c Hx Hr).
Qed.

(** A change below [bp]: the listing of [bp] has its entry [a] changed. *)
Lemma get_alter_below (t : node) (bp p : list string) (a : string)
    (f : option node -> option node) (B : list (string * node)) :
  get t bp = Some (Dir B) ->
  get (alter t (bp ++ a :: p) f) bp =
  Some (Dir (alter_entry a (fun o => match p with
                                     | [] => f o
                                     | _ => option_map (fun c => alter c p f) o
                                     end) B)).
Proof.
  revert t; induction bp as [|b bp IH]; intros t H.
  - injection H as ->. reflexivity.
  - destruct t as [d|es0|tg]; try discriminate H. cbn [get] in H.
    destruct (lookup b es0) as [c|] eqn:E; [|discriminate H].
    cbn [app]. rewrite alter_cons by (destruct bp; discriminate).
    cbn [get]. rewrite lookup_alter_entry_map, E. cbn. exact (IH c H).
Qed.

Lemma alter_entry_files (a : string) (p : list string) (f : option node -> option node)
    (B : list (string * node)) :
  p <> [] -> Forall (fun ne => match snd ne with File _ => True | _ => False end) B ->
  alter_entry a (fun o => match p with
                          | [] => f o
                          | _ => option_map (fun c => alter c p f) o
                          end) B = B.
Proof.
  intros Hp HB. destruct p as [|b p]; [congruence|].
  induction HB as [|[n d] B Hd HB IH]; [reflexivity|]. cbn.
  destruct (String.eqb n a); [|now rewrite IH].
  destruct d as [data|es|tg]; cbn in Hd; try contradiction. reflexivity.
Qed.

(** A change at [q] leaves the listing of [bp], whose entries are files,
    alone when [q] is not [bp], not a directory on the way to [bp], and
    not an entry of [bp]. *)
Lemma alter_frame (t : node) (bp q : list string) (f : option node -> option node)
    (B : list (string * node)) :
  get t bp = Some (Dir B) ->
  Forall (fun ne => match snd ne with File _ => True | _ => False end) B ->
  (forall es, get t q <> Some (Dir es)) -> (forall fn, q <> bp ++ [fn]) ->
  get (alter t q f) bp = Some (Dir B).
Proof.
  intros Hb HB Hq Hfn.
  destruct (prefix_cases bp q) as [(r & ->)|[(r & -> & Hr)|(H1 & H2)]].
  - exfalso. rewrite get_app in Hb. destruct (get t q) as [n|] eqn:E; [|discriminate Hb].
    destruct r as [|a r].
    + injection Hb as ->. exact (Hq B eq_refl).
    + destruct n as [d|es|tg]; try discriminate Hb. exact (Hq es eq_refl).
  - destruct r as [|a [|b p]]; [congruence | exfalso; exact (Hfn a eq_refl)|].
    rewrite (get_alter_below t bp (b :: p) a f B Hb). f_equal. f_equal.
    exact (alter_entry_files a (b :: p) f B ltac:(discriminate) HB).
  - rewrite get_alter_disjoint; [exact Hb | exact H1 | exact H2].
Qed.

(** What resolution looks at: the kind of an entry, and a link's
    target. *)
Definition kind (o : option node) : option node :=
  match o with Some (Dir _) => Some (Dir []) | _ => o end.

(** After unlinking a file or a link at [q], every other path shows the
    same kind of entry as before. *)
Lemma removal_kind (t : node) (q x : list string) :
  wf t -> q <> [] -> get t q <> None -> (forall es, get t q <> Some (Dir es)) -> x <> q ->
  kind (get (alter t q (fun _ => None)) x) = kind (get t x).
Proof.
  intros Hwf Hq Hg Hnd Hx.
  destruct (prefix_cases x q) as [(r & ->)|[(r & -> & Hr)|(H1 & H2)]].
  - assert (Hr : r <> []) by (intros ->; apply Hx; apply app_nil_r).
    rewrite !get_app, (get_alter_same t q _ Hwf Hq Hg).
    destruct (get t q) as [n|]; [|reflexivity].
    rewrite get_nondir; [reflexivity | exact Hr | intros es ->; exact (Hnd es eq_refl)].
  - rewrite get_app in Hg, Hnd. destruct (get t x) as [n|] eqn:E; [|congruence].
    destruct n as [d|es|tg]; try (exfalso; apply Hg; apply get_nondir; [exact Hr | discriminate]).
    destruct (get_alter_ancestor t x r (fun _ => None) es E Hr) as (es' & ->). reflexivity.
  - rewrite get_alter_disjoint; [reflexivity | exact H1 | exact H2].
Qed.

(* ------------------------------------------------------------------ *)
(** Path resolution *)

Section Back.
Variables (t t' : node) (q : list string).
Hypothesis Hq : get t' q = None.
Hypothesis Hqt : forall es, get t q <> Some (Dir es).
Hypothesis Hk : forall x, x <> q -> kind (get t' x) = kind (get t x).

Lemma resolve_go_back (jump jump' : list string -> list string -> outcome (list string)) :
  (forall cur comps p, jump' cur comps = Ok p -> jump cur comps = Ok p) ->
  forall comps cur p, resolve_go jump' t' false cur comps = Ok p ->
  resolve_go jump t false cur comps = Ok p.
Proof.
  intros Hj comps. induction comps as [|c rest IH]; intros cur p H; [exact H|].
  cbn [resolve_go] in H |- *.
  destruct (String.eqb c "" || String.eqb c "."); [exact (IH _ _ H)|].
  destruct (String.eqb c ".."); [exact (IH _ _ H)|].
  destruct (decide (cur ++ [c] = q)) as [Eq|Ne].
  - rewrite Eq, Hq in H. rewrite Eq. destruct rest; [|discriminate H]. injection H as <-.
    destruct (get t q) as [[d|es|tg]|]; reflexivity.
  - pose proof (Hk _ Ne) as K.
    destruct (get t' (cur ++ [c])) as [[d|es|tg]|], (get t (cur ++ [c])) as [[d'|es'|tg']|];
      cbn in K; try discriminate K; try (injection K as <-);
      destruct rest; try exact H; try exact (IH _ _ H); exact (Hj _ _ _ H).
Qed.

Lemma resolve_back (L : nat) :
  forall cur comps p, resolve L t' false cur comps = Ok p -> resolve L t false cur comps = Ok p.
Proof.
  induction L as [|L IH]; intros cur comps p; cbn [resolve]; apply resolve_go_back.
  - intros ? ? ? H. discriminate H.
  - exact IH.
Qed.
End Back.

Lemma resolve_go_last (jump : list string -> list string -> outcome (list string)) (t : node)
    (c : string) (p : list string) :
  (String.eqb c "" || String.eqb c ".") = false -> String.eqb c ".." = false ->
  (forall cur' l', jump cur' (l' ++ [c]) = Ok p -> exists pre, p = pre ++ [c]) ->
  forall l cur, resolve_go jump t false cur (l ++ [c]) = Ok p -> exists pre, p = pre ++ [c].
Proof.
  intros Hc1 Hc2 Hj l. induction l as [|c0 l IH]; intros cur H.
  - cbn [app resolve_go] in H. rewrite Hc1, Hc2 in H.
    destruct (get t (cur ++ [c])) as [[d|es|tg]|]; injection H as <-; eauto.
  - cbn [app resolve_go] in H.
    destruct (String.eqb c0 "" || String.eqb c0 "."); [exact (IH _ H)|].
    destruct (String.eqb c0 ".."); [exact (IH _ H)|].
    destruct (l ++ [c]) as [|r0 rs] eqn:E; [exfalso; exact (app_cons_not_nil _ _ _ (eq_sym E))|].
    destruct (get t (cur ++ [c0])) as [[d|es|tg]|]; try discriminate H; [exact (IH _ H)|].
    rewrite <- E, app_assoc in H. exact (Hj _ _ H).
Qed.

Lemma resolve_last (L : nat) (t : node) (c : string) :
  (String.eqb c "" || String.eqb c ".") = false -> String.eqb c ".." = false ->
  forall l cur p, resolve L t false cur (l ++ [c]) = Ok p -> exists pre, p = pre ++ [c].
Proof.
  intros Hc1 Hc2. induction L as [|L IH]; intros l cur p; cbn [resolve];
    apply resolve_go_last; try assumption.
  - intros ? ? H. discriminate H.
  - intros cur' l' H. exact (IH _ _ _ H).
Qed.


(** Path strings *)

Lemma split_slash_cons (c : ascii) (s : string) :
  split_slash (String c s) =
  if Ascii.eqb c "/" then EmptyString :: split_slash s
  else match split_slash s with
       | x :: r' => String c x :: r'
       | [] => [String c EmptyString]
       end.
Proof. reflexivity. Qed.

Lemma split_slash_noslash (s : string) : has_char "/" s = false -> split_slash s = [s].
Proof.
  induction s as [|c s IH]; [reflexivity|]. rewrite split_slash_cons.
  intros H. change (has_char "/" (String c s)) with (Ascii.eqb "/" c || has_char "/" s) in H.
  apply orb_false_iff in H as [Hc Hs]. rewrite (IH Hs).
  destruct (Ascii.eqb_spec c "/") as [->|]; [discriminate Hc | reflexivity].
Qed.

Lemma split_slash_app_noslash (x y : string) :
  has_char "/" y = false ->
  exists l z, split_slash x = l ++ [z] /\ split_slash (x +:+ y) = l ++ [z +:+ y].
Proof.
  intros Hy. induction x as [|c x IH].
  - exists [], EmptyString. cbn. split; [reflexivity | exact (split_slash_noslash y Hy)].
  - destruct IH as (l & z & E1 & E2).
    change (String c x +:+ y) with (String c (x +:+ y)). rewrite !split_slash_cons, E1, E2.
    destruct (Ascii.eqb c "/").
    + exists (EmptyString :: l), z. split; reflexivity.
    + destruct l as [|w l].
      * exists [], (String c z). split; reflexivity.
      * exists (String c w :: l), z. split; reflexivity.
Qed.

Lemma substring_split (s : string) (k : nat) :
  k <= String.length s ->
  s = String.substring 0 k s +:+ String.substring k (String.length s - k) s.
Proof.
  revert k; induction s as [|a s IH]; intros k Hk.
  - destruct k; [reflexivity | cbn in Hk; lia].
  - destruct k as [|k].
    + cbn. f_equal. symmetry. apply PyFacts.substring_all.
    + cbn [String.substring String.length append]. cbn in Hk. f_equal. apply IH. lia.
Qed.

Lemma endswith_inv (p s : string) : endswith p s = true -> exists x, s = x +:+ p.
Proof.
  unfold endswith. intros H. apply andb_prop in H as [Hle He].
  apply Nat.leb_le in Hle. apply String.eqb_eq in He.
  exists (String.substring 0 (String.length s - String.length p) s).
  rewrite (substring_split s (String.length s - String.length p)) at 1 by lia.
  replace (String.length s - (String.length s - String.length p)) with (String.length p) by lia.
  now rewrite He.
Qed.

Lemma endswith_app (p x : string) : endswith p (x +:+ p) = true.
Proof.
  unfold endswith. rewrite PyFacts.length_app.
  replace (String.length x + String.length p - String.length p) with (String.length x + 0) by lia.
  rewrite PyFacts.substring_skip.
  replace (String.substring 0 (String.length p) p) with p by (symmetry; apply PyFacts.substring_all).
  rewrite String.eqb_refl, andb_true_r. apply Nat.leb_le. lia.
Qed.

Lemma join2_suffix (a b : string) : exists y, join2 a b = y +:+ b.
Proof.
  unfold join2. destruct (startswith "/" b); [now exists EmptyString|].
  destruct (String.eqb a EmptyString || endswith "/" a); [now exists a|].
  exists (a +:+ "/"). now rewrite PyFacts.append_assoc_s.
Qed.

(** A name of four characters or more is an ordinary component. *)
Lemma long_component (c : string) :
  4 <= String.length c ->
  (String.eqb c "" || String.eqb c ".") = false /\ String.eqb c ".." = false.
Proof.
  intros H. destruct (String.eqb_spec c ""), (String.eqb_spec c "."), (String.eqb_spec c "..");
    subst; cbn in H; try lia; split; reflexivity.
Qed.

(** [os.remove] on the path of a [.pyc] or [.pyo] file of a walked
    directory reaches an entry of that name. *)
Lemma locate_pyc (s : state) (top filename : string) (q : list string) :
  is_pyc filename = true -> locate false s (path_join top [filename]) = Ok q ->
  exists pre c, q = pre ++ [c] /\ is_pyc c = true.
Proof.
  intros Hp Hl. cbn [path_join fold_left] in Hl.
  destruct (join2_suffix top filename) as (y & Ey). rewrite Ey in Hl.
  assert (Hsfx : exists sfx x, filename = x +:+ sfx /\ has_char "/" sfx = false /\
                               String.length sfx = 4 /\ forall z, is_pyc (z +:+ sfx) = true).
  { unfold is_pyc in Hp. apply orb_true_iff in Hp as [H|H]; apply endswith_inv in H as (x & ->).
    - exists ".pyc", x. split; [reflexivity|]. split; [reflexivity|]. split; [reflexivity|].
      intros z. unfold is_pyc. now rewrite endswith_app.
    - exists ".pyo", x. split; [reflexivity|]. split; [reflexivity|]. split; [reflexivity|].
      intros z. unfold is_pyc. now rewrite endswith_app, orb_true_r. }
  destruct Hsfx as (sfx & x & -> & Hsl & Hlen & Hpyc).
  rewrite <- PyFacts.append_assoc_s in Hl.
  destruct (split_slash_app_noslash (y +:+ x) sfx Hsl) as (l & z & _ & E).
  unfold locate in Hl. rewrite E in Hl.
  assert (Hc : 4 <= String.length (z +:+ sfx)) by (rewrite PyFacts.length_app; lia).
  destruct (long_component _ Hc) as [H1 H2].
  destruct (resolve_last _ _ _ H1 H2 l _ q Hl) as (pre & ->).
  exists pre, (z +:+ sfx). split; [reflexivity | apply Hpyc].
Qed.

(** The paths of [bin/] and of its entries. *)
Lemma path_bin : path_join "." ["bin"] = "./bin".
Proof. reflexivity. Qed.

Lemma valid_name_parts (fn : string) :
  valid_name fn = true ->
  (String.eqb fn "" || String.eqb fn ".") = false /\ String.eqb fn ".." = false /\
  has_char "/" fn = false.
Proof.
  unfold valid_name. intros H. apply andb_prop in H as [H1 H2].
  apply negb_true_iff in H1, H2. apply orb_false_iff in H1 as [H1 H3].
  split; [exact H1 | split; assumption].
Qed.

Lemma split_bin_entry (fn : string) :
  valid_name fn = true ->
  split_slash (path_join (path_join "." ["bin"]) [fn]) = ["."; "bin"; fn] /\
  startswith "/" (path_join (path_join "." ["bin"]) [fn]) = false.
Proof.
  intros Hv. destruct (valid_name_parts fn Hv) as (H1 & _ & Hs).
  assert (Hst : startswith "/" fn = false).
  { destruct fn as [|c fn]; [discriminate H1|].
    change (has_char "/" (String c fn)) with (Ascii.eqb "/" c || has_char "/" fn) in Hs.
    apply orb_false_iff in Hs as [Hc _]. unfold startswith. cbn [String.prefix].
    destruct (Ascii.ascii_dec "/" c) as [<-|]; [discriminate Hc | reflexivity]. }
  rewrite path_bin. cbn [path_join fold_left]. unfold join2. rewrite Hst.
  change ("./bin" +:+ "/" +:+ fn)
    with (String "." (String "/" (String "b" (String "i" (String "n" (String "/" fn)))))).
  split; [|reflexivity].
  change (String.eqb "./bin" "" || endswith "/" "./bin") with false. cbv iota.
  rewrite !split_slash_cons, (split_slash_noslash fn Hs). reflexivity.
Qed.

Lemma locate_bin (fl : bool) (s : state) (B : list (string * node)) :
  get (fs s) (cwd s ++ ["bin"]) = Some (Dir B) ->
  locate fl s (path_join "." ["bin"]) = Ok (cwd s ++ ["bin"]).
Proof.
  intros H. rewrite path_bin. unfold locate. cbn [MAXSYMLINKS resolve].
  change (start (cwd s) "./bin") with (cwd s). change (split_slash "./bin") with ["."; "bin"].
  cbn [resolve_go]. cbn. rewrite H. reflexivity.
Qed.

Lemma locate_bin_entry (fl : bool) (s : state) (B : list (string * node)) (fn : string) (d : string) :
  get (fs s) (cwd s ++ ["bin"]) = Some (Dir B) -> valid_name fn = true ->
  lookup fn B = Some (File d) ->
  locate fl s (path_join (path_join "." ["bin"]) [fn]) = Ok ((cwd s ++ ["bin"]) ++ [fn]).
Proof.
  intros H Hv Hl. destruct (split_bin_entry fn Hv) as [Es Est].
  destruct (valid_name_parts fn Hv) as (H1 & H2 & _).
  unfold locate, start. rewrite Es, Est. cbn [MAXSYMLINKS resolve resolve_go]. cbn. rewrite H.
  cbn [resolve_go]. rewrite H1, H2. rewrite get_app, H. cbn [get]. rewrite Hl. reflexivity.
Qed.


(* ------------------------------------------------------------------ *)
(** The bytes [update_data] writes *)

Lemma encode_app (a b : list N) :
  Text.encode (a ++ b) =
  match Text.encode a, Text.encode b with Some x, Some y => Some (x ++ y) | _, _ => None end.
Proof.
  induction a as [|c a IH]; cbn [app Text.encode].
  - destruct (Text.encode b); reflexivity.
  - rewrite IH. destruct (Text.encode_char c), (Text.encode a), (Text.encode b); try reflexivity.
    now rewrite app_assoc.
Qed.

Lemma write_lines_ok (ls : list (list N)) :
  Forall (Forall Text.scalar) ls ->
  exists b, write_lines ls = (b, Ok tt) /\ Text.encode (List.concat ls) = Some b.
Proof.
  induction 1 as [|l ls Hl Hls IH]; [exists []; split; reflexivity|].
  destruct IH as (b' & E1 & E2). destruct (CodecFacts.encode_decode l Hl) as (b & Hb & _).
  exists (b ++ b'). cbn [write_lines List.concat]. rewrite Hb, E1, encode_app, Hb, E2.
  split; reflexivity.
Qed.

Lemma sub_lines_scalar (P text : list N) (lines : list (list N)) (ch : bool) :
  Forall Text.scalar P -> Forall Text.scalar text ->
  Activation.sub_lines P (Text.split_lines (Text.universal_newlines text)) = (lines, ch) ->
  Forall (Forall Text.scalar) lines.
Proof.
  intros HP Ht H. rewrite ActivationFacts.sub_lines_spec in H. injection H as <- _.
  apply List.Forall_map.
  assert (HNL : Text.scalar Text.NL) by (unfold Text.scalar, Text.NL; lia).
  pose proof (CodecFacts.Forall_split_lines _ _
               (CodecFacts.universal_newlines_Forall _ text HNL Ht)) as Hs.
  eapply List.Forall_impl; [|exact Hs]. intros l Hl. exact (ActivationFacts.Forall_sub _ P l HP Hl).
Qed.

(** Writing a changed file never raises: every line is text decoded
    from bytes, or the new path. *)
Lemma update_data_written (P fn d tag b : string) (r : outcome unit) :
  update_data P fn d = Ok (Some (tag, b, r)) -> r = Ok tt.
Proof.
  unfold update_data. destruct (is_activation_script fn).
  - destruct (Text.utf8_decode d) as [text|] eqn:Ed; [|discriminate].
    destruct (Activation.sub_lines _ _) as [lines ch] eqn:Es. destruct ch; [|discriminate].
    pose proof (sub_lines_scalar _ _ _ _ (CodecFacts.of_string_scalar P)
                  (CodecFacts.decode_scalar _ _ Ed) Es) as Hl.
    destruct (write_lines_ok lines Hl) as (b0 & Ew & _). rewrite Ew. intros H; congruence.
  - destruct (Script.update_script P d); cbn; intros H; congruence.
Qed.

Lemma no_space_line_break (P : string) (c : N) :
  c = Text.NL \/ c = Text.CR -> no_space P = true -> Text.has_char c (Text.of_string P) = false.
Proof.
  intros Hc. unfold Text.has_char, Text.of_string.
  induction P as [|a P IH]; intros H; [reflexivity|].
  change (no_space (String a P)) with (negb (Py.is_space a) && no_space P) in H.
  apply andb_prop in H as [Ha HP]. cbn [list_ascii_of_string map existsb].
  apply orb_false_iff. split; [|exact (IH HP)].
  destruct (N.eqb_spec c (Text.cp a)) as [E|]; [|reflexivity]. exfalso.
  assert (Hs : Py.is_space a = true).
  { unfold Py.is_space, nat_of_ascii. unfold Text.cp in E. rewrite <- E.
    destruct Hc as [-> | ->]; reflexivity. }
  rewrite Hs in Ha. discriminate Ha.
Qed.

(** What one run wrote is left alone by the next. *)
Lemma update_data_rerun (P fn d tag b : string) (r : outcome unit) :
  is_ascii P = true -> no_space P = true ->
  update_data P fn d = Ok (Some (tag, b, r)) -> update_data P fn b = Ok None.
Proof.
  intros Ha Hn. unfold update_data. destruct (is_activation_script fn).
  - destruct (Text.utf8_decode d) as [text|] eqn:Ed; [|discriminate].
    destruct (Activation.sub_lines _ _) as [lines ch] eqn:Es. destruct ch; [|discriminate].
    pose proof (sub_lines_scalar _ _ _ _ (CodecFacts.of_string_scalar P)
                  (CodecFacts.decode_scalar _ _ Ed) Es) as Hl.
    destruct (write_lines_ok lines Hl) as (b0 & Ew & Enc). rewrite Ew.
    intros H. injection H as _ <- _.
    assert (Hsc : Forall Text.scalar (List.concat lines)).
    { apply List.Forall_forall. intros x Hx. apply in_concat in Hx as (l & Hl1 & Hx).
      rewrite List.Forall_forall in Hl. exact (proj1 (List.Forall_forall _ _) (Hl l Hl1) x Hx). }
    destruct (CodecFacts.encode_decode _ Hsc) as (b1 & Eb1 & Hbytes & Hdec).
    rewrite Enc in Eb1. injection Eb1 as <-.
    unfold Text.utf8_decode. rewrite (CodecFacts.bytes_roundtrip _ Hbytes), Hdec.
    assert (Hu : Activation.update_activation_text (Text.of_string P) text = Some (List.concat lines)).
    { unfold Activation.update_activation_text. rewrite Es. reflexivity. }
    pose proof (ActivationFacts.activation_text_rerun _ _ _
                  (no_space_line_break P Text.NL (or_introl eq_refl) Hn)
                  (no_space_line_break P Text.CR (or_intror eq_refl) Hn) Hu) as Hr.
    unfold Activation.update_activation_text, Text.concat_lines in Hr.
    destruct (Activation.sub_lines (Text.of_string P)
                (Text.split_lines (Text.universal_newlines (List.concat lines)))) as [l2 []];
      [discriminate Hr | reflexivity].
  - destruct (Script.update_script P d) as [d1|] eqn:E; cbn; [|discriminate].
    intros H. injection H as _ <-.
    rewrite (RerunFacts.update_script_rerun P d d1 Ha Hn E). reflexivity.
Qed.

(** The listing of [bin/] after [update_scripts] went through the
    entries [es] in order: a file that is changed holds the bytes
    written, and the first that raises ends the loop. *)
Fixpoint run_entries (P : string) (es : list (string * node)) : list (string * node) :=
  match es with
  | [] => []
  | (fn, File d) :: es' =>
      match update_data P fn d with
      | Raise _ => es
      | Ok None => (fn, File d) :: run_entries P es'
      | Ok (Some (_, b, _)) => (fn, File b) :: run_entries P es'
      end
  | _ :: _ => es
  end.

Lemma run_entries_idem (P : string) (es : list (string * node)) :
  is_ascii P = true -> no_space P = true -> run_entries P (run_entries P es) = run_entries P es.
Proof.
  intros Ha Hn. induction es as [|[fn [d|es0|tg]] es IH]; try reflexivity.
  cbn [run_entries]. destruct (update_data P fn d) as [[[[tag b] r]|]|e] eqn:E.
  - cbn [run_entries]. rewrite (update_data_rerun P fn d tag b r Ha Hn E). now rewrite IH.
  - cbn [run_entries]. rewrite E. now rewrite IH.
  - cbn [run_entries]. now rewrite E.
Qed.

Lemma run_entries_plain (P : string) (es : list (string * node)) :
  forallb plain_script es = true -> forallb plain_script (run_entries P es) = true.
Proof.
  induction es as [|[fn [d|es0|tg]] es IH]; try (intros H; exact H).
  intros H. cbn [run_entries]. change (plain_script (fn, File d) && forallb plain_script es = true) in H.
  apply andb_prop in H as [H1 H2].
  destruct (update_data P fn d) as [[[[tag b] r]|]|e]; try (cbn; rewrite (IH H2), andb_true_r; exact H1).
  cbn. rewrite H1, H2. reflexivity.
Qed.


(* ------------------------------------------------------------------ *)
(** Steps of the monad *)

Lemma st_bind_ok {A B : Type} (m : M A) (k : A -> M B) (s s1 : state) (x : A) (o : list string) :
  m s = (Ok x, s1, o) -> st (m ≫= k) s = st (k x) s1.
Proof.
  intros H. unfold st, mbind, M_bind. rewrite H. destruct (k x s1) as [[r s2] o2]. reflexivity.
Qed.

Lemma st_bind_raise {A B : Type} (m : M A) (k : A -> M B) (s s1 : state) (e : exn) (o : list string) :
  m s = (Raise e, s1, o) -> st (m ≫= k) s = s1.
Proof. intros H. unfold st, mbind, M_bind. rewrite H. reflexivity. Qed.

(* ------------------------------------------------------------------ *)
(** The invariant: [bin/] under the working directory [c0] lists [B],
    regular files only. *)

Definition files (B : list (string * node)) : Prop :=
  Forall (fun ne => match snd ne with File _ => True | _ => False end) B.

Lemma plain_files (B : list (string * node)) : forallb plain_script B = true -> files B.
Proof.
  unfold files. induction B as [|[n x] B IH]; intros H; [constructor|].
  change (plain_script (n, x) && forallb plain_script B = true) in H.
  apply andb_prop in H as [H1 H2]. constructor; [|exact (IH H2)].
  unfold plain_script in H1. cbn [fst snd] in H1 |- *.
  destruct x; try (rewrite andb_false_r in H1; discriminate H1). exact I.
Qed.

Definition Inv (c0 : list string) (B : list (string * node)) (s : state) : Prop :=
  cwd s = c0 /\ wf (fs s) /\ get (fs s) (c0 ++ ["bin"]) = Some (Dir B) /\
  forallb plain_script B = true.

Lemma bin_lookup (t : node) (bp : list string) (B : list (string * node)) (fn : string) (x : node) :
  get t bp = Some (Dir B) -> get t (bp ++ [fn]) = Some x -> lookup fn B = Some x.
Proof.
  intros Hb H. rewrite get_app, Hb in H. cbn [get] in H.
  destruct (lookup fn B); [exact H | discriminate H].
Qed.

Lemma inv_alter (c0 : list string) (B : list (string * node)) (s : state) (q : list string)
    (f : option node -> option node) :
  Inv c0 B s -> (forall es, get (fs s) q <> Some (Dir es)) ->
  (forall fn, q <> (c0 ++ ["bin"]) ++ [fn]) -> (forall o x, f o = Some x -> wf x) ->
  Inv c0 B {| fs := alter (fs s) q f; cwd := cwd s |}.
Proof.
  intros (Hc & Hw & Hb & Hp) Hq Hfn Hf. split; [exact Hc|]. split; [exact (wf_alter _ q f Hw Hf)|].
  split; [|exact Hp]. exact (alter_frame _ _ q f B Hb (plain_files B Hp) Hq Hfn).
Qed.

(** [bin/] holds no link. *)
Lemma inv_link_outside (c0 : list string) (B : list (string * node)) (s : state) (q : list string)
    (tg : string) :
  Inv c0 B s -> get (fs s) q = Some (Link tg) -> forall fn, q <> (c0 ++ ["bin"]) ++ [fn].
Proof.
  intros (_ & _ & Hb & Hp) Hg fn ->. pose proof (bin_lookup _ _ _ fn _ Hb Hg) as Hl.
  apply lookup_In in Hl. pose proof (plain_files B Hp) as HB. unfold files in HB.
  exact (proj1 (List.Forall_forall _ _) HB _ Hl).
Qed.

(** [bin/] holds no [.pyc] or [.pyo] file. *)
Lemma inv_pyc_outside (c0 : list string) (B : list (string * node)) (s : state) (pre : list string)
    (c : string) (x : node) :
  Inv c0 B s -> is_pyc c = true -> get (fs s) (pre ++ [c]) = Some x ->
  forall fn, pre ++ [c] <> (c0 ++ ["bin"]) ++ [fn].
Proof.
  intros (_ & _ & Hb & Hp) Hc Hg fn E. pose proof E as E'. apply app_inj_tail in E' as [_ <-].
  rewrite E in Hg. pose proof (bin_lookup _ _ _ c _ Hb Hg) as Hl. apply lookup_In in Hl.
  apply forallb_forall with (x := (c, x)) in Hp; [|exact Hl].
  unfold plain_script in Hp. cbn [fst] in Hp. rewrite Hc, andb_false_r in Hp. discriminate Hp.
Qed.

Lemma inv_root_dir (c0 : list string) (B : list (string * node)) (s : state) :
  Inv c0 B s -> exists es, fs s = Dir es.
Proof.
  intros (_ & _ & Hb & _). destruct (fs s) as [d|es|tg]; [| now exists es |];
    rewrite get_nondir in Hb; try discriminate Hb; try (destruct c0; discriminate); intros es' E; discriminate E.
Qed.

(* ------------------------------------------------------------------ *)
(** [remove_pycs] and [update_local] leave [bin/] alone. *)

Lemma keeps_remove_pyc (c0 : list string) (B : list (string * node)) (top filename : string) :
  is_pyc filename = true -> keeps (Inv c0 B) (remove_pyc (path_join top [filename])).
Proof.
  intros Hp s Hs. unfold remove_pyc. rewrite st_bind_ro by apply readonly_print.
  change (res (print ("D " +:+ path_join top [filename])) s) with (@Ok unit tt). cbv beta iota.
  unfold st, remove. destruct (locate false s (path_join top [filename])) as [q|e] eqn:El; [|exact Hs].
  destruct (locate_pyc s top filename q Hp El) as (pre & c & -> & Hc).
  destruct (get (fs s) (pre ++ [c])) as [[d|es|tg]|] eqn:Eg; cbn [fst snd]; try exact Hs;
    (apply inv_alter; [exact Hs | rewrite Eg; discriminate
                      | exact (inv_pyc_outside c0 B s pre c _ Hs Hc Eg)
                      | intros o x H; discriminate H]).
Qed.

Lemma keeps_walk (c0 : list string) (B : list (string * node)) (fuel : nat) :
  forall top, keeps (Inv c0 B) (walk_remove fuel top).
Proof.
  induction fuel as [|fuel IH]; intros top; cbn [walk_remove].
  - apply keeps_readonly, readonly_skip.
  - apply keeps_bind; [apply keeps_readonly; unfold scan; apply readonly_query|].
    intros [[dirnames filenames]|]; [|apply keeps_readonly, readonly_skip].
    apply keeps_bind.
    + apply keeps_for_each. intros filename. destruct (is_pyc filename) eqn:E.
      * exact (keeps_remove_pyc c0 B top filename E).
      * apply keeps_readonly, readonly_skip.
    + intros _. apply keeps_for_each. intros d.
      apply keeps_bind; [apply keeps_readonly; unfold islink; apply readonly_query|].
      intros []; [apply keeps_readonly, readonly_skip | apply IH].
Qed.

Lemma keeps_remove_pycs (c0 : list string) (B : list (string * node)) (lib : string) :
  keeps (Inv c0 B) (remove_pycs lib).
Proof. intros s Hs. exact (keeps_walk c0 B (S (height (fs s))) lib s Hs). Qed.

Lemma keeps_relink (c0 : list string) (B : list (string * node)) (filename target tg line : string) :
  keeps (Inv c0 B)
    (islink filename ≫= fun l : bool =>
     if l then
       readlink filename ≫= fun t : string =>
       if negb (String.eqb t target) then remove filename ;; symlink tg filename ;; print line
       else skip
     else skip).
Proof.
  intros s Hs. rewrite st_bind_ro by (unfold islink; apply readonly_query).
  change (res (islink filename) s)
    with (@Ok bool (match stat_at false s filename with Some (Link _) => true | _ => false end)).
  cbv beta iota. unfold stat_at.
  destruct (locate false s filename) as [q|e] eqn:El; [|exact Hs].
  destruct (get (fs s) q) as [[d|es|tg0]|] eqn:Eg; try exact Hs.
  rewrite st_bind_ro by apply readonly_readlink.
  assert (Er : res (readlink filename) s = Ok tg0) by (unfold res, readlink; rewrite El, Eg; reflexivity).
  rewrite Er. destruct (negb (String.eqb tg0 target)); [|exact Hs].
  set (s1 := {| fs := alter (fs s) q (fun _ => None); cwd := cwd s |}).
  assert (Erm : remove filename s = (Ok tt, s1, [])) by (unfold remove; rewrite El, Eg; reflexivity).
  rewrite (st_bind_ok _ _ _ _ _ _ Erm).
  pose proof (inv_link_outside c0 B s q tg0 Hs Eg) as Hout.
  assert (Hs1 : Inv c0 B s1).
  { apply inv_alter; [exact Hs | rewrite Eg; discriminate | exact Hout | intros o x H; discriminate H]. }
  assert (Hq : q <> []).
  { intros ->. destruct (inv_root_dir c0 B s Hs) as (es & Ees). cbn in Eg. congruence. }
  destruct Hs as (Hc & Hw & Hb & Hp).
  assert (Hq1 : get (fs s1) q = None).
  { cbn [fs s1]. rewrite (get_alter_same _ q _ Hw Hq) by congruence. reflexivity. }
  assert (Hsym : Inv c0 B (st (symlink tg filename) s1)).
  { unfold st, symlink. destruct (locate false s1 filename) as [q'|e] eqn:El1; [|exact Hs1].
    assert (Eq : q' = q).
    { unfold locate in El1, El. change (cwd s1) with (cwd s) in El1. change (fs s1) with (alter (fs s) q (fun _ => None)) in El1.
      apply (resolve_back (fs s) (alter (fs s) q (fun _ => None)) q) in El1.
      - rewrite El in El1. congruence.
      - exact Hq1.
      - rewrite Eg. discriminate.
      - intros x Hx. apply removal_kind; [exact Hw | exact Hq | congruence | rewrite Eg; discriminate | exact Hx]. }
    subst q'. rewrite Hq1. cbn [fst snd].
    apply inv_alter; [exact Hs1 | rewrite Hq1; discriminate | exact Hout | intros o x H; injection H as <-; exact I]. }
  rewrite st_bind. destruct (res (symlink tg filename) s1); [rewrite readonly_print|]; exact Hsym.
Qed.

Lemma keeps_update_local (c0 : list string) (B : list (string * node)) (base : string) :
  keeps (Inv c0 B) (update_local base).
Proof.
  unfold update_local. apply keeps_bind; [apply keeps_readonly; unfold isdir; apply readonly_query|].
  intros d. destruct (negb d); [apply keeps_readonly, readonly_skip|].
  apply keeps_for_each. intros folder. apply keeps_relink.
Qed.


(* ------------------------------------------------------------------ *)
(** [update_scripts] on [bin/] *)

Lemma alter_entry_mid (a : string) (f : option node -> option node) (done rest : list (string * node))
    (x : node) :
  ~ In a (map fst done) ->
  alter_entry a f (done ++ (a, x) :: rest) =
  done ++ match f (Some x) with Some y => (a, y) :: rest | None => rest end.
Proof.
  induction done as [|[n d] done IH]; cbn; intros H.
  - now rewrite String.eqb_refl.
  - destruct (String.eqb_spec n a) as [->|_]; [exfalso; apply H; now left|].
    rewrite IH; [reflexivity|]. intros H'. apply H. now right.
Qed.

Lemma notin_done (fn : string) (x : node) (done rest : list (string * node)) :
  NoDup (map fst (done ++ (fn, x) :: rest)) -> ~ In fn (map fst done).
Proof.
  induction done as [|[n y] done IH]; cbn; [tauto|]. intros H [->|Hin].
  - apply NoDup_cons in H as [Hn _]. apply Hn, list_elem_of_In.
    rewrite map_app. apply in_or_app. right. now left.
  - apply NoDup_cons in H as [_ H]. exact (IH H Hin).
Qed.

Lemma scripts_sim (P : string) (c0 : list string) :
  forall rest done s,
  cwd s = c0 -> wf (fs s) -> get (fs s) (c0 ++ ["bin"]) = Some (Dir (done ++ rest)) ->
  forallb plain_script rest = true ->
  let s' := st (for_each (map fst rest)
                  (fun fn => update_file P (path_join (path_join "." ["bin"]) [fn]) fn)) s in
  cwd s' = c0 /\ wf (fs s') /\ get (fs s') (c0 ++ ["bin"]) = Some (Dir (done ++ run_entries P rest)).
Proof.
  induction rest as [|[fn x] rest IH]; intros done s Hc Hw Hb Hp; cbv zeta.
  - cbn [map for_each run_entries]. change (st skip s) with s. rewrite app_nil_r in Hb |- *.
    split; [exact Hc | split; [exact Hw | exact Hb]].
  - change (plain_script (fn, x) && forallb plain_script rest = true) in Hp.
    apply andb_prop in Hp as [Hx Hp].
    assert (Hv : valid_name fn = true).
    { unfold plain_script in Hx. cbn [fst] in Hx. apply andb_prop in Hx as [Hx _].
      apply andb_prop in Hx as [Hx _]. exact Hx. }
    destruct x as [d|es|tg]; unfold plain_script in Hx; cbn [snd] in Hx;
      try (rewrite andb_false_r in Hx; discriminate Hx).
    pose proof (wf_get _ _ _ Hw Hb) as Hwb. apply wf_Dir in Hwb as [Hnd _].
    pose proof (notin_done fn (File d) done rest Hnd) as Hni.
    set (path := path_join (path_join "." ["bin"]) [fn]).
    rewrite <- Hc in Hb.
    assert (Hl : lookup fn (done ++ (fn, File d) :: rest) = Some (File d)) by exact (lookup_mid _ _ _ _ Hni).
    pose proof (locate_bin_entry true s _ fn d Hb Hv Hl) as Hloc. fold path in Hloc.
    assert (Hg : get (fs s) ((cwd s ++ ["bin"]) ++ [fn]) = Some (File d)).
    { rewrite get_app, Hb. cbn [get]. rewrite Hl. reflexivity. }
    rewrite Hc in Hb, Hg, Hloc.
    cbn [map for_each run_entries].
    destruct (update_data P fn d) as [[[[tag b] r]|]|e] eqn:Eu.
    + pose proof (update_data_written P fn d tag b r Eu) as ->.
      set (s1 := {| fs := alter (fs s) ((c0 ++ ["bin"]) ++ [fn]) (fun _ => Some (File b)); cwd := cwd s |}).
      assert (Ef : update_file P path fn s = (Ok tt, s1, [tag +:+ path])).
      { unfold update_file, mbind, M_bind, read_file. rewrite Hloc, Hg. cbv beta iota.
        rewrite Eu. unfold print, write_file, lift. rewrite Hloc, Hg. reflexivity. }
      rewrite (st_bind_ok _ _ _ _ _ _ Ef).
      assert (Hb1 : get (fs s1) (c0 ++ ["bin"]) = Some (Dir ((done ++ [(fn, File b)]) ++ rest))).
      { cbn [fs s1]. rewrite (get_alter_below _ _ [] fn _ _ Hb). cbv beta iota.
        rewrite alter_entry_mid by exact Hni. now rewrite <- app_assoc. }
      assert (Hw1 : wf (fs s1)).
      { apply wf_alter; [exact Hw|]. intros o y H. injection H as <-. exact I. }
      destruct (IH (done ++ [(fn, File b)]) s1 Hc Hw1 Hb1 Hp) as (H1 & H2 & H3).
      split; [exact H1 | split; [exact H2|]]. rewrite H3, <- app_assoc. reflexivity.
    + assert (Ef : update_file P path fn s = (Ok tt, s, [])).
      { unfold update_file, mbind, M_bind, read_file. rewrite Hloc, Hg. cbv beta iota.
        rewrite Eu. reflexivity. }
      rewrite (st_bind_ok _ _ _ _ _ _ Ef).
      assert (Hb1 : get (fs s) (c0 ++ ["bin"]) = Some (Dir ((done ++ [(fn, File d)]) ++ rest)))
        by now rewrite <- app_assoc.
      destruct (IH (done ++ [(fn, File d)]) s Hc Hw Hb1 Hp) as (H1 & H2 & H3).
      split; [exact H1 | split; [exact H2|]]. rewrite H3, <- app_assoc. reflexivity.
    + assert (Ef : update_file P path fn s = (Raise e, s, [])).
      { unfold update_file, mbind, M_bind, read_file. rewrite Hloc, Hg. cbv beta iota.
        rewrite Eu. reflexivity. }
      rewrite (st_bind_raise _ _ _ _ _ _ Ef).
      split; [exact Hc | split; [exact Hw | exact Hb]].
Qed.

Lemma update_scripts_sim (P : string) (c0 : list string) (B : list (string * node)) (s : state) :
  Inv c0 B s -> Inv c0 (run_entries P B) (st (update_scripts (path_join "." ["bin"]) P) s).
Proof.
  intros (Hc & Hw & Hb & Hp). unfold update_scripts.
  rewrite st_bind_ro by apply readonly_listdir.
  assert (Hb' : get (fs s) (cwd s ++ ["bin"]) = Some (Dir B)) by now rewrite Hc.
  assert (Hl : res (listdir (path_join "." ["bin"])) s = Ok (map fst B)).
  { unfold res, listdir. rewrite (locate_bin true s B Hb'), Hb'. reflexivity. }
  rewrite Hl. destruct (scripts_sim P c0 B [] s Hc Hw Hb Hp) as (H1 & H2 & H3).
  split; [exact H1 | split; [exact H2 | split; [exact H3 | exact (run_entries_plain P B Hp)]]].
Qed.

(** A run of [update_paths] either changes nothing or leaves [bin/]
    as [run_entries] says. *)
Lemma update_paths_cases (P : string) (c0 : list string) (B : list (string * node)) (s : state) :
  Inv c0 B s ->
  st (update_paths "." P) s = s \/ Inv c0 (run_entries P B) (st (update_paths "." P) s).
Proof.
  intros Hs. unfold update_paths.
  destruct (negb (isabs P)).
  { left. apply readonly_bind; [apply readonly_print | intros; apply readonly_ret]. }
  cbv zeta.
  rewrite st_bind_ro by (unfold isdir; apply readonly_query).
  destruct (res (isdir (path_join "." ["lib"])) s) as [dl|e]; [|now left].
  rewrite st_bind_ro
    by (destruct dl; [apply readonly_bind; [apply readonly_listdir | intros; apply readonly_ret]
                     | apply readonly_ret]).
  destruct (res _ s) as [[name|]|e]; [| |now left].
  2:{ left. apply readonly_bind; [apply readonly_print | intros; apply readonly_ret]. }
  rewrite st_bind_ro by (unfold isdir; apply readonly_query).
  destruct (res (isdir (path_join "." ["bin"])) s) as [db|e]; [|now left].
  destruct (negb db).
  { left. apply readonly_bind; [apply readonly_print | intros; apply readonly_ret]. }
  rewrite st_bind_ro by (unfold isfile; apply readonly_query).
  destruct (res (isfile _) s) as [fp|e]; [|now left].
  destruct (negb fp).
  { left. apply readonly_bind; [apply readonly_print | intros; apply readonly_ret]. }
  right. rewrite st_bind.
  pose proof (update_scripts_sim P c0 B s Hs) as H1.
  destruct (res (update_scripts (path_join "." ["bin"]) P) s); [|exact H1].
  revert H1. apply keeps_bind; [apply keeps_remove_pycs|]. intros _.
  apply keeps_bind; [apply keeps_update_local|]. intros _. apply keeps_readonly, readonly_ret.
Qed.

End PosixFacts.

(* ------------------------------------------------------------------ *)
(** ** The claims *)

Module Claims.
Import Py FS Script Tools Reinit Views PyFacts ReinitFacts WalkFacts LocalFacts TextFacts RerunFacts.

(** C3: a script whose first line is [#!/usr/bin/env python] (possibly
    followed by more text) is left alone by [update_script], whatever the
    new path: the first token after [#!] is [/usr/bin/env], which does
    not end with [/bin/python].  In [update_scripts] such an entry (not
    named like an activation script) is kept as it is, and nothing is
    written or printed for it. *)
Theorem env_python_script_untouched (P bin_dir fn : string) (d : node) (data t : string)
    (rest : list string) (es : list (string * node)) :
  read_file d = Ok data ->
  split_lines (universal_newlines data) = ("#!/usr/bin/env python" +:+ t) :: rest ->
  Script.update_script P data = None /\
  (is_activation_script fn = false ->
   update_entry P fn d = Ok None /\
   update_scripts bin_dir P ((fn, d) :: es) =
     (let '(r, es', l) := update_scripts bin_dir P es in (r, (fn, d) :: es', l))).
Proof.
  intros Hread Hsplit.
  assert (Hs : Script.update_script P data = None).
  { unfold Script.update_script, latin1_decode. rewrite Hsplit.
    change ("#!/usr/bin/env python" +:+ t) with ("#!" +:+ ("/usr/bin/env python" +:+ t)).
    assert (Hst : startswith "#!" ("#!" +:+ ("/usr/bin/env python" +:+ t)) = true)
      by reflexivity.
    rewrite Hst, slice_from_2 by reflexivity. cbn [negb].
    unfold strip.
    change ("/usr/bin/env python" +:+ t) with ("/usr/bin/env pytho" +:+ String "n" t).
    change (lstrip ("/usr/bin/env pytho" +:+ String "n" t))
      with ("/usr/bin/env pytho" +:+ String "n" t).
    rewrite rstrip_app_nonspace by reflexivity.
    change ("/usr/bin/env pytho" +:+ String "n" (rstrip t))
      with ("/usr/bin/env" +:+ String " " ("pytho" +:+ String "n" (rstrip t))).
    destruct (split_first_token "/usr/bin/env" ("pytho" +:+ String "n" (rstrip t)) " "
                ltac:(discriminate) eq_refl eq_refl) as [more ->].
    reflexivity. }
  split; [exact Hs|]. intros Hfn.
  assert (He : update_entry P fn d = Ok None).
  { unfold update_entry, update_data. now rewrite Hread, Hfn, Hs. }
  split; [exact He|]. cbn [update_scripts]. now rewrite He.
Qed.

Lemma env_python_script_untouched_witness :
  let data := "#!/usr/bin/env python" +:+ String NL ("print(1)" +:+ String NL EmptyString) in
  update_scripts "/venv/bin" "/new" [("tool", File data)] = (Ok tt, [("tool", File data)], []).
Proof.
  cbv zeta.
  destruct (env_python_script_untouched "/new" "/venv/bin" "tool"
              (File ("#!/usr/bin/env python" +:+ String NL ("print(1)" +:+ String NL EmptyString)))
              ("#!/usr/bin/env python" +:+ String NL ("print(1)" +:+ String NL EmptyString))
              (String NL EmptyString) ["print(1)" +:+ String NL EmptyString] []
              eq_refl ltac:(vm_compute; reflexivity)) as [_ H].
  destruct (H eq_refl) as [_ ->]. reflexivity.
Defined.

(** C8: [reinitialize_virtualenv] leaves the process state alone, and
    the environment it passes to every spawn of the external tool holds
    exactly the variables of [os.environ] whose names do not start with
    [VIRTUALENV_], with their values. *)
Theorem reinit_environment_filtered (path sp : string) (st : proc) :
  let '(_, st', l) := reinitialize_virtualenv path sp st in
  st' = st /\
  forall args env, In (Spawn args env) l ->
    forall k, env !! k = if startswith "VIRTUALENV_" k then None else environ st !! k.
Proof.
  unfold reinitialize_virtualenv.
  destruct (negb (isdir (lookup "lib" (root st)))).
  { split; [reflexivity|]. intros args env [H|[]]. discriminate H. }
  destruct (first_match (names (listdir (lookup "lib" (root st))))) as [py_ver|].
  2: { split; [reflexivity|]. intros args env [H|[]]. discriminate H. }
  destruct (negb (isdir (lookup py_ver (listdir (lookup "lib" (root st)))))).
  { split; [reflexivity|]. intros args env []. }
  split; [reflexivity|]. intros args env [H|[]] k.
  injection H as _ <-. apply filter_environ_lookup.
Qed.

(** C10: on an environment whose [lib/python<X>.<Y>] is a directory,
    the external tool gets [virtualenv -p <python>], then
    [--system-site-packages] unless [no-global-site-packages.txt] is a
    file there, then one [--distribute] for each entry of that directory
    (as [os.listdir] gives them: files or not) whose name starts with
    [distribute-] and ends with [.egg], then the path. *)
Theorem distribute_flag_per_egg (path sp : string) (st : proc) (py_ver : string) :
  isdir (lookup "lib" (root st)) = true ->
  first_match (names (listdir (lookup "lib" (root st)))) = Some py_ver ->
  isdir (lookup py_ver (listdir (lookup "lib" (root st)))) = true ->
  let es := listdir (lookup py_ver (listdir (lookup "lib" (root st)))) in
  reinitialize_virtualenv path sp st =
    (Ok None, st,
     [Spawn (["virtualenv"; "-p"; sp]
             ++ (if isfile (lookup "no-global-site-packages.txt" es) then []
                 else ["--system-site-packages"])
             ++ repeat "--distribute"
                  (length (List.filter (fun f => startswith "distribute-" f && endswith ".egg" f)
                                  (names es)))
             ++ [path])
            (filter_environ (environ st))]).
Proof.
  intros Hlib Hpy Hdir es. unfold reinitialize_virtualenv.
  rewrite Hlib, Hpy. cbn [negb]. rewrite Hdir. cbn [negb].
  rewrite distribute_flags_spec. fold es.
  destruct (isfile (lookup "no-global-site-packages.txt" es)); cbn [negb app];
    rewrite <- ?app_assoc; reflexivity.
Qed.

Lemma distribute_flag_per_egg_witness :
  let st := {| root := [("lib", Dir [("python2.7",
                   Dir [("distribute-0.6.egg", File EmptyString); ("site.py", File EmptyString);
                        ("distribute-0.7.egg", Dir [])])])];
               environ := <["VIRTUALENV_PYTHON" := "python2"]> (<["HOME" := "/root"]> ∅) |} in
  reinitialize_virtualenv "." "python3" st =
    (Ok None, st, [Spawn ["virtualenv"; "-p"; "python3"; "--system-site-packages";
                          "--distribute"; "--distribute"; "."]
                         (filter_environ (environ st))]).
Proof.
  intros st.
  rewrite (distribute_flag_per_egg "." "python3" st "python2.7" eq_refl eq_refl eq_refl).
  reflexivity.
Defined.

(** C6 counterexample: [lib/python2.7/encodings] is a link to a
    directory holding [x.pyc]; [os.walk] lists it in [dirnames] but does
    not go into it, so [x.pyc] stays and no notice is printed. *)
Lemma C6_counterexample :
  let d := Dir [("encodings", Link "/usr/lib/python2.7/encodings"
                                 (Some (Dir [("x.pyc", File EmptyString)])));
                ("os.py", File EmptyString)] in
  remove_pycs "/venv/lib/python2.7" d = (d, []) /\
  listdir (lookup "encodings" (listdir (Some d))) = [("x.pyc", File EmptyString)].
Proof. vm_compute. split; reflexivity. Qed.

(** C6: after [remove_pycs] on the library directory (or a link to
    one), the files the walk reports are exactly the files it reported
    before whose names do not end in [.pyc] or [.pyo], at the same paths
    and with the same contents; and the effects are, for each [.pyc] or
    [.pyo] file in walk order, the notice [D <path>] followed by its
    removal.  The walk is [os.walk]'s: entries that are links to
    directories are not followed. *)
Theorem remove_pycs_removes_bytecode (lib_dir : string) (d : node) :
  let '(d', l) := remove_pycs lib_dir d in
  walk_files lib_dir (Dir (listdir (Some d'))) =
    List.filter (fun f => negb (is_pyc (file_name f)))
                (walk_files lib_dir (Dir (listdir (Some d)))) /\
  l = flat_map (fun f => if is_pyc (file_name f)
                         then [Print ("D " +:+ file_path f); RemoveFile (file_path f)] else [])
               (walk_files lib_dir (Dir (listdir (Some d)))).
Proof.
  assert (Hdir : forall es, let '(d', l) := walk_remove lib_dir (Dir es) in
            walk_files lib_dir (Dir (listdir (Some d'))) =
              List.filter keep (walk_files lib_dir (Dir es)) /\
            l = flat_map removal (walk_files lib_dir (Dir es))).
  { intros es. assert (H := walk_remove_spec (Dir es) lib_dir).
    destruct (walk_remove_dir lib_dir es) as [es' He].
    destruct (walk_remove lib_dir (Dir es)) as [d' l]. cbn [fst] in He. subst d'.
    exact H. }
  destruct d as [data|es|t [[data|es|t' st']|]].
  - split; reflexivity.
  - exact (Hdir es).
  - split; reflexivity.
  - cbn [remove_pycs]. specialize (Hdir es).
    destruct (walk_remove_dir lib_dir es) as [es' He].
    destruct (walk_remove lib_dir (Dir es)) as [d' l]. cbn [fst] in He. subst d'.
    exact Hdir.
  - split; reflexivity.
  - split; reflexivity.
Qed.

(** C7 counterexample: [local/] holds a plain directory [bin] and no
    [lib] or [include]; [update_local] changes nothing, so afterwards
    [local/bin] is no link and [local/lib] does not exist. *)
Lemma C7_counterexample :
  let rt := [("bin", Dir []); ("lib", Dir []); ("local", Dir [("bin", Dir [])])] in
  isdir (lookup "local" rt) = true /\
  update_local "/venv" rt = (rt, []) /\
  lookup "bin" (listdir (lookup "local" rt)) = Some (Dir []) /\
  lookup "lib" (listdir (lookup "local" rt)) = None.
Proof. vm_compute. repeat split. Qed.

(** C7 (amended): when [local] is a directory, each of [bin], [lib],
    [include] that is a symbolic link in it ends as a link whose target
    string is [../<name>]: left as it is, with no effect, when it already
    pointed there; otherwise removed and created again, with the notice
    [L <path>].  An entry that is missing or not a link is left alone, as
    is every other entry of [local] and of the root.  When [local] is not
    a directory nothing happens. *)
Theorem update_local_relinks (base : string) (rt : list (string * node)) :
  let '(rt', l) := update_local base rt in
  let es0 := listdir (lookup "local" rt) in
  let es1 := listdir (lookup "local" rt') in
  (isdir (lookup "local" rt) = false -> rt' = rt /\ l = []) /\
  (isdir (lookup "local" rt) = true ->
   isdir (lookup "local" rt') = true /\
   (forall m, m <> "local" -> lookup m rt' = lookup m rt) /\
   (forall m, ~ In m LOCAL_FOLDERS -> lookup m es1 = lookup m es0) /\
   (forall name, In name LOCAL_FOLDERS ->
      (forall t s, lookup name es0 = Some (Link t s) ->
         exists s', lookup name es1 = Some (Link ("../" +:+ name) s') /\
                    (t = "../" +:+ name -> s' = s)) /\
      ((forall t s, lookup name es0 <> Some (Link t s)) -> lookup name es1 = lookup name es0)) /\
   l = flat_map (fun name =>
         let f := path_join (path_join base ["local"]) [name] in
         match lookup name es0 with
         | Some (Link t _) =>
             if String.eqb t ("../" +:+ name) then []
             else [RemoveFile f; MakeSymlink ("../" +:+ name) f; Print ("L " +:+ f)]
         | _ => []
         end) LOCAL_FOLDERS).
Proof.
  unfold update_local.
  destruct (lookup "local" rt) as [loc|] eqn:Hloc.
  2: { cbv zeta. split; [split; reflexivity | intros H; discriminate H]. }
  destruct (isdir (Some loc)) eqn:Hd.
  2: { cbv zeta. rewrite Hloc, Hd. split; [split; reflexivity | intros H; discriminate H]. }
  unfold LOCAL_FOLDERS. cbn [fold_left].
  set (es0 := listdir (Some loc)).
  destruct (update_local_entry base rt es0 "bin") as [esA lA] eqn:HA.
  destruct (update_local_entry base rt esA "lib") as [esB lB] eqn:HB.
  destruct (update_local_entry base rt esB "include") as [esC lC] eqn:HC.
  cbv zeta.
  destruct (listdir_with_entries loc esC Hd) as [Hls Hdir].
  assert (Hl' : lookup "local" (set_entry "local" (with_entries loc esC) rt) = Some (with_entries loc esC))
    by (apply lookup_set_entry_eq; congruence).
  rewrite Hl', Hls.
  split; [intros H; discriminate H|]. intros _.
  (* the entries after each step *)
  assert (A1 := update_local_entry_self base rt es0 "bin"). rewrite HA in A1. cbn [fst snd] in A1.
  assert (B1 := update_local_entry_self base rt esA "lib"). rewrite HB in B1. cbn [fst snd] in B1.
  assert (C1 := update_local_entry_self base rt esB "include"). rewrite HC in C1. cbn [fst snd] in C1.
  assert (A2 := fun m H => update_local_entry_other base rt es0 "bin" m H). rewrite HA in A2. cbn [fst] in A2.
  assert (B2 := fun m H => update_local_entry_other base rt esA "lib" m H). rewrite HB in B2. cbn [fst] in B2.
  assert (C2 := fun m H => update_local_entry_other base rt esB "include" m H). rewrite HC in C2. cbn [fst] in C2.
  assert (Elib : lookup "lib" esA = lookup "lib" es0) by (apply A2; discriminate).
  assert (Einc : lookup "include" esB = lookup "include" es0)
    by (rewrite B2 by discriminate; apply A2; discriminate).
  rewrite Elib in B1. rewrite Einc in C1.
  assert (Fbin : lookup "bin" esC = lookup "bin" esA)
    by (rewrite C2 by discriminate; apply B2; discriminate).
  assert (Flib : lookup "lib" esC = lookup "lib" esB) by (apply C2; discriminate).
  destruct A1 as [A1 A3]. destruct B1 as [B1 B3]. destruct C1 as [C1 C3].
  split; [exact Hdir|]. split.
  { intros m Hm. apply lookup_set_entry_ne. congruence. }
  split.
  { intros m Hm. rewrite C2, B2, A2; [reflexivity| |  |]; intros Heq; subst m; apply Hm; simpl; tauto. }
  split.
  - intros name Hname.
    assert (Hres : lookup name esC =
              match lookup name es0 with
              | Some (Link t s) =>
                  if String.eqb t ("../" +:+ name) then Some (Link t s)
                  else Some (Link ("../" +:+ name) (follow_opt (lookup name rt)))
              | o => o
              end).
    { destruct Hname as [<-|[<-|[<-|[]]]].
      - now rewrite Fbin.
      - now rewrite Flib.
      - exact C1. }
    rewrite Hres. split.
    + intros t s ->. destruct (String.eqb t ("../" +:+ name)) eqn:E.
      * apply String.eqb_eq in E as ->. exists s. split; auto.
      * exists (follow_opt (lookup name rt)). split; [reflexivity|].
        intros ->. now rewrite String.eqb_refl in E.
    + intros Hn. destruct (lookup name es0) as [[data|es|t s]|]; try reflexivity.
      exfalso. exact (Hn t s eq_refl).
  - cbn [flat_map app]. rewrite A3, B3, C3, !app_nil_r. cbn [app].
    now rewrite <- !app_assoc.
Qed.

(** C5 counterexample: the entry [lib/python2.7] matches the version
    pattern but is a regular file; the flow goes on, rewrites
    [bin/tool] and returns success. *)
Lemma C5_counterexample :
  let st := {| root := [("bin", Dir [("python", File "ELF");
                                    ("tool", File ("#!/old/bin/python" +:+ String NL EmptyString))]);
                        ("lib", Dir [("python2.7", File EmptyString)])];
               environ := ∅ |} in
  isdir (lookup "python2.7" (listdir (lookup "lib" (root st)))) = false /\
  fst (fst (update_paths "/venv" "/new" st)) = Ok true /\
  snd (update_paths "/venv" "/new" st) = [Print "S /venv/bin/tool"; WriteFile "/venv/bin/tool"].
Proof. vm_compute. repeat split. Qed.

(** C5 (amended): when the new path is not absolute, or [lib] is not a
    directory, or no entry of [lib] (of any kind) has a name matching
    [^python\d+\.\d+$], or [bin] is not a directory, or [bin/python]
    is not a file (after following links), the flow prints one error
    line, returns [False], and leaves the state as it was, with no other
    effect. *)
Theorem update_paths_rejects (base P : string) (st : proc) :
  (isabs P = false \/ isdir (lookup "lib" (root st)) = false \/
   first_match (names (listdir (lookup "lib" (root st)))) = None \/
   isdir (lookup "bin" (root st)) = false \/
   isfile (lookup "python" (listdir (lookup "bin" (root st)))) = false) ->
  update_paths base P st =
    (Ok false, st,
     [Print (if isabs P then "error: " +:+ base +:+ " does not refer to a python installation"
             else "error: " +:+ P +:+ " is not an absolute path")]).
Proof.
  intros H. unfold update_paths.
  destruct (isabs P) eqn:Habs; [|reflexivity]. cbn [negb].
  destruct H as [H|H]; [discriminate H|].
  destruct (lookup "lib" (root st)) as [lib|] eqn:Hlib; [|reflexivity].
  destruct (lookup "bin" (root st)) as [bin|] eqn:Hbin;
    [|destruct (if isdir (Some lib) then _ else None); reflexivity].
  destruct (isdir (Some lib)) eqn:Hdl; [|reflexivity].
  destruct (first_match (names (listdir (Some lib)))) as [name|] eqn:Hfm; [|reflexivity].
  destruct H as [H|[H|[H|H]]]; try discriminate H.
  - cbn [isdir follow_opt] in H. now rewrite H.
  - now rewrite H, andb_false_r.
Qed.

Lemma update_paths_rejects_witness :
  let st := {| root := [("bin", Dir [("python", File "ELF")]);
                        ("lib", Dir [("python2.7", Dir [])])];
               environ := ∅ |} in
  update_paths "/venv" "new" st =
    (Ok false, st, [Print "error: new is not an absolute path"]).
Proof.
  intros st. rewrite (update_paths_rejects "/venv" "new" st (or_introl eq_refl)).
  reflexivity.
Defined.

(** C2 counterexample: in a script with [\r\n] line ends, the line
    after the directive is written back with [\n]; so is the directive. *)
Lemma C2_counterexample :
  let crlf := String CR (String NL EmptyString) in
  let nl := String NL EmptyString in
  Script.update_script "/new" ("#!/old/bin/python -O" +:+ crlf +:+ "print(1)" +:+ crlf)
    = Some ("#!/new/bin/python -O" +:+ nl +:+ "print(1)" +:+ nl) /\
  String.eqb ("#!/new/bin/python -O" +:+ nl +:+ "print(1)" +:+ nl)
             ("#!/new/bin/python -O" +:+ nl +:+ "print(1)" +:+ crlf) = false.
Proof. vm_compute. split; reflexivity. Qed.

(** C2 (amended): for a script and a new path [P], both ASCII, whose
    first line read in text mode is [#!h], where the whitespace-separated
    tokens of [h] are [a0] then [more], [a0] ends with [/bin/python] and
    does not contain [/usr/bin/env python]: when [a0] is already
    [path_join(P, 'bin', 'python')] nothing is written; otherwise the
    file becomes [#!], then that path and the tokens [more] joined by
    single spaces, then [\n], then the other lines as read in text mode
    ([\r\n] and [\r] read as [\n]). *)
Theorem update_script_rewrites_first_line (P data h a0 : string) (rest more : list string) :
  is_ascii data = true -> is_ascii P = true ->
  split_lines (universal_newlines data) = ("#!" +:+ h) :: rest ->
  split (strip h) = a0 :: more ->
  endswith "/bin/python" a0 = true -> contains "/usr/bin/env python" a0 = false ->
  Script.update_script P data =
    if String.eqb (path_join P ["bin"; "python"]) a0 then None
    else Some ("#!" +:+ join " " (path_join P ["bin"; "python"] :: more) +:+ String NL EmptyString
               +:+ concat_lines rest).
Proof.
  intros Hd HP Hl Hs He Hc. unfold Script.update_script, latin1_decode. rewrite Hl.
  rewrite startswith_app. cbn [negb].
  rewrite slice_from_2 by reflexivity. rewrite Hs, He, Hc. cbn [negb orb].
  destruct (String.eqb (path_join P ["bin"; "python"]) a0); [reflexivity|].
  f_equal. cbn [concat_lines].
  assert (Ha : is_ascii (concat_lines (("#!" +:+ h) :: rest)) = true).
  { rewrite <- Hl, concat_split_lines. now apply is_ascii_universal_newlines. }
  cbn [concat_lines] in Ha. rewrite is_ascii_app in Ha. apply andb_prop in Ha as [Hh Hr].
  change (is_ascii (String "#" (String "!" h)) = true) in Hh. cbn [is_ascii andb] in Hh.
  assert (Htok : forallb is_ascii (a0 :: more) = true).
  { rewrite <- Hs. apply is_ascii_split. unfold strip. now apply is_ascii_rstrip, is_ascii_lstrip. }
  cbn [forallb] in Htok. apply andb_prop in Htok as [_ Hmore].
  assert (Hnb : is_ascii (path_join P ["bin"; "python"]) = true)
    by (apply is_ascii_path_join; [exact HP | reflexivity]).
  rewrite utf8_encode_ascii; [now rewrite !append_assoc_s|].
  rewrite !is_ascii_app, Hr, is_ascii_join; [reflexivity | reflexivity |].
  cbn [forallb]. now rewrite Hnb, Hmore.
Qed.

Lemma update_script_rewrites_first_line_witness :
  Script.update_script "/new" ("#!/old/bin/python -O" +:+ String NL ("import x" +:+ String NL EmptyString))
  = Some ("#!/new/bin/python -O" +:+ String NL ("import x" +:+ String NL EmptyString)).
Proof.
  rewrite (update_script_rewrites_first_line "/new"
             ("#!/old/bin/python -O" +:+ String NL ("import x" +:+ String NL EmptyString))
             ("/old/bin/python -O" +:+ String NL EmptyString) "/old/bin/python"
             ["import x" +:+ String NL EmptyString] ["-O"]
             eq_refl eq_refl ltac:(vm_compute; reflexivity) ltac:(vm_compute; reflexivity)
             eq_refl eq_refl).
  vm_compute. reflexivity.
Defined.

End Claims.

(* ------------------------------------------------------------------ *)
(** ** The claims on activation scripts *)

Module ActivationClaims.
Import Text Activation CodecFacts ActivationFacts Views.
Open Scope N_scope.




(** C9 counterexample: the line [VIRTUAL_ENV=<dq>/old<dq> # <dq>note<dq>]
    has text other than whitespace after the closing quote of the path,
    yet it is rewritten: the lazy group backtracks to the last quote of
    the line, so the group is [/old<dq> # <dq>note] and the comment is
    lost. *)
Lemma C9_counterexample :
  let T := of_string " # " ++ DQ :: of_string "note" ++ [DQ; NL] in
  all_space T = false /\
  activation_path_re (assignment [] 61 (of_string "/old") T) = Some (13%nat, 26%nat, 28%nat) /\
  activation_sub (of_string "/new") (assignment [] 61 (of_string "/old") T)
    = assignment [] 61 (of_string "/new") [NL].
Proof. vm_compute. repeat split. Qed.

End ActivationClaims.

(* ------------------------------------------------------------------ *)
(** ** The claim on running [update_paths] again *)

Module PosixClaims.
Import Py FS Tools Posix PosixFacts.




End PosixClaims.

(* ------------------------------------------------------------------ *)
(** ** Further properties *)

Module Extras.
Import Py FS Script Tools Reinit Main Views TextFacts RerunFacts ExtraFacts.


(** X2: for a new path without line breaks, [update_activation_script]
    is idempotent: on the text it wrote, it finds nothing to change and
    does not write. *)
Theorem activation_text_idempotent (P text t' : list N) :
  Text.has_char Text.NL P = false -> Text.has_char Text.CR P = false ->
  Activation.update_activation_text P text = Some t' -> Activation.update_activation_text P t' = None.
Proof. exact (ActivationFacts.activation_text_rerun P text t'). Qed.

Lemma activation_text_idempotent_witness :
  let text := Activation.assignment [] 61%N (Text.of_string "/old") [Text.NL] in
  let t' := Activation.assignment [] 61%N (Text.of_string "/new") [Text.NL] in
  Activation.update_activation_text (Text.of_string "/new") text = Some t' /\
  Activation.update_activation_text (Text.of_string "/new") t' = None.
Proof.
  intros text t'. split; [vm_compute; reflexivity|].
  exact (activation_text_idempotent (Text.of_string "/new") text t'
           ltac:(vm_compute; reflexivity) ltac:(vm_compute; reflexivity) ltac:(vm_compute; reflexivity)).
Defined.

(** X3: for an ASCII new path without whitespace, [update_script] is
    idempotent: on the bytes it wrote, it returns without writing. *)
Theorem update_script_idempotent (P data0 data1 : string) :
  is_ascii P = true -> no_space P = true ->
  update_script P data0 = Some data1 -> update_script P data1 = None.
Proof. exact (update_script_rerun P data0 data1). Qed.

Lemma update_script_idempotent_witness :
  let data0 := "#!/old/bin/python -O" +:+ String NL ("import x" +:+ String NL EmptyString) in
  let data1 := "#!/new/bin/python -O" +:+ String NL ("import x" +:+ String NL EmptyString) in
  update_script "/new" data0 = Some data1 /\ update_script "/new" data1 = None.
Proof.
  intros data0 data1. split; [reflexivity|].
  exact (update_script_idempotent "/new" data0 data1 eq_refl eq_refl eq_refl).
Defined.

(** X4: [update_script] never writes a file whose bytes do not start
    with [#!]. *)
Theorem update_script_requires_directive (P data : string) :
  startswith "#!" data = false -> update_script P data = None.
Proof. exact (update_script_needs_directive P data). Qed.

Lemma update_script_requires_directive_witness :
  let data := "import os" +:+ String NL ("#!/old/bin/python" +:+ String NL EmptyString) in
  startswith "#!" data = false /\ update_script "/new" data = None.
Proof.
  intros data. split; [reflexivity|].
  exact (update_script_requires_directive "/new" data eq_refl).
Defined.

(** X5: [update_scripts] keeps the listing of [bin]: no entry is
    created, removed or renamed.  Its only effects are, for a listed
    name [fn], the notice [A <bin>/fn] (for an activation script) or
    [S <bin>/fn] (otherwise) and the write of [<bin>/fn]. *)
Theorem update_scripts_listing (bin P : string) (es es1 : list (string * node))
    (r : outcome unit) (l : list effect) :
  update_scripts bin P es = (r, es1, l) ->
  names es1 = names es /\
  forall e, In e l -> exists fn, In fn (names es) /\
    (e = Print ((if is_activation_script fn then "A " else "S ") +:+ path_join bin [fn]) \/
     e = WriteFile (path_join bin [fn])).
Proof. exact (update_scripts_shape bin P es es1 r l). Qed.

Lemma update_scripts_listing_witness :
  let es := [("python", File "ELF");
             ("tool", File ("#!/old/bin/python" +:+ String NL EmptyString));
             ("activate", File ("VIRTUAL_ENV=" +:+ String DQ ("/old" +:+ String DQ (String NL EmptyString))))] in
  let res := update_scripts "/v/bin" "/new" es in
  names (snd (fst res)) = names es /\
  forall e, In e (snd res) -> exists fn, In fn (names es) /\
    (e = Print ((if is_activation_script fn then "A " else "S ") +:+ path_join "/v/bin" [fn]) \/
     e = WriteFile (path_join "/v/bin" [fn])).
Proof.
  intros es res.
  exact (update_scripts_listing "/v/bin" "/new" es (snd (fst res)) (fst (fst res)) (snd res) eq_refl).
Defined.

(** X6: [update_scripts] completes only when every entry of [bin] is a
    regular file after following links: a subdirectory, or a dangling
    link, makes it raise. *)
Theorem update_scripts_ok_all_files (bin P : string) (es es1 : list (string * node)) (l : list effect) :
  update_scripts bin P es = (Ok tt, es1, l) -> Forall (fun ne => isfile (Some (snd ne)) = true) es.
Proof. exact (update_scripts_ok_files bin P es es1 l). Qed.

Lemma update_scripts_ok_all_files_witness :
  let es := [("python", File "ELF"); ("tool", Link "../lib/tool" (Some (File "x")))] in
  Forall (fun ne => isfile (Some (snd ne)) = true) es.
Proof.
  intros es.
  exact (update_scripts_ok_all_files "/v/bin" "/new" es es [] eq_refl).
Defined.

(** X7: [remove_pycs] is idempotent: run again on the tree it left, it
    removes nothing and prints nothing. *)
Theorem remove_pycs_idempotent (lib_dir : string) (d d' : node) (l : list effect) :
  remove_pycs lib_dir d = (d', l) -> remove_pycs lib_dir d' = (d', []).
Proof. exact (remove_pycs_rerun lib_dir d d' l). Qed.

Lemma remove_pycs_idempotent_witness :
  let d := Dir [("a.pyc", File ""); ("b.py", File ""); ("sub", Dir [("c.pyo", File "")])] in
  let res := remove_pycs "/v/lib/python2.7" d in
  snd res <> [] /\ remove_pycs "/v/lib/python2.7" (fst res) = (fst res, []).
Proof.
  intros d res. split; [discriminate|].
  exact (remove_pycs_idempotent "/v/lib/python2.7" d (fst res) (snd res) eq_refl).
Defined.

(** X8: [update_local] is idempotent: run again on the root it left, it
    removes, creates and prints nothing. *)
Theorem update_local_idempotent (base : string) (rt rt' : list (string * node)) (l : list effect) :
  update_local base rt = (rt', l) -> update_local base rt' = (rt', []).
Proof. exact (update_local_rerun base rt rt' l). Qed.

Lemma update_local_idempotent_witness :
  let rt := [("bin", Dir []); ("local", Dir [("bin", Link "/old/bin" None); ("lib", Link "../lib" None)])] in
  let res := update_local "/v" rt in
  snd res <> [] /\ update_local "/v" (fst res) = (fst res, []).
Proof.
  intros rt res. split; [discriminate|].
  exact (update_local_idempotent "/v" rt (fst res) (snd res) eq_refl).
Defined.

(** X12: [reinitialize_virtualenv] returns [False] exactly when [lib] is
    not a directory or no entry of [lib] matches [_pybin_match]; it then
    prints one line and spawns nothing. *)
Theorem reinit_returns_false_iff (path sp : string) (st : proc) :
  let '(r, st', l) := reinitialize_virtualenv path sp st in
  (r = Ok (Some false) <->
   isdir (lookup "lib" (root st)) = false \/ first_match (names (listdir (lookup "lib" (root st)))) = None) /\
  (r = Ok (Some false) -> exists msg, l = [Print msg]).
Proof. exact (reinit_false_iff path sp st). Qed.

(** X13: when the entry of [lib] that matches [_pybin_match] is not a
    directory, [reinitialize_virtualenv] raises from [os.listdir]
    ([NotADirectoryError], or [FileNotFoundError] for a dangling link)
    before any effect. *)
Theorem reinit_raises_on_version_file (path sp : string) (st : proc) (py_ver : string) (d : node) :
  isdir (lookup "lib" (root st)) = true ->
  first_match (names (listdir (lookup "lib" (root st)))) = Some py_ver ->
  lookup py_ver (listdir (lookup "lib" (root st))) = Some d -> isdir (Some d) = false ->
  reinitialize_virtualenv path sp st =
    (Raise (match follow d with Some _ => NotADirectoryError | None => FileNotFoundError end), st, []).
Proof. exact (reinit_raise path sp st py_ver d). Qed.

Lemma reinit_raises_on_version_file_witness :
  let st := {| root := [("lib", Dir [("python2.7", File EmptyString)])]; environ := ∅ |} in
  reinitialize_virtualenv "." "python3" st = (Raise NotADirectoryError, st, []).
Proof.
  intros st.
  exact (reinit_raises_on_version_file "." "python3" st "python2.7" (File EmptyString)
           eq_refl eq_refl eq_refl eq_refl).
Defined.

(** X14: [main] exits with status 0 or 1, and with 0 whenever
    [--update-path] is absent or empty: the [False] that
    [reinitialize_virtualenv] returns is ignored. *)
Theorem main_exit_status (run : list string -> gmap string string -> proc -> proc)
    (sp up : option string) (st st' : proc) (n : nat) (l : list effect) :
  main run sp up st = (Ok n, st', l) -> (n = 0 \/ n = 1) /\ (truthy up = false -> n = 0).
Proof. exact (main_exit_code run sp up st st' n l). Qed.

Lemma main_exit_status_witness :
  let st := {| root := [("lib", Dir [("python2.7", Dir [])])]; environ := ∅ |} in
  let res := main (fun _ _ s => s) None (Some "/new") st in
  fst (fst res) = Ok 1 /\ (1 = 0 \/ 1 = 1) /\ (truthy (Some "/new") = false -> 1 = 0).
Proof.
  intros st res. split; [reflexivity|].
  exact (main_exit_status (fun _ _ s => s) None (Some "/new") st (snd (fst res)) 1 (snd res) eq_refl).
Defined.

(** X15: [main] with a non-empty relative [--update-path] and no
    [--substitute-python] changes nothing, prints the path and the
    error, and exits with status 1. *)
Theorem main_relative_update_path (run : list string -> gmap string string -> proc -> proc)
    (sp : option string) (p : string) (st : proc) :
  truthy sp = false -> p <> "" -> isabs p = false ->
  main run sp (Some p) st =
    (Ok 1, st, [Print ("Update path: " +:+ p); Print ("error: " +:+ p +:+ " is not an absolute path")]).
Proof. exact (main_relative_path run sp p st). Qed.

Lemma main_relative_update_path_witness :
  let st := {| root := []; environ := ∅ |} in
  main (fun _ _ s => s) (Some "") (Some "venv") st =
    (Ok 1, st, [Print ("Update path: " +:+ "venv"); Print ("error: " +:+ "venv" +:+ " is not an absolute path")]).
Proof.
  intros st.
  exact (main_relative_update_path (fun _ _ s => s) (Some "") "venv" st eq_refl ltac:(discriminate) eq_refl).
Defined.

End Extras.
